(** * ML code translator: validator, rule-based translator, tokenizer, AST processor

    A shallow embedding of the Python sources of the translation service
    (postprocessing/validator.py, models/base_model.py, models/codegen_model.py,
    preprocessing/tokenizer.py, preprocessing/ast_processor.py, app.py) and
    the properties proved about them.

    Conventions of the embedding:
    - a Python [str] is a [string]; its characters are read as the code points
      0..255, with Python's own classification of those code points
      (whitespace, word characters, case mapping);
    - a Python [float] is an IEEE 754 binary64 value, [spec_float] with
      precision 53 and maximal exponent 1024, and arithmetic is the correctly
      rounded arithmetic of [SpecFloat];
    - the built-ins [max] and [min] keep their first argument unless a later
      one is strictly greater (smaller), exactly as CPython evaluates them;
    - the [re] module is a backtracking matcher over a regular-expression
      syntax tree; every pattern of the sources is written out as such a tree;
    - a method that mutates [self] or an argument is a function that returns
      the new state; a call that can raise returns an [outcome]. *)

From Stdlib Require Import ZArith Bool List String Ascii Lia DecimalString Sorted.
From Stdlib Require Import Floats.SpecFloat.
Import ListNotations.
Local Open Scope string_scope.
Local Open Scope list_scope.

(** ** Outcomes of calls that may raise *)

Inductive exn : Type :=
| ValueError (msg : string)
| RuntimeError (msg : string)
| JSONDecodeError (msg : string)
| OtherError (msg : string).

Inductive outcome (A : Type) : Type :=
| Returned (a : A)
| Raised (e : exn).

Arguments Returned {A} a.
Arguments Raised {A} e.

(** ** Python strings *)

Module PyStr.

Definition nl : ascii := "010"%char.
Definition cr : ascii := "013"%char.
Definition tab : ascii := "009"%char.

Definition code (c : ascii) : nat := nat_of_ascii c.

Definition between (lo hi : nat) (c : ascii) : bool :=
  (lo <=? code c)%nat && (code c <=? hi)%nat.

(** [str.isspace] on one character: TAB..CR, FS..US, SPACE, NEL, NBSP. *)
Definition isspace (c : ascii) : bool :=
  between 9 13 c || between 28 32 c || (code c =? 133)%nat || (code c =? 160)%nat.

Definition isupper_ascii (c : ascii) : bool := between 65 90 c.
Definition islower_ascii (c : ascii) : bool := between 97 122 c.
Definition isdigit (c : ascii) : bool := between 48 57 c.

(** Letters with a lower-case partner among the code points 192..222. *)
Definition isupper_latin (c : ascii) : bool :=
  between 192 222 c && negb (code c =? 215)%nat.

Definition lower_char (c : ascii) : ascii :=
  if isupper_ascii c || isupper_latin c then ascii_of_nat (code c + 32) else c.

(** Upper-casing of the ASCII letters; the other code points are left alone
    (only [comment.upper()] uses it, to look for ASCII keywords). *)
Definition upper_char (c : ascii) : ascii :=
  if islower_ascii c then ascii_of_nat (code c - 32) else c.

(** Word characters of [\w]: alphanumeric code points and the underscore. *)
Definition isword (c : ascii) : bool :=
  isdigit c || isupper_ascii c || islower_ascii c || (code c =? 95)%nat
  || (code c =? 170)%nat || (code c =? 178)%nat || (code c =? 179)%nat
  || (code c =? 181)%nat || (code c =? 185)%nat || (code c =? 186)%nat
  || between 188 190 c || between 192 214 c || between 216 246 c
  || between 248 255 c.

Fixpoint map_chars (f : ascii -> ascii) (s : string) : string :=
  match s with
  | EmptyString => EmptyString
  | String c t => String (f c) (map_chars f t)
  end.

Definition lower : string -> string := map_chars lower_char.
Definition upper : string -> string := map_chars upper_char.

(** [s.capitalize()]: first character upper-cased, the rest lower-cased. *)
Definition capitalize (s : string) : string :=
  match s with
  | EmptyString => EmptyString
  | String c t => String (upper_char c) (lower t)
  end.

Fixpoint rev_onto (s acc : string) : string :=
  match s with
  | EmptyString => acc
  | String c t => rev_onto t (String c acc)
  end.

Definition rev (s : string) : string := rev_onto s EmptyString.

Fixpoint lstrip (s : string) : string :=
  match s with
  | EmptyString => EmptyString
  | String c t => if isspace c then lstrip t else s
  end.

Fixpoint rstrip (s : string) : string :=
  match s with
  | EmptyString => EmptyString
  | String c t =>
      match rstrip t with
      | EmptyString => if isspace c then EmptyString else String c EmptyString
      | r => String c r
      end
  end.

Definition strip (s : string) : string := rstrip (lstrip s).

(** Truth value of a [str]: non-empty. *)
Definition truthy (s : string) : bool :=
  match s with EmptyString => false | _ => true end.

Definition startswith (p s : string) : bool := prefix p s.

Definition endswith (p s : string) : bool := prefix (rev p) (rev s).

(** [sub in s]. *)
Fixpoint contains (sub s : string) : bool :=
  prefix sub s ||
  match s with
  | EmptyString => false
  | String _ t => contains sub t
  end.

(** [s.count(c)] for a one-character [c]. *)
Fixpoint count_char (c : ascii) (s : string) : Z :=
  match s with
  | EmptyString => 0%Z
  | String d t => ((if Ascii.eqb d c then 1 else 0) + count_char c t)%Z
  end.

(** [s.split(c)] for a one-character separator [c]: never the empty list. *)
Fixpoint split_char (c : ascii) (s : string) : list string :=
  match s with
  | EmptyString => [EmptyString]
  | String d t =>
      if Ascii.eqb d c then EmptyString :: split_char c t
      else match split_char c t with
           | h :: r => String d h :: r
           | [] => [String d EmptyString]
           end
  end.

Definition split_lines (s : string) : list string := split_char nl s.

Definition join (sep : string) (l : list string) : string := String.concat sep l.

Fixpoint drop (n : nat) (s : string) : string :=
  match n, s with
  | O, _ => s
  | S k, EmptyString => EmptyString
  | S k, String _ t => drop k t
  end.

Fixpoint take (n : nat) (s : string) : string :=
  match n, s with
  | O, _ => EmptyString
  | S k, EmptyString => EmptyString
  | S k, String c t => String c (take k t)
  end.

(** [s.split(sep, 1)] for a non-empty [sep]: [None] when [sep] does not
    occur (Python then returns the one-element list [[s]]), otherwise the
    text before and after the first occurrence. *)
Fixpoint split_once (sep s : string) : option (string * string) :=
  if prefix sep s then Some (EmptyString, drop (String.length sep) s)
  else match s with
       | EmptyString => None
       | String c t =>
           match split_once sep t with
           | Some (a, b) => Some (String c a, b)
           | None => None
           end
       end.

(** [s.replace(old, new)] for a non-empty [old]; the fuel is the length of
    the text still to scan, which is always enough. *)
Fixpoint replace_fuel (fuel : nat) (old new s : string) : string :=
  match fuel with
  | O => s
  | S f =>
      if prefix old s then new ++ replace_fuel f old new (drop (String.length old) s)
      else match s with
           | EmptyString => EmptyString
           | String c t => String c (replace_fuel f old new t)
           end
  end.

Definition replace (old new s : string) : string :=
  replace_fuel (S (String.length s)) old new s.

(** [s.split()]: the maximal runs of non-whitespace characters. *)
Fixpoint split_ws_aux (s cur : string) : list string :=
  match s with
  | EmptyString => match cur with EmptyString => [] | _ => [rev cur] end
  | String c t =>
      if isspace c
      then match cur with
           | EmptyString => split_ws_aux t EmptyString
           | _ => rev cur :: split_ws_aux t EmptyString
           end
      else split_ws_aux t (String c cur)
  end.

Definition split_ws (s : string) : list string := split_ws_aux s EmptyString.

(** [s.split(None, 1)]: the first word and, when there is one, the rest with
    the whitespace before it removed. *)
Fixpoint span_word (s : string) : string * string :=
  match s with
  | EmptyString => (EmptyString, EmptyString)
  | String c t =>
      if isspace c then (EmptyString, s)
      else let '(w, r) := span_word t in (String c w, r)
  end.

Definition split_ws_1 (s : string) : list string :=
  match lstrip s with
  | EmptyString => []
  | s' => let '(w, r) := span_word s' in
          match lstrip r with
          | EmptyString => [w]
          | r' => [w; r']
          end
  end.

(** [str(n)] and [f"{n}"] for an [int]. *)
Definition str_of_Z (z : Z) : string := NilZero.string_of_int (Z.to_int z).

Definition len (s : string) : Z := Z.of_nat (String.length s).

End PyStr.

(** ** Regular expressions (the [re] module) *)

Module Re.

Import PyStr.

(** Syntax trees of the patterns. Flags are part of the tree: [Chr] carries
    the set of characters it accepts (so [.] with and without DOTALL, and a
    literal with and without IGNORECASE, are different predicates), and [Eol]
    says whether [$] is the MULTILINE one. *)
Inductive regex : Type :=
| Eps
| Chr (p : ascii -> bool)
| Seq (a b : regex)
| Alt (a b : regex)
| Star (greedy : bool) (r : regex)
| Group (n : nat) (r : regex)
| Look (r : regex)
| Bol
| Eol (multiline : bool)
| EndZ
| WordB.

(** Captured groups, most recent binding first. *)
Definition caps : Type := list (nat * string).

Fixpoint cap_get (n : nat) (c : caps) : option string :=
  match c with
  | [] => None
  | (k, v) :: t => if Nat.eqb k n then Some v else cap_get n t
  end.

Definition orelse {A} (x y : option A) : option A :=
  match x with Some _ => x | None => y end.

Definition head_char (s : string) : option ascii :=
  match s with EmptyString => None | String c _ => Some c end.

Definition is_word_opt (c : option ascii) : bool :=
  match c with Some x => isword x | None => false end.

Definition cont : Type := option ascii -> string -> caps -> option (string * caps).

(** The loop of a repetition whose body is matched by [body]: longest first
    when greedy, shortest first when lazy. An iteration that consumes nothing
    ends the loop, so [S (length s)] rounds are always enough. *)
Fixpoint star_loop (body : option ascii -> string -> caps -> cont -> option (string * caps))
         (greedy : bool) (k : cont) (fuel : nat)
         (prev : option ascii) (s : string) (c : caps) : option (string * caps) :=
  match fuel with
  | O => k prev s c
  | S f =>
      let more :=
        body prev s c
             (fun prev' s' c' =>
                if (String.length s' <? String.length s)%nat
                then star_loop body greedy k f prev' s' c' else None) in
      if greedy then orelse more (k prev s c)
      else orelse (k prev s c) more
  end.

(** The backtracking matcher, in continuation-passing style: [run r prev s c k]
    matches [r] at the front of [s] ([prev] is the character before it) and
    hands what is left to [k]; alternatives are tried in the order of the
    [re] module (left branch first). *)
Fixpoint run (r : regex) : option ascii -> string -> caps -> cont -> option (string * caps) :=
  match r with
  | Eps => fun prev s c k => k prev s c
  | Chr p => fun prev s c k =>
      match s with
      | String x t => if p x then k (Some x) t c else None
      | EmptyString => None
      end
  | Seq a b => fun prev s c k =>
      run a prev s c (fun prev' s' c' => run b prev' s' c' k)
  | Alt a b => fun prev s c k =>
      orelse (run a prev s c k) (run b prev s c k)
  | Star greedy r' => fun prev s c k =>
      star_loop (run r') greedy k (S (String.length s)) prev s c
  | Group n r' => fun prev s c k =>
      run r' prev s c
          (fun prev' s' c' =>
             k prev' s' ((n, take (String.length s - String.length s') s) :: c'))
  | Look r' => fun prev s c k =>
      match run r' prev s c (fun _ s' c' => Some (s', c')) with
      | Some (_, c') => k prev s c'
      | None => None
      end
  | Bol => fun prev s c k =>
      match prev with None => k prev s c | Some _ => None end
  | Eol multiline => fun prev s c k =>
      match s with
      | EmptyString => k prev s c
      | String x t =>
          if Ascii.eqb x nl && (multiline || negb (truthy t)) then k prev s c else None
      end
  | EndZ => fun prev s c k =>
      match s with EmptyString => k prev s c | _ => None end
  | WordB => fun prev s c k =>
      if xorb (is_word_opt prev) (is_word_opt (head_char s)) then k prev s c else None
  end.

(** A match: where it starts, the text of group 0, and the other groups. *)
Record mtch : Type := Match { m_start : nat; m_text : string; m_caps : caps }.

Definition group (m : mtch) (n : nat) : option string :=
  match n with O => Some (m_text m) | _ => cap_get n (m_caps m) end.

(** Group [n] as text, the empty string standing for an unset group (what
    a replacement template substitutes). *)
Definition group_text (m : mtch) (n : nat) : string :=
  match group m n with Some v => v | None => EmptyString end.

(** A match that starts exactly at the front of [s]; with [nonempty] only a
    match that consumes at least one character is accepted. *)
Definition match_here (nonempty : bool) (r : regex) (prev : option ascii) (s : string)
  : option (nat * caps) :=
  match run r prev s []
            (fun _ s' c =>
               if nonempty && negb (String.length s' <? String.length s)%nat
               then None else Some (s', c)) with
  | Some (s', c) => Some (String.length s - String.length s', c)
  | None => None
  end.

Fixpoint search_from (r : regex) (prev : option ascii) (s : string) (pos : nat)
  : option mtch :=
  match match_here false r prev s with
  | Some (n, c) => Some (Match pos (take n s) c)
  | None =>
      match s with
      | EmptyString => None
      | String x t => search_from r (Some x) t (S pos)
      end
  end.

(** [re.search(pattern, s)]. *)
Definition search (r : regex) (s : string) : option mtch := search_from r None s 0.

Definition found (r : regex) (s : string) : bool :=
  match search r s with Some _ => true | None => false end.

Definition last_char (prev : option ascii) (s : string) : option ascii :=
  match rev s with EmptyString => prev | String c _ => Some c end.

(** [re.sub(pattern, repl, s)]: the leftmost non-overlapping matches are
    replaced; after an empty match the next match at the same place has to be
    non-empty. Every step either consumes a character or forbids the empty
    match, so [2 * length s + 2] steps are always enough. *)
Fixpoint sub_fuel (fuel : nat) (r : regex) (repl : mtch -> string)
         (allow_empty : bool) (prev : option ascii) (s : string) (pos : nat) : string :=
  match fuel with
  | O => s
  | S f =>
      match match_here (negb allow_empty) r prev s with
      | Some (O, c) =>
          repl (Match pos EmptyString c) ++ sub_fuel f r repl false prev s pos
      | Some (n, c) =>
          repl (Match pos (take n s) c)
          ++ sub_fuel f r repl true (last_char prev (take n s)) (drop n s) (pos + n)
      | None =>
          match s with
          | EmptyString => EmptyString
          | String x t => String x (sub_fuel f r repl true (Some x) t (S pos))
          end
      end
  end.

Definition sub (r : regex) (repl : mtch -> string) (s : string) : string :=
  sub_fuel (2 * String.length s + 2) r repl true None s 0.

(** *** Pattern combinators *)

Definition chr (c : ascii) : regex := Chr (Ascii.eqb c).
(** A literal character under IGNORECASE. *)
Definition chr_i (c : ascii) : regex :=
  Chr (fun x => Ascii.eqb (lower_char x) (lower_char c)).

Fixpoint lit (s : string) : regex :=
  match s with
  | EmptyString => Eps
  | String c EmptyString => chr c
  | String c t => Seq (chr c) (lit t)
  end.

Fixpoint lit_i (s : string) : regex :=
  match s with
  | EmptyString => Eps
  | String c EmptyString => chr_i c
  | String c t => Seq (chr_i c) (lit_i t)
  end.

Fixpoint seqs (l : list regex) : regex :=
  match l with
  | [] => Eps
  | [r] => r
  | r :: t => Seq r (seqs t)
  end.

Fixpoint alts (l : list regex) : regex :=
  match l with
  | [] => Chr (fun _ => false)
  | [r] => r
  | r :: t => Alt r (alts t)
  end.

Definition star (r : regex) : regex := Star true r.
Definition lazy_star (r : regex) : regex := Star false r.
Definition plus (r : regex) : regex := Seq r (Star true r).

Fixpoint mem_char (c : ascii) (s : string) : bool :=
  match s with
  | EmptyString => false
  | String d t => Ascii.eqb c d || mem_char c t
  end.

(** [\w], [\s], [\d], [.], [.] under DOTALL, [[...]] and [[^...]]. *)
Definition w : regex := Chr isword.
Definition sp : regex := Chr isspace.
Definition d : regex := Chr isdigit.
Definition dot : regex := Chr (fun x => negb (Ascii.eqb x nl)).
Definition dot_all : regex := Chr (fun _ => true).
Definition one_of (s : string) : regex := Chr (fun x => mem_char x s).
Definition none_of (s : string) : regex := Chr (fun x => negb (mem_char x s)).

End Re.

(** ** Python floats *)

Module Float.

Definition float : Type := spec_float.

Definition prec : Z := 53.
Definition emax : Z := 1024.

Definition add : float -> float -> float := SFadd prec emax.
Definition sub : float -> float -> float := SFsub prec emax.
Definition mul : float -> float -> float := SFmul prec emax.
Definition ltb : float -> float -> bool := SFltb.
Definition leb : float -> float -> bool := SFleb.

(** [float(n)] for an [int] (exact below 2^53). *)
Definition of_Z (z : Z) : float := binary_normalize prec emax z 0 false.

(** The literals of the sources, each the binary64 value nearest to the
    decimal numeral: mantissa and exponent of [m * 2^e]. *)
Definition f0_0 : float := S754_zero false.
Definition f1_0 : float := S754_finite false 4503599627370496 (-52).
Definition f0_1 : float := S754_finite false 7205759403792794 (-56).
Definition f0_2 : float := S754_finite false 7205759403792794 (-55).
Definition f0_5 : float := S754_finite false 4503599627370496 (-53).
Definition f0_6 : float := S754_finite false 5404319552844595 (-53).
Definition f0_7 : float := S754_finite false 6305039478318694 (-53).
Definition f0_85 : float := S754_finite false 7656119366529843 (-53).
Definition f0_8 : float := S754_finite false 7205759403792794 (-53).
Definition f0_9 : float := S754_finite false 8106479329266893 (-53).

(** The built-ins [max(a, b)] and [min(a, b)]: the first argument is kept
    unless the second is strictly greater (smaller). *)
Definition py_max (a b : float) : float := if ltb a b then b else a.
Definition py_min (a b : float) : float := if ltb b a then b else a.


(** [0.0 <= x <= 1.0]. *)
Definition in_unit (x : float) : bool := leb f0_0 x && leb x f1_0.

Definition eqb (x y : float) : bool :=
  match x, y with
  | S754_zero a, S754_zero b => Bool.eqb a b
  | S754_infinity a, S754_infinity b => Bool.eqb a b
  | S754_nan, S754_nan => true
  | S754_finite a m e, S754_finite b n f => Bool.eqb a b && Pos.eqb m n && Z.eqb e f
  | _, _ => false
  end.

Definition mem (x : float) (l : list float) : bool := existsb (eqb x) l.

End Float.

(** ** postprocessing/validator.py *)

Module Validator.

Import PyStr Re Float.

Inductive ValidationLevel : Type := ERROR | WARNING | INFO.

(** [level.value]. *)
Definition level_value (l : ValidationLevel) : string :=
  match l with ERROR => "error" | WARNING => "warning" | INFO => "info" end.

(** One entry of [issues[level]]: the dict with keys message, line, level. *)
Record Issue : Type := mkIssue {
  message : string;
  line : option Z;
  level : string
}.

(** [ValidationResult]: the three lists are [issues[ERROR]],
    [issues[WARNING]] and [issues[INFO]]. *)
Record ValidationResult : Type := mkResult {
  is_valid : bool;
  errors : list Issue;
  warnings : list Issue;
  info : list Issue;
  suggestions : list string;
  confidence : float
}.

(** [ValidationResult()]. *)
Definition new_result : ValidationResult :=
  mkResult true [] [] [] [] f1_0.

Definition set_confidence (c : float) (r : ValidationResult) : ValidationResult :=
  mkResult (is_valid r) (errors r) (warnings r) (info r) (suggestions r) c.

Definition add_issue (lv : ValidationLevel) (msg : string) (ln : option Z)
           (r : ValidationResult) : ValidationResult :=
  let i := mkIssue msg ln (level_value lv) in
  match lv with
  | ERROR =>
      mkResult false (errors r ++ [i]) (warnings r) (info r) (suggestions r)
               (py_max f0_0 (sub (confidence r) f0_2))
  | WARNING =>
      mkResult (is_valid r) (errors r) (warnings r ++ [i]) (info r) (suggestions r)
               (py_max f0_0 (sub (confidence r) f0_1))
  | INFO =>
      mkResult (is_valid r) (errors r) (warnings r) (info r ++ [i]) (suggestions r)
               (confidence r)
  end.

Definition add_suggestion (s : string) (r : ValidationResult) : ValidationResult :=
  mkResult (is_valid r) (errors r) (warnings r) (info r) (suggestions r ++ [s])
           (confidence r).

(** [to_dict]: the dict has exactly the fields of the record. *)
Definition to_dict (r : ValidationResult) : ValidationResult := r.

(** A [for] loop over [l] that updates the state [s]. *)
Definition for_each {A St : Type} (l : list A) (body : A -> St -> St) (s : St) : St :=
  fold_left (fun s a => body a s) l s.

Fixpoint enumerate_from {A : Type} (i : Z) (l : list A) : list (Z * A) :=
  match l with
  | [] => []
  | a :: t => (i, a) :: enumerate_from (i + 1) t
  end.

(** [enumerate(l, 1)]. *)
Definition enumerate1 {A : Type} (l : list A) : list (Z * A) := enumerate_from 1 l.

Definition nonblank (ln : string) : bool := truthy (strip ln).

(** [[line for line in lines if line.strip()]]. *)
Definition non_empty_of (lines : list string) : list string := filter nonblank lines.

Definition in_list (s : string) (l : list string) : bool := existsb (String.eqb s) l.

Definition artifact_patterns : list regex :=
  [ lit "here is the"; lit "the following"; lit "as you can see"; lit "note that";
    lit "please note"; lit "translation:"; lit "generated code:" ].

(** [r'```\w*']. *)
Definition re_fence : regex := Seq (lit "```") (star w).

Definition _validate_basic_structure (code target_language : string)
           (result : ValidationResult) : ValidationResult :=
  let lines := split_lines code in
  let non_empty_lines := non_empty_of lines in
  match non_empty_lines with
  | [] => add_issue ERROR "Code contains no meaningful content" None result
  | _ =>
      let result :=
        for_each (enumerate1 lines)
          (fun '(i, ln) result =>
             let line_lower := lower ln in
             for_each artifact_patterns
               (fun pattern result =>
                  if found pattern line_lower
                  then add_issue WARNING "Possible ML artifact detected" (Some i) result
                  else result) result) result in
      if found re_fence code
      then add_issue WARNING "Code contains markdown formatting markers" None result
      else result
  end.

(** What [ast.parse(code)] does: it returns a tree, raises [SyntaxError]
    (with its [msg] and [lineno]), or raises something else. *)
Inductive parse_result : Type :=
| ParseOk
| ParseSyntaxError (msg : string) (lineno : option Z)
| ParseRaises (e : exn).

Definition python_line_checks (code : string) (result : ValidationResult)
  : ValidationResult :=
  for_each (enumerate1 (split_lines code))
    (fun '(i, ln) result =>
       let result :=
         if endswith ";" (strip ln) && negb (endswith "';" (strip ln))
         then add_issue INFO "Unnecessary semicolon detected" (Some i) result
         else result in
       let result :=
         if contains "{" ln || contains "}" ln
         then add_issue WARNING "Braces detected in Python code" (Some i) result
         else result in
       if startswith " " ln && negb (startswith "    " ln)
          && negb (startswith "        " ln)
       then if truthy (strip ln)
            then add_issue WARNING "Inconsistent indentation (should be 4 spaces)"
                           (Some i) result
            else result
       else result) result.

Definition c_like_keywords : list string :=
  ["if"; "for"; "while"; "switch"; "else"; "do"; "try"; "catch"; "finally"].

(** [r'\w+\s*='], [r'\w+\(.*\)'], [r'return\s+'], [r'break\b'], [r'continue\b']. *)
Definition re_assign : regex := seqs [plus w; star sp; lit "="].
Definition re_call : regex := seqs [plus w; lit "("; star dot; lit ")"].
Definition re_return : regex := Seq (lit "return") (plus sp).
Definition re_break : regex := Seq (lit "break") WordB.
Definition re_continue : regex := Seq (lit "continue") WordB.

(** The heuristic for a missing semicolon on one stripped line. *)
Definition lacks_semicolon (stripped : string) : bool :=
  truthy stripped
  && negb (startswith "//" stripped)
  && negb (startswith "/*" stripped)
  && negb (endswith "{" stripped)
  && negb (endswith "}" stripped)
  && negb (endswith ":" stripped)
  && negb (existsb (fun keyword => contains keyword stripped) c_like_keywords)
  && negb (endswith ";" stripped)
  && (found re_assign stripped
      || found re_call stripped
      || found re_return stripped
      || found re_break stripped
      || found re_continue stripped).

(** The body of the loop of [_validate_c_like]: the state is
    [(brace_count, paren_count, result)]. *)
Definition c_like_line (il : Z * string) (st : Z * Z * ValidationResult)
  : Z * Z * ValidationResult :=
  let '(i, ln) := il in
  let '(brace_count, paren_count, result) := st in
  let brace_count := (brace_count + (count_char "{" ln - count_char "}" ln))%Z in
  let paren_count := (paren_count + (count_char "(" ln - count_char ")" ln))%Z in
  let stripped := strip ln in
  let result :=
    if lacks_semicolon stripped
    then add_issue WARNING "Possible missing semicolon" (Some i) result
    else result in
  (brace_count, paren_count, result).

Definition _validate_c_like (code target_language : string) (result : ValidationResult)
  : ValidationResult :=
  let lines := split_lines code in
  let '(brace_count, paren_count, result) :=
    for_each (enumerate1 lines) c_like_line (0%Z, 0%Z, result) in
  let result :=
    if negb (brace_count =? 0)%Z
    then add_issue ERROR ("Unmatched braces: " ++ str_of_Z brace_count) None result
    else result in
  if negb (paren_count =? 0)%Z
  then add_issue WARNING ("Unmatched parentheses: " ++ str_of_Z paren_count) None result
  else result.

Definition valid_instructions : list string :=
  [ "mov"; "add"; "sub"; "mul"; "div"; "jmp"; "call"; "push"; "pop"; "ret";
    "cmp"; "test"; "je"; "jne"; "jg"; "jl"; "jge"; "jle"; "inc"; "dec";
    "and"; "or"; "xor"; "not"; "shl"; "shr"; "nop"; "int"; "hlt" ].

Definition _validate_assembly (code : string) (result : ValidationResult)
  : ValidationResult :=
  for_each (enumerate1 (split_lines code))
    (fun '(i, ln) result =>
       let stripped := lower (strip ln) in
       if negb (truthy stripped) || startswith ";" stripped then result
       else
         match split_ws_1 stripped with
         | [] => result
         | instruction :: _ =>
             if endswith ":" instruction then result
             else if negb (in_list instruction valid_instructions)
                  then add_issue WARNING
                                 ("Unknown assembly instruction: " ++ instruction)
                                 (Some i) result
                  else result
         end) result.

(** [source_info]: the names under the optional keys 'functions' and
    'classes' (each entry is a dict read through its 'name'). *)
Record SourceInfo : Type := mkSourceInfo {
  si_functions : option (list string);
  si_classes : option (list string)
}.

Definition _validate_consistency (code target_language : string)
           (source_info : SourceInfo) (result : ValidationResult) : ValidationResult :=
  let result :=
    match si_functions source_info with
    | Some source_functions =>
        for_each source_functions
          (fun func_name result =>
             if negb (contains func_name code)
             then add_issue WARNING
                    ("Function '" ++ func_name ++ "' from source not found in translation")
                    None result
             else result) result
    | None => result
    end in
  match si_classes source_info with
  | Some source_classes =>
      for_each source_classes
        (fun class_name result =>
           if negb (contains class_name code)
           then add_issue WARNING
                  ("Class '" ++ class_name ++ "' from source not found in translation")
                  None result
           else result) result
  | None => result
  end.

(** [r'range\s*\(\s*len\s*\('] and [r'for\s+\w+\s+in\s+range\s*\(']. *)
Definition re_range_len : regex :=
  seqs [lit "range"; star sp; lit "("; star sp; lit "len"; star sp; lit "("].
Definition re_for_range : regex :=
  seqs [lit "for"; plus sp; plus w; plus sp; lit "in"; plus sp; lit "range"; star sp; lit "("].

Definition _assess_python_quality (code : string) (result : ValidationResult)
  : ValidationResult :=
  let result :=
    if found re_range_len code
    then add_suggestion "Consider using enumerate() instead of range(len())" result
    else result in
  if found re_for_range code && negb (contains "while" code)
  then add_suggestion "Consider if a more Pythonic iteration method is available" result
  else result.

(** The pattern of a comment line: start of text, optional whitespace, then
    a hash sign, two slashes, or a slash and a star. *)
Definition re_comment_line : regex :=
  seqs [Bol; star sp; Group 1 (alts [lit "#"; lit "//"; lit "/*"])].

(** [len(set(l))]. *)
Definition distinct (l : list string) : nat := List.length (nodup string_dec l).

(** [len(non_empty_lines) == 1 and len(lines[0]) < 50]. *)
Definition is_short (code : string) : bool :=
  let lines := split_lines code in
  (List.length (non_empty_of lines) =? 1)%nat
  && (len (hd EmptyString lines) <? 50)%Z.

(** [len(set(non_empty_lines)) < len(non_empty_lines) * 0.7]. *)
Definition is_repetitive (code : string) : bool :=
  let non_empty_lines := non_empty_of (split_lines code) in
  ltb (of_Z (Z.of_nat (distinct non_empty_lines)))
      (mul (of_Z (Z.of_nat (List.length non_empty_lines))) f0_7).

Definition _assess_quality (code target_language : string) (result : ValidationResult)
  : ValidationResult :=
  let lines := split_lines code in
  let non_empty_lines := non_empty_of lines in
  let result :=
    if is_short code
    then let result :=
           add_issue INFO "Very short translation - may be incomplete" None result in
         set_confidence (py_max f0_5 (sub (confidence result) f0_1)) result
    else result in
  let comment_lines := List.length (filter (found re_comment_line) lines) in
  let result :=
    if (comment_lines =? 0)%nat && (10 <? List.length non_empty_lines)%nat
    then add_suggestion "Consider adding comments to explain the translation" result
    else result in
  let result :=
    if is_repetitive code
    then let result := add_issue WARNING "High code repetition detected" None result in
         set_confidence (py_max f0_7 (sub (confidence result) f0_1)) result
    else result in
  if String.eqb (lower target_language) "python"
  then _assess_python_quality code result
  else result.

Section Validate.

(** The standard library's parser, [ast.parse]. *)
Variable ast_parse : string -> parse_result.

Definition _validate_python (code : string) (result : ValidationResult)
  : outcome ValidationResult :=
  match ast_parse code with
  | ParseRaises e => Raised e
  | ParseOk => Returned (python_line_checks code result)
  | ParseSyntaxError msg lineno =>
      Returned (python_line_checks code
                  (add_issue ERROR ("Python syntax error: " ++ msg) lineno result))
  end.

(** The language-specific branch of [validate]. *)
Definition validate_language (code target_language : string) (result : ValidationResult)
  : outcome ValidationResult :=
  if String.eqb (lower target_language) "python" then _validate_python code result
  else if in_list (lower target_language) ["java"; "javascript"]
       then Returned (_validate_c_like code target_language result)
       else if String.eqb (lower target_language) "assembly"
            then Returned (_validate_assembly code result)
            else Returned result.

Definition validate (code target_language : string) (source_info : option SourceInfo)
  : outcome ValidationResult :=
  let result := new_result in
  if negb (truthy code) || negb (truthy (strip code))
  then Returned (to_dict (add_issue ERROR "Generated code is empty" None result))
  else
    let result := _validate_basic_structure code target_language result in
    match validate_language code target_language result with
    | Raised e => Raised e
    | Returned result =>
        let result :=
          match source_info with
          | Some si => _validate_consistency code target_language si result
          | None => result
          end in
        let result := _assess_quality code target_language result in
        Returned (to_dict result)
    end.

End Validate.

(** A parser that accepts every text, for the examples. *)
Definition accepting_parser (code : string) : parse_result := ParseOk.

End Validator.

(** ** Facts about the validator *)

Module ValidatorFacts.

Import PyStr Re Float Validator.

(** *** The confidence arithmetic *)

(** What [add_issue] does to the confidence, by level. *)
Definition penalty (lv : ValidationLevel) (c : float) : float :=
  match lv with
  | ERROR => py_max f0_0 (sub c f0_2)
  | WARNING => py_max f0_0 (sub c f0_1)
  | INFO => c
  end.

(** The penalties of a sequence of issues, in the order they are recorded. *)
Definition penalise (levels : list ValidationLevel) (c : float) : float :=
  fold_left (fun c lv => penalty lv c) levels c.

(** The short-output step and the repetition step of [_assess_quality]. *)
Definition short_step (c : float) : float := py_max f0_5 (sub c f0_1).
Definition repetition_step (c : float) : float :=
  py_max f0_7 (sub (penalty WARNING c) f0_1).

(** The confidence [validate] reports, read off its sequence of recorded
    issue levels and the two quality conditions: no bonus is added. *)
Definition spec_confidence (levels : list ValidationLevel) (short repetitive : bool)
  : float :=
  let c := penalise levels f1_0 in
  let c := if short then short_step c else c in
  if repetitive then repetition_step c else c.

Definition is_level (lv x : ValidationLevel) : bool :=
  match lv, x with
  | ERROR, ERROR | WARNING, WARNING | INFO, INFO => true
  | _, _ => false
  end.

Definition count_level (lv : ValidationLevel) (levels : list ValidationLevel) : nat :=
  List.length (filter (is_level lv) levels).

(** The formula as the specification words it: the same steps, and a bonus
    of 0.1 capped at 1.0 at the end when no error and no warning was
    recorded. *)
Definition claimed_confidence (levels : list ValidationLevel) (short repetitive : bool)
  : float :=
  let c := spec_confidence levels short repetitive in
  if (count_level ERROR levels =? 0)%nat && (count_level WARNING levels =? 0)%nat
     && negb repetitive
  then py_min f1_0 (add c f0_1)
  else c.

(** Closure of a set of confidence values under the two penalties. *)
Definition add_new (x : float) (l : list float) : list float :=
  if mem x l then l else l ++ [x].

Fixpoint close (fuel : nat) (todo seen : list float) : list float :=
  match fuel with
  | O => seen
  | S f =>
      match todo with
      | [] => seen
      | x :: t =>
          let fresh :=
            filter (fun y => negb (mem y seen))
                   (add_new (penalty WARNING x) (add_new (penalty ERROR x) [])) in
          close f (t ++ fresh) (seen ++ fresh)
      end
  end.

(** Every confidence value that penalties can produce from 1.0. *)
Definition reachable : list float := Eval vm_compute in close 200 [f1_0] [f1_0].

Definition closed_under (f : float -> float) (l : list float) : bool :=
  forallb (fun c => mem (f c) l) l.

Lemma eqb_eq (x y : float) : eqb x y = true -> x = y.
Proof.
  destruct x as [a|a| |a m e], y as [b|b| |b n f]; simpl; try discriminate; intro H.
  - apply Bool.eqb_prop in H. now subst.
  - apply Bool.eqb_prop in H. now subst.
  - reflexivity.
  - apply andb_prop in H. destruct H as [H He].
    apply andb_prop in H. destruct H as [Hs Hm].
    apply Bool.eqb_prop in Hs. apply Pos.eqb_eq in Hm. apply Z.eqb_eq in He.
    now subst.
Qed.

Lemma mem_forallb (p : float -> bool) (l : list float) (c : float) :
  forallb p l = true -> mem c l = true -> p c = true.
Proof.
  intros Hall Hmem. unfold mem in Hmem.
  apply existsb_exists in Hmem. destruct Hmem as [x [Hin Hx]].
  apply eqb_eq in Hx. subst x.
  rewrite forallb_forall in Hall. now apply Hall.
Qed.

Lemma reachable_closed :
  closed_under (penalty ERROR) reachable = true /\
  closed_under (penalty WARNING) reachable = true.
Proof. split; vm_compute; reflexivity. Qed.

Lemma reachable_penalty (lv : ValidationLevel) (c : float) :
  mem c reachable = true -> mem (penalty lv c) reachable = true.
Proof.
  intro H. destruct reachable_closed as [He Hw].
  destruct lv.
  - exact (mem_forallb _ _ _ He H).
  - exact (mem_forallb _ _ _ Hw H).
  - exact H.
Qed.

Lemma reachable_penalise (levels : list ValidationLevel) (c : float) :
  mem c reachable = true -> mem (penalise levels c) reachable = true.
Proof.
  revert c. induction levels as [|lv t IH]; intros c H; simpl.
  - exact H.
  - apply IH. now apply reachable_penalty.
Qed.

Lemma reachable_start : mem f1_0 reachable = true.
Proof. vm_compute; reflexivity. Qed.

(** Whatever the quality steps do to a reachable value stays in [0, 1]. *)
Lemma reachable_quality_in_unit (c : float) (short repetitive : bool) :
  mem c reachable = true ->
  in_unit (let c := if short then short_step c else c in
           if repetitive then repetition_step c else c) = true.
Proof.
  intro H.
  assert (Hall : forallb (fun c =>
                   in_unit c && in_unit (short_step c) && in_unit (repetition_step c)
                   && in_unit (repetition_step (short_step c))) reachable = true)
    by (vm_compute; reflexivity).
  pose proof (mem_forallb _ _ _ Hall H) as Hc. cbv beta in Hc.
  apply andb_prop in Hc. destruct Hc as [Hc H4].
  apply andb_prop in Hc. destruct Hc as [Hc H3].
  apply andb_prop in Hc. destruct Hc as [H1 H2].
  destruct short, repetitive; assumption.
Qed.

(** After the repetition step the value lies between 0.7 and 0.8. *)
Lemma reachable_repetition_bounds (c : float) (short : bool) :
  mem c reachable = true ->
  let r := repetition_step (if short then short_step c else c) in
  leb f0_7 r = true /\ leb r f0_8 = true.
Proof.
  intro H.
  assert (Hall : forallb (fun c =>
                   leb f0_7 (repetition_step c) && leb (repetition_step c) f0_8
                   && leb f0_7 (repetition_step (short_step c))
                   && leb (repetition_step (short_step c)) f0_8) reachable = true)
    by (vm_compute; reflexivity).
  pose proof (mem_forallb _ _ _ Hall H) as Hc. cbv beta in Hc.
  apply andb_prop in Hc. destruct Hc as [Hc H4].
  apply andb_prop in Hc. destruct Hc as [Hc H3].
  apply andb_prop in Hc. destruct Hc as [H1 H2].
  destruct short; cbv zeta; split; assumption.
Qed.

(** *** Passes that only record issues *)

Definition event : Type := (ValidationLevel * string * option Z)%type.

Definition event_level (e : event) : ValidationLevel := fst (fst e).

Definition record_event (e : event) (r : ValidationResult) : ValidationResult :=
  add_issue (fst (fst e)) (snd (fst e)) (snd e) r.

(** Recording a sequence of issues, one [add_issue] call each. *)
Definition replay (evs : list event) (r : ValidationResult) : ValidationResult :=
  fold_left (fun r e => record_event e r) evs r.

(** A pass that changes the result only by calling [add_issue], with calls
    that do not depend on the result it is given. *)
Definition issue_only (f : ValidationResult -> ValidationResult) : Prop :=
  exists evs, forall r, f r = replay evs r.

Lemma replay_app (a b : list event) (r : ValidationResult) :
  replay (a ++ b) r = replay b (replay a r).
Proof. unfold replay. now rewrite fold_left_app. Qed.

Lemma issue_only_id : issue_only (fun r => r).
Proof. exists []. reflexivity. Qed.

Lemma issue_only_add (lv : ValidationLevel) (msg : string) (ln : option Z) :
  issue_only (add_issue lv msg ln).
Proof. exists [(lv, msg, ln)]. reflexivity. Qed.

Lemma issue_only_comp (f g : ValidationResult -> ValidationResult) :
  issue_only f -> issue_only g -> issue_only (fun r => g (f r)).
Proof.
  intros [a Ha] [b Hb]. exists (a ++ b). intro r.
  now rewrite replay_app, <- Ha, <- Hb.
Qed.

Lemma issue_only_cond (b : bool) (lv : ValidationLevel) (msg : string) (ln : option Z) :
  issue_only (fun r => if b then add_issue lv msg ln r else r).
Proof. destruct b; [apply issue_only_add | apply issue_only_id]. Qed.

Lemma issue_only_for_each {A : Type} (l : list A)
      (body : A -> ValidationResult -> ValidationResult) :
  (forall a, issue_only (body a)) -> issue_only (for_each l body).
Proof.
  intro H. induction l as [|a t IH].
  - exists []. reflexivity.
  - destruct (H a) as [ea Ha]. destruct IH as [et Ht].
    exists (ea ++ et). intro r.
    rewrite replay_app, <- Ha, <- Ht. reflexivity.
Qed.

Lemma issue_only_then_cond (f : ValidationResult -> ValidationResult) (b : bool)
      (lv : ValidationLevel) (msg : string) (ln : option Z) :
  issue_only f -> issue_only (fun r => if b then add_issue lv msg ln (f r) else f r).
Proof.
  intros [evs H]. destruct b.
  - exists (evs ++ [(lv, msg, ln)]). intro r. now rewrite replay_app, <- H.
  - exists evs. exact H.
Qed.

(** Closes a goal [issue_only f] once [f] is a fixed chain of at most three
    [add_issue] calls. *)
Ltac issue_only_step :=
  intro; unfold replay, record_event; cbn [fold_left fst snd]; reflexivity.

Ltac issue_only_finish :=
  cbv zeta;
  first [ exists []; issue_only_step
        | eexists [(_, _, _)]; issue_only_step
        | eexists [(_, _, _); (_, _, _)]; issue_only_step
        | eexists [(_, _, _); (_, _, _); (_, _, _)]; issue_only_step ].

Lemma basic_structure_issue_only (code target_language : string) :
  issue_only (_validate_basic_structure code target_language).
Proof.
  unfold _validate_basic_structure.
  destruct (non_empty_of (split_lines code)).
  - apply issue_only_add.
  - cbv zeta. apply issue_only_then_cond.
    apply issue_only_for_each. intros [i ln].
    apply issue_only_for_each. intro pattern.
    apply issue_only_cond.
Qed.

Lemma python_line_checks_issue_only (code : string) :
  issue_only (python_line_checks code).
Proof.
  unfold python_line_checks.
  apply issue_only_for_each. intros [i ln].
  destruct (endswith ";" (strip ln) && negb (endswith "';" (strip ln)));
    destruct (contains "{" ln || contains "}" ln);
    destruct (startswith " " ln && negb (startswith "    " ln)
              && negb (startswith "        " ln));
    destruct (truthy (strip ln));
    issue_only_finish.
Qed.

Lemma c_like_loop (l : list (Z * string)) :
  forall b p, exists b' p' evs,
    forall r, for_each l c_like_line (b, p, r) = (b', p', replay evs r).
Proof.
  induction l as [|[i ln] t IH]; intros b p.
  - exists b, p, []. reflexivity.
  - destruct (IH (b + (count_char "{" ln - count_char "}" ln))%Z
                 (p + (count_char "(" ln - count_char ")" ln))%Z)
      as [b' [p' [evs H]]].
    exists b', p'.
    destruct (lacks_semicolon (strip ln)) eqn:E.
    + exists ((WARNING, "Possible missing semicolon", Some i) :: evs). intro r.
      unfold for_each in *. simpl. rewrite E. apply H.
    + exists evs. intro r.
      unfold for_each in *. simpl. rewrite E. apply H.
Qed.

Lemma c_like_issue_only (code target_language : string) :
  issue_only (_validate_c_like code target_language).
Proof.
  unfold _validate_c_like. cbv zeta.
  destruct (c_like_loop (enumerate1 (split_lines code)) 0 0) as [b [p [evs H]]].
  destruct (negb (b =? 0)%Z) eqn:Eb; destruct (negb (p =? 0)%Z) eqn:Ep.
  - exists (evs ++ [(ERROR, ("Unmatched braces: " ++ str_of_Z b)%string, None);
                    (WARNING, ("Unmatched parentheses: " ++ str_of_Z p)%string, None)]).
    intro r. rewrite H, Eb, Ep, replay_app. reflexivity.
  - exists (evs ++ [(ERROR, ("Unmatched braces: " ++ str_of_Z b)%string, None)]).
    intro r. rewrite H, Eb, Ep, replay_app. reflexivity.
  - exists (evs ++ [(WARNING, ("Unmatched parentheses: " ++ str_of_Z p)%string, None)]).
    intro r. rewrite H, Eb, Ep, replay_app. reflexivity.
  - exists evs. intro r. rewrite H, Eb, Ep. reflexivity.
Qed.

Lemma assembly_issue_only (code : string) : issue_only (_validate_assembly code).
Proof.
  unfold _validate_assembly.
  apply issue_only_for_each. intros [i ln].
  destruct (negb (truthy (lower (strip ln))) || startswith ";" (lower (strip ln))).
  - apply issue_only_id.
  - destruct (split_ws_1 (lower (strip ln))) as [|instruction rest].
    + apply issue_only_id.
    + destruct (endswith ":" instruction).
      * apply issue_only_id.
      * apply issue_only_cond.
Qed.

Lemma consistency_issue_only (code target_language : string) (si : SourceInfo) :
  issue_only (_validate_consistency code target_language si).
Proof.
  unfold _validate_consistency. cbv zeta.
  assert (Hf : issue_only (fun result =>
            match si_functions si with
            | Some source_functions =>
                for_each source_functions
                  (fun func_name result =>
                     if negb (contains func_name code)
                     then add_issue WARNING
                            ("Function '" ++ func_name ++ "' from source not found in translation")
                            None result
                     else result) result
            | None => result
            end)).
  { destruct (si_functions si).
    - apply issue_only_for_each. intro. apply issue_only_cond.
    - apply issue_only_id. }
  destruct Hf as [e1 H1].
  destruct (si_classes si) as [source_classes|].
  - destruct (issue_only_for_each source_classes
                (fun class_name result =>
                   if negb (contains class_name code)
                   then add_issue WARNING
                          ("Class '" ++ class_name ++ "' from source not found in translation")
                          None result
                   else result)) as [e2 H2].
    { intro. apply issue_only_cond. }
    exists (e1 ++ e2). intro r. rewrite replay_app, <- H1, <- H2. reflexivity.
  - exists e1. exact H1.
Qed.

(** *** What a replay leaves in the result *)

Lemma replay_confidence (evs : list event) (r : ValidationResult) :
  confidence (replay evs r) = penalise (map event_level evs) (confidence r).
Proof.
  revert r. induction evs as [|[[lv msg] ln] t IH]; intro r.
  - reflexivity.
  - change (replay ((lv, msg, ln) :: t) r) with (replay t (add_issue lv msg ln r)).
    rewrite IH. destruct lv; reflexivity.
Qed.

Lemma replay_errors (evs : list event) (r : ValidationResult) :
  List.length (errors (replay evs r))
  = (List.length (errors r) + count_level ERROR (map event_level evs))%nat.
Proof.
  revert r. induction evs as [|[[lv msg] ln] t IH]; intro r.
  - simpl. unfold count_level. simpl. lia.
  - change (replay ((lv, msg, ln) :: t) r) with (replay t (add_issue lv msg ln r)).
    rewrite IH. unfold count_level. destruct lv; simpl; rewrite ?length_app; simpl; lia.
Qed.

Lemma replay_warnings (evs : list event) (r : ValidationResult) :
  List.length (warnings (replay evs r))
  = (List.length (warnings r) + count_level WARNING (map event_level evs))%nat.
Proof.
  revert r. induction evs as [|[[lv msg] ln] t IH]; intro r.
  - simpl. unfold count_level. simpl. lia.
  - change (replay ((lv, msg, ln) :: t) r) with (replay t (add_issue lv msg ln r)).
    rewrite IH. unfold count_level. destruct lv; simpl; rewrite ?length_app; simpl; lia.
Qed.

(** *** The quality pass *)

Definition repetition_issue : Issue :=
  mkIssue "High code repetition detected" None "warning".

Ltac split_ifs :=
  repeat match goal with
         | |- context [if ?b then _ else _] => destruct b
         end.

Lemma assess_quality_confidence (code target_language : string) (r : ValidationResult) :
  confidence (_assess_quality code target_language r)
  = let c := if is_short code then short_step (confidence r) else confidence r in
    if is_repetitive code then repetition_step c else c.
Proof.
  unfold _assess_quality, _assess_python_quality. cbv zeta.
  destruct (is_short code); destruct (is_repetitive code); split_ifs; reflexivity.
Qed.

Lemma assess_quality_errors (code target_language : string) (r : ValidationResult) :
  errors (_assess_quality code target_language r) = errors r.
Proof.
  unfold _assess_quality, _assess_python_quality. cbv zeta.
  split_ifs; reflexivity.
Qed.

Lemma assess_quality_warnings (code target_language : string) (r : ValidationResult) :
  warnings (_assess_quality code target_language r)
  = warnings r ++ (if is_repetitive code then [repetition_issue] else []).
Proof.
  unfold _assess_quality, _assess_python_quality. cbv zeta.
  destruct (is_repetitive code); split_ifs; simpl; rewrite ?app_nil_r; reflexivity.
Qed.

(** *** Blank text has no non-empty line *)

Fixpoint all_space (s : string) : bool :=
  match s with
  | EmptyString => true
  | String c t => isspace c && all_space t
  end.

Lemma lstrip_all_space (s : string) : all_space s = true -> lstrip s = EmptyString.
Proof.
  induction s as [|c t IH]; simpl; intro H.
  - reflexivity.
  - apply andb_prop in H. destruct H as [Hc Ht]. rewrite Hc. now apply IH.
Qed.

Lemma rstrip_empty (s : string) : rstrip s = EmptyString -> all_space s = true.
Proof.
  induction s as [|c t IH]; simpl; intro H.
  - reflexivity.
  - destruct (rstrip t) eqn:E.
    + destruct (isspace c); [now rewrite IH | discriminate].
    + discriminate.
Qed.

Lemma all_space_lstrip (s : string) : all_space (lstrip s) = true -> all_space s = true.
Proof.
  induction s as [|c t IH]; simpl; intro H.
  - reflexivity.
  - destruct (isspace c) eqn:E.
    + simpl. now apply IH.
    + simpl in H. rewrite E in H. discriminate.
Qed.

Lemma strip_empty (s : string) : strip s = EmptyString <-> all_space s = true.
Proof.
  unfold strip. split; intro H.
  - apply all_space_lstrip. now apply rstrip_empty.
  - now rewrite (lstrip_all_space s H).
Qed.

Lemma split_char_all_space (c : ascii) (s : string) :
  all_space s = true -> Forall (fun l => all_space l = true) (split_char c s).
Proof.
  induction s as [|x t IH]; simpl; intro H.
  - constructor; [reflexivity | constructor].
  - apply andb_prop in H. destruct H as [Hx Ht]. specialize (IH Ht).
    destruct (Ascii.eqb x c).
    + constructor; [reflexivity | exact IH].
    + destruct (split_char c t) as [|h r].
      * constructor; [simpl; now rewrite Hx | constructor].
      * inversion IH; subst. constructor; [simpl; now rewrite Hx | assumption].
Qed.

(** The test at the head of [validate]: [not code or not code.strip()]. *)
Definition blank (code : string) : bool :=
  negb (truthy code) || negb (truthy (strip code)).

Lemma blank_all_space (code : string) : blank code = true -> all_space code = true.
Proof.
  unfold blank. intro H. apply orb_prop in H. destruct H as [H | H].
  - destruct code; [reflexivity | discriminate].
  - apply strip_empty. destruct (strip code); [reflexivity | discriminate].
Qed.

Lemma blank_no_lines (code : string) :
  blank code = true -> non_empty_of (split_lines code) = [].
Proof.
  intro H. apply blank_all_space in H.
  pose proof (split_char_all_space nl code H) as F.
  unfold non_empty_of, split_lines.
  induction F as [|l t Hl _ IH]; simpl.
  - reflexivity.
  - unfold nonblank at 1. apply strip_empty in Hl. rewrite Hl. simpl. exact IH.
Qed.

Lemma blank_not_short (code : string) : blank code = true -> is_short code = false.
Proof.
  intro H. unfold is_short. cbv zeta. now rewrite (blank_no_lines code H).
Qed.

Lemma blank_not_repetitive (code : string) :
  blank code = true -> is_repetitive code = false.
Proof.
  intro H. unfold is_repetitive. cbv zeta. now rewrite (blank_no_lines code H).
Qed.

(** *** The shape of every result of [validate] *)

Section WithParser.

Variable ast_parse : string -> parse_result.

Lemma validate_language_shape (code target_language : string) :
  (exists e, ast_parse code = ParseRaises e
             /\ lower target_language = "python"
             /\ forall r, validate_language ast_parse code target_language r = Raised e)
  \/ (exists evs, forall r,
         validate_language ast_parse code target_language r = Returned (replay evs r)).
Proof.
  unfold validate_language, _validate_python.
  destruct (String.eqb (lower target_language) "python") eqn:Epy.
  - apply String.eqb_eq in Epy.
    destruct (ast_parse code) as [|msg lineno|e] eqn:Ep.
    + right. destruct (python_line_checks_issue_only code) as [evs H].
      exists evs. intro r. now rewrite H.
    + right. destruct (python_line_checks_issue_only code) as [evs H].
      exists ((ERROR, ("Python syntax error: " ++ msg)%string, lineno) :: evs).
      intro r. now rewrite H.
    + left. exists e. auto.
  - right.
    destruct (in_list (lower target_language) ["java"; "javascript"]).
    + destruct (c_like_issue_only code target_language) as [evs H].
      exists evs. intro r. now rewrite H.
    + destruct (String.eqb (lower target_language) "assembly").
      * destruct (assembly_issue_only code) as [evs H].
        exists evs. intro r. now rewrite H.
      * exists []. reflexivity.
Qed.

(** A result of [validate] is the quality pass applied to a replay of issues
    on a fresh result; no result means that the parser raised. *)
Lemma validate_shape (code target_language : string) (source_info : option SourceInfo) :
  match validate ast_parse code target_language source_info with
  | Raised e => ast_parse code = ParseRaises e /\ lower target_language = "python"
  | Returned r =>
      exists evs,
        r = (if blank code then replay evs new_result
             else _assess_quality code target_language (replay evs new_result))
  end.
Proof.
  unfold validate. fold (blank code). cbv zeta.
  destruct (blank code) eqn:Eb.
  - exists [(ERROR, "Generated code is empty", None)]. reflexivity.
  - destruct (basic_structure_issue_only code target_language) as [e1 H1].
    destruct (validate_language_shape code target_language)
      as [[e [Hp [Hl H2]]] | [e2 H2]]; rewrite H2.
    + auto.
    + unfold to_dict. destruct source_info as [si|].
      * destruct (consistency_issue_only code target_language si) as [e3 H3].
        exists (e1 ++ e2 ++ e3). rewrite !replay_app, <- H1, <- H3. reflexivity.
      * exists (e1 ++ e2). rewrite replay_app, <- H1. reflexivity.
Qed.

(** The confidence, the number of errors and the number of warnings of a
    result, in terms of the levels of the issues recorded before the quality
    pass. *)
Lemma validate_levels (code target_language : string) (source_info : option SourceInfo) :
  match validate ast_parse code target_language source_info with
  | Raised e => ast_parse code = ParseRaises e /\ lower target_language = "python"
  | Returned r =>
      exists levels,
        confidence r = spec_confidence levels (is_short code) (is_repetitive code)
        /\ List.length (errors r) = count_level ERROR levels
        /\ List.length (warnings r)
           = (count_level WARNING levels + (if is_repetitive code then 1 else 0))%nat
  end.
Proof.
  pose proof (validate_shape code target_language source_info) as H.
  destruct (validate ast_parse code target_language source_info) as [r|e]; [|exact H].
  destruct H as [evs ->]. exists (map event_level evs).
  destruct (blank code) eqn:Eb.
  - rewrite (blank_not_short code Eb), (blank_not_repetitive code Eb).
    unfold spec_confidence.
    rewrite replay_confidence, replay_errors, replay_warnings. simpl. repeat split; lia.
  - rewrite assess_quality_confidence, assess_quality_errors, assess_quality_warnings.
    rewrite length_app, replay_confidence, replay_errors, replay_warnings.
    unfold spec_confidence. simpl.
    repeat split; destruct (is_repetitive code); simpl; lia.
Qed.

Lemma spec_confidence_in_unit (levels : list ValidationLevel) (short repetitive : bool) :
  in_unit (spec_confidence levels short repetitive) = true.
Proof.
  unfold spec_confidence.
  apply (reachable_quality_in_unit (penalise levels f1_0) short repetitive).
  apply reachable_penalise. exact reachable_start.
Qed.

Lemma validate_in_unit (code target_language : string) (source_info : option SourceInfo) :
  match validate ast_parse code target_language source_info with
  | Raised e => ast_parse code = ParseRaises e /\ lower target_language = "python"
  | Returned r => in_unit (confidence r) = true
  end.
Proof.
  pose proof (validate_levels code target_language source_info) as H.
  destruct (validate ast_parse code target_language source_info) as [r|e]; [|exact H].
  destruct H as [levels [Hc _]]. rewrite Hc. apply spec_confidence_in_unit.
Qed.

(** For a target other than Python the call always returns. *)
Lemma validate_returns (code target_language : string) (source_info : option SourceInfo) :
  lower target_language <> "python" ->
  exists r, validate ast_parse code target_language source_info = Returned r.
Proof.
  intro Hn. pose proof (validate_shape code target_language source_info) as H.
  destruct (validate ast_parse code target_language source_info) as [r|e].
  - now exists r.
  - destruct H as [_ H]. contradiction.
Qed.

End WithParser.

(** *** Errors are left alone by the passes that only warn *)

Lemma for_each_errors {A : Type} (l : list A)
      (body : A -> ValidationResult -> ValidationResult) :
  (forall a r, errors (body a r) = errors r) ->
  forall r, errors (for_each l body r) = errors r.
Proof.
  intro H. induction l as [|a t IH]; intro r.
  - reflexivity.
  - unfold for_each in *. simpl. rewrite IH. apply H.
Qed.

Lemma consistency_errors (code target_language : string) (si : SourceInfo)
      (r : ValidationResult) :
  errors (_validate_consistency code target_language si r) = errors r.
Proof.
  unfold _validate_consistency. cbv zeta.
  destruct (si_classes si), (si_functions si);
    rewrite ?for_each_errors; try reflexivity;
    intros a r0; destruct (negb (contains a code)); reflexivity.
Qed.

(** *** The example texts of the properties *)

Definition unbalanced_main : string := "int main() { return 0".

Definition newline : string := String nl EmptyString.

(** Ten lines, three distinct values. *)
Definition ten_lines : string :=
  join newline ["nop"; "ret"; "hlt"; "nop"; "ret"; "hlt"; "nop"; "ret"; "hlt"; "nop"].

(** C1. For every candidate text, the empty string included, and each of the
    four target languages python, java, javascript and assembly, the
    confidence in the result returned by [validate] lies within [0.0, 1.0].
    For java, javascript and assembly a result is always returned; for python
    one is returned unless [ast.parse] itself raises something other than a
    syntax error, and then [validate] has no result at all. *)
Theorem validate_confidence_within_unit_interval :
  forall (ast_parse : string -> parse_result) (code : string)
         (source_info : option SourceInfo),
    match validate ast_parse code "python" source_info with
    | Returned r => in_unit (confidence r) = true
    | Raised e => ast_parse code = ParseRaises e
    end
    /\ (exists r, validate ast_parse code "java" source_info = Returned r
                  /\ in_unit (confidence r) = true)
    /\ (exists r, validate ast_parse code "javascript" source_info = Returned r
                  /\ in_unit (confidence r) = true)
    /\ (exists r, validate ast_parse code "assembly" source_info = Returned r
                  /\ in_unit (confidence r) = true).
Proof.
  intros ast_parse code source_info.
  assert (Hother : forall lang, lower lang <> "python" ->
            exists r, validate ast_parse code lang source_info = Returned r
                      /\ in_unit (confidence r) = true).
  { intros lang Hl.
    destruct (validate_returns ast_parse code lang source_info Hl) as [r Hr].
    exists r. split; [exact Hr|].
    pose proof (validate_in_unit ast_parse code lang source_info) as H.
    now rewrite Hr in H. }
  split; [|repeat split; apply Hother; vm_compute; discriminate].
  pose proof (validate_in_unit ast_parse code "python" source_info) as H.
  destruct (validate ast_parse code "python" source_info); [exact H | apply H].
Qed.

(** C2 as stated fails: for the one-line assembly text [nop] no error and no
    warning is recorded, the short-output step leaves 0.9, and the stated
    bonus would bring the confidence back to 1.0; [validate] returns 0.9. *)
Lemma validate_adds_no_bonus :
  exists r,
    validate accepting_parser "nop" "assembly" None = Returned r
    /\ errors r = [] /\ warnings r = []
    /\ confidence r = f0_9
    /\ claimed_confidence [] (is_short "nop") (is_repetitive "nop") = f1_0
    /\ eqb (confidence r) (claimed_confidence [] (is_short "nop") (is_repetitive "nop"))
       = false.
Proof.
  eexists. split; [vm_compute; reflexivity|].
  repeat split; vm_compute; reflexivity.
Qed.

Lemma ten_lines_repetitive (code : string) :
  List.length (non_empty_of (split_lines code)) = 10%nat ->
  distinct (non_empty_of (split_lines code)) = 3%nat ->
  blank code = false /\ is_repetitive code = true.
Proof.
  intros Hn Hd. split.
  - destruct (blank code) eqn:Eb; [|reflexivity].
    rewrite (blank_no_lines code Eb) in Hn. discriminate.
  - unfold is_repetitive. cbv zeta. rewrite Hn, Hd. vm_compute. reflexivity.
Qed.

(** C4, as amended. For every candidate text with 10 non-empty lines of
    which only 3 are distinct, [validate] records the repetition warning and
    returns a confidence of at least 0.7 (and at most 0.8): the repetition
    step is max(0.7, confidence - 0.1), a lower bound and not an upper one. *)
Theorem repetition_warning_and_floor :
  forall (ast_parse : string -> parse_result) (code target_language : string)
         (source_info : option SourceInfo),
    List.length (non_empty_of (split_lines code)) = 10%nat ->
    distinct (non_empty_of (split_lines code)) = 3%nat ->
    match validate ast_parse code target_language source_info with
    | Raised e => ast_parse code = ParseRaises e /\ lower target_language = "python"
    | Returned r =>
        In repetition_issue (warnings r)
        /\ leb f0_7 (confidence r) = true
        /\ leb (confidence r) f0_8 = true
    end.
Proof.
  intros ast_parse code target_language source_info Hn Hd.
  destruct (ten_lines_repetitive code Hn Hd) as [Hb Hr].
  pose proof (validate_shape ast_parse code target_language source_info) as H.
  destruct (validate ast_parse code target_language source_info) as [r|e]; [|exact H].
  destruct H as [evs ->]. rewrite Hb.
  rewrite assess_quality_warnings, assess_quality_confidence, Hr, replay_confidence.
  split.
  - apply in_or_app. right. left. reflexivity.
  - apply (reachable_repetition_bounds
             (penalise (map event_level evs) (confidence new_result)) (is_short code)).
    apply reachable_penalise. exact reachable_start.
Qed.

Lemma repetition_warning_and_floor_witness :
  List.length (non_empty_of (split_lines ten_lines)) = 10%nat
  /\ distinct (non_empty_of (split_lines ten_lines)) = 3%nat
  /\ match validate accepting_parser ten_lines "assembly" None with
     | Raised e => accepting_parser ten_lines = ParseRaises e /\ lower "assembly" = "python"
     | Returned r =>
         In repetition_issue (warnings r)
         /\ leb f0_7 (confidence r) = true
         /\ leb (confidence r) f0_8 = true
     end.
Proof.
  split; [vm_compute; reflexivity|].
  split; [vm_compute; reflexivity|].
  apply (repetition_warning_and_floor accepting_parser ten_lines "assembly" None);
    vm_compute; reflexivity.
Defined.

(** C4 as stated fails: on ten assembly lines with three distinct values the
    repetition warning is the only issue and the confidence is 0.8, which is
    not at most 0.7. *)
Lemma repetition_confidence_above_cap :
  exists r,
    validate accepting_parser ten_lines "assembly" None = Returned r
    /\ List.length (non_empty_of (split_lines ten_lines)) = 10%nat
    /\ distinct (non_empty_of (split_lines ten_lines)) = 3%nat
    /\ warnings r = [repetition_issue]
    /\ confidence r = f0_8
    /\ leb (confidence r) f0_7 = false.
Proof.
  eexists. split; [vm_compute; reflexivity|].
  repeat split; vm_compute; reflexivity.
Qed.

(** C7. For the input [int main() { return 0], which has one unmatched
    opening brace, validated against java or javascript, [validate] reports
    exactly one error, and its message gives the unmatched-brace count 1. *)
Theorem unmatched_brace_is_the_one_error :
  forall (ast_parse : string -> parse_result) (source_info : option SourceInfo),
    (exists r, validate ast_parse unbalanced_main "java" source_info = Returned r
               /\ errors r = [mkIssue "Unmatched braces: 1" None "error"])
    /\ (exists r, validate ast_parse unbalanced_main "javascript" source_info = Returned r
                  /\ errors r = [mkIssue "Unmatched braces: 1" None "error"]).
Proof.
  intros ast_parse source_info.
  split.
  - exists (_assess_quality unbalanced_main "java"
              (match source_info with
               | Some si =>
                   _validate_consistency unbalanced_main "java" si
                     (_validate_c_like unbalanced_main "java"
                        (_validate_basic_structure unbalanced_main "java" new_result))
               | None =>
                   _validate_c_like unbalanced_main "java"
                     (_validate_basic_structure unbalanced_main "java" new_result)
               end)).
    split.
    + destruct source_info; reflexivity.
    + rewrite assess_quality_errors.
      destruct source_info as [si|]; [rewrite consistency_errors|];
        vm_compute; reflexivity.
  - exists (_assess_quality unbalanced_main "javascript"
              (match source_info with
               | Some si =>
                   _validate_consistency unbalanced_main "javascript" si
                     (_validate_c_like unbalanced_main "javascript"
                        (_validate_basic_structure unbalanced_main "javascript" new_result))
               | None =>
                   _validate_c_like unbalanced_main "javascript"
                     (_validate_basic_structure unbalanced_main "javascript" new_result)
               end)).
    split.
    + destruct source_info; reflexivity.
    + rewrite assess_quality_errors.
      destruct source_info as [si|]; [rewrite consistency_errors|];
        vm_compute; reflexivity.
Qed.

End ValidatorFacts.

(** ** models/base_model.py and models/codegen_model.py *)

Module CodeGen.

Import PyStr Re Float.
Local Open Scope string_scope.

Definition NL : string := String nl EmptyString.
Definition DQ : string := String (ascii_of_nat 34) EmptyString.

(** The attributes of a [CodeGenModel] that its methods read or write.
    [fallback_mode] is [false] while the attribute does not exist. *)
Record CodeGenModel : Type := mkModel {
  model_name : string;
  last_confidence : float;
  is_initialized : bool;
  fallback_mode : bool
}.

(** [BaseTranslationModel.__init__]. *)
Definition base_init (name : string) : CodeGenModel := mkModel name f0_0 false false.

(** [BaseTranslationModel.set_confidence]. *)
Definition set_confidence (confidence : float) (self : CodeGenModel) : CodeGenModel :=
  mkModel (model_name self) (py_max f0_0 (py_min f1_0 confidence))
          (is_initialized self) (fallback_mode self).

Definition get_confidence (self : CodeGenModel) : float := last_confidence self.

Definition _init_fallback_mode (self : CodeGenModel) : CodeGenModel :=
  mkModel (model_name self) (last_confidence self) true true.

(** [CodeGenModel.__init__], given whether the transformers library could be
    imported. *)
Definition init (transformers_available : bool) (name : string) : CodeGenModel :=
  let self := base_init name in
  if negb transformers_available then _init_fallback_mode self else self.

Definition get_supported_languages : list string :=
  ["python"; "java"; "javascript"; "assembly"].

Definition in_list (s : string) (l : list string) : bool := existsb (String.eqb s) l.

(** [self.translation_prompts[target_language].format(code=code)]; [None] is
    the [KeyError] of an unknown language. *)
Definition translation_prompt (target_language code : string) : option string :=
  if String.eqb target_language "python"
  then Some ("Translate the following C++ code to Python:" ++ NL ++ NL ++ "C++:" ++ NL
             ++ code ++ NL ++ NL ++ "Python:" ++ NL)
  else if String.eqb target_language "java"
  then Some ("Translate the following C++ code to Java:" ++ NL ++ NL ++ "C++:" ++ NL
             ++ code ++ NL ++ NL ++ "Java:" ++ NL)
  else if String.eqb target_language "javascript"
  then Some ("Translate the following C++ code to JavaScript:" ++ NL ++ NL ++ "C++:" ++ NL
             ++ code ++ NL ++ NL ++ "JavaScript:" ++ NL)
  else if String.eqb target_language "assembly"
  then Some ("Convert the following C++ code to x86 assembly:" ++ NL ++ NL ++ "C++:" ++ NL
             ++ code ++ NL ++ NL ++ "Assembly:" ++ NL)
  else None.

(** *** Rule-based translation *)

Definition digit_or_dot : regex := Chr (fun x => isdigit x || Ascii.eqb x "."%char).

(** The declaration patterns: [int\s+(\w+)\s*=\s*(\d+);] and its float,
    double, char and bool variants. *)
Definition re_int_decl : regex :=
  seqs [lit "int"; plus sp; Group 1 (plus w); star sp; lit "="; star sp;
        Group 2 (plus d); lit ";"].
Definition re_float_decl : regex :=
  seqs [lit "float"; plus sp; Group 1 (plus w); star sp; lit "="; star sp;
        Group 2 (plus digit_or_dot); lit ";"].
Definition re_double_decl : regex :=
  seqs [lit "double"; plus sp; Group 1 (plus w); star sp; lit "="; star sp;
        Group 2 (plus digit_or_dot); lit ";"].
Definition re_char_decl : regex :=
  seqs [lit "char"; plus sp; Group 1 (plus w); star sp; lit "="; star sp;
        lit "'"; Group 2 (star (none_of "'")); lit "'"; lit ";"].
Definition re_bool_decl : regex :=
  seqs [lit "bool"; plus sp; Group 1 (plus w); star sp; lit "="; star sp;
        Group 2 (Alt (lit "true") (lit "false")); lit ";"].

(** [cout\s*<<\s*(.*?);] and [cin\s*>>\s*(\w+);]. *)
Definition re_cout : regex :=
  seqs [lit "cout"; star sp; lit "<<"; star sp; Group 1 (lazy_star dot); lit ";"].
Definition re_cin : regex :=
  seqs [lit "cin"; star sp; lit ">>"; star sp; Group 1 (plus w); lit ";"].

(** The template [\1 = \2]. *)
Definition tmpl_assign (m : mtch) : string := group_text m 1 ++ " = " ++ group_text m 2.

Definition _cpp_to_python_fallback (cpp_code : string) : string :=
  let code := Re.sub re_int_decl tmpl_assign cpp_code in
  let code := Re.sub re_float_decl tmpl_assign cpp_code in
  let code := Re.sub re_double_decl tmpl_assign cpp_code in
  let code := Re.sub re_char_decl
                  (fun m => group_text m 1 ++ " = " ++ DQ ++ group_text m 2 ++ DQ)
                  cpp_code in
  let code := Re.sub re_bool_decl tmpl_assign cpp_code in
  let code := Re.sub re_cout (fun m => "print(" ++ group_text m 1 ++ ")") code in
  let code := Re.sub re_cin
                  (fun m => group_text m 1 ++ " = input(" ++ DQ ++ "Enter "
                            ++ group_text m 1 ++ ": " ++ DQ ++ ")")
                  code in
  let code := Re.sub (lit ";") (fun _ => EmptyString) code in
  "# Fallback translation (limited functionality)" ++ NL ++ code.

(** [int\s+(\w+);]. *)
Definition re_int_bare : regex := seqs [lit "int"; plus sp; Group 1 (plus w); lit ";"].

Definition _cpp_to_java_fallback (src_code : string) : string :=
  let lines := split_lines (strip src_code) in
  let method_lines :=
    fold_left
      (fun method_lines ln =>
         if contains "int main()" ln || contains "void main()" ln
         then (method_lines ++ ["    public static void main(String[] args) {"])%list
         else if String.eqb (strip ln) "return 0;"
              then method_lines
              else (method_lines ++ [("    " ++ ln)%string])%list)
      lines [] in
  let method_code := join NL method_lines in
  let method_code := Re.sub re_int_bare (fun m => "int " ++ group_text m 1 ++ ";") method_code in
  "public class TranslatedProgram {" ++ NL ++ method_code ++ NL ++ "}".

(** [int\s+(const\s+)?(\w+)] and its float and double variants. *)
Definition re_js_decl (ty : string) : regex :=
  seqs [lit ty; plus sp; Alt (Group 1 (Seq (lit "const") (plus sp))) Eps; Group 2 (plus w)].

Definition _cpp_to_javascript_fallback (src_code : string) : string :=
  let code := src_code in
  let code := Re.sub (re_js_decl "int") (fun m => "let " ++ group_text m 2) code in
  let code := Re.sub (re_js_decl "float") (fun m => "let " ++ group_text m 2) code in
  let code := Re.sub (re_js_decl "double") (fun m => "let " ++ group_text m 2) code in
  let code := Re.sub re_cout (fun m => "console.log(" ++ group_text m 1 ++ ");") code in
  let code := Re.sub re_cin
                  (fun m => group_text m 1 ++ " = prompt(" ++ DQ ++ "Enter value:" ++ DQ ++ ");")
                  code in
  "// Fallback JavaScript translation" ++ NL ++ code.

Definition _cpp_to_assembly_fallback (src_code : string) : string :=
  "; Fallback assembly translation" ++ NL
  ++ "; Limited C++ to assembly conversion" ++ NL
  ++ "; Original C++ code:" ++ NL
  ++ "; " ++ src_code ++ NL
  ++ "section .text" ++ NL
  ++ "    global _start" ++ NL
  ++ "_start:" ++ NL
  ++ "    ; Minimal assembly stub" ++ NL
  ++ "    mov eax, 1      ; sys_exit" ++ NL
  ++ "    mov ebx, 0      ; exit code 0" ++ NL
  ++ "    int 0x80".

Definition _fallback_translate (self : CodeGenModel) (source_code target_language : string)
  : outcome string * CodeGenModel :=
  let self := set_confidence f0_6 self in
  if String.eqb target_language "python"
  then (Returned (_cpp_to_python_fallback source_code), self)
  else if String.eqb target_language "java"
  then (Returned (_cpp_to_java_fallback source_code), self)
  else if String.eqb target_language "javascript"
  then (Returned (_cpp_to_javascript_fallback source_code), self)
  else if String.eqb target_language "assembly"
  then (Returned (_cpp_to_assembly_fallback source_code), self)
  else (Raised (ValueError ("Unsupported target language: " ++ target_language)), self).

(** *** Extraction of the translation from the generated text *)

Definition _is_artifact_line (ln : string) : bool :=
  existsb (fun pattern => contains pattern (lower ln))
          ["you can also do this"; "translation:"; "here is the"; "the following";
           "generated code"; "this is the"; "class function"; "file = =tdout"].

Definition language_markers : list string :=
  ["c++:"; "java:"; "javascript:"; "python:"; "assembly:"].

Definition _clean_translated_code (code : string) : string :=
  let lines := split_lines code in
  let clean_lines :=
    fold_left
      (fun clean_lines ln =>
         let ln := strip ln in
         if _is_artifact_line ln then clean_lines
         else if existsb (fun lang => contains lang (lower ln)) language_markers
              then clean_lines
              else if truthy ln && negb (startswith "#" ln) && negb (startswith "//" ln)
                   then (clean_lines ++ [ln])%list
                   else clean_lines)
      lines [] in
  join NL clean_lines.

Definition prose_phrases : list string :=
  ["this is"; "here is"; "the following"; "you can"; "also do";
   "translation"; "convert"; "transform"].

Definition code_prefixes : list string :=
  ["def "; "int "; "float "; "char "; "bool "; "if "; "for "].

(** The class of the characters that make a line look like code. *)
Definition re_code_char : regex := one_of "=+-*/();{}[]".

Definition _extract_code_like_content (text : string) : string :=
  let lines := split_lines text in
  let code_lines :=
    fold_left
      (fun code_lines ln =>
         let ln := strip ln in
         if truthy ln && negb (existsb (fun phrase => contains phrase (lower ln)) prose_phrases)
         then if found re_code_char ln || existsb (fun p => startswith p ln) code_prefixes
              then (code_lines ++ [ln])%list
              else code_lines
         else code_lines)
      lines [] in
  join NL (firstn 50 code_lines).

(** An ASCII letter: what [[A-Z]] accepts under IGNORECASE. *)
Definition letter_i : regex := Chr (fun x => isupper_ascii x || islower_ascii x).

(** [<Label>:\s*\n(.*?)(?=\n\n[A-Z]|\Z)] under DOTALL and IGNORECASE. *)
Definition re_section (label : string) : regex :=
  seqs [lit_i label; star sp; chr nl; Group 1 (lazy_star dot_all);
        Look (Alt (seqs [chr nl; chr nl; letter_i]) EndZ)].

(** The entry of [language_patterns] for a listed language. For any other
    tag the source builds its pattern from the tag itself, read as the source
    text of a regular expression; that case is left out here ([None]).
    [_ml_translate] does not get there: a tag without a prompt raises KeyError
    before anything is extracted. *)
Definition language_patterns (target_language : string) : option (list regex) :=
  if String.eqb target_language "python"
  then Some [re_section "Python:"; re_section "python:"]
  else if String.eqb target_language "java"
  then Some [re_section "Java:"; re_section "java:"]
  else if String.eqb target_language "javascript"
  then Some [re_section "JavaScript:"; re_section "javascript:"]
  else if String.eqb target_language "assembly"
  then Some [re_section "Assembly:"; re_section "assembly:"]
  else None.

Fixpoint first_marker (markers : list string) (generated_text : string) : string :=
  match markers with
  | [] => generated_text
  | marker :: rest =>
      if contains marker generated_text
      then match split_once marker generated_text with
           | Some (_, after) => strip after
           | None => first_marker rest generated_text
           end
      else first_marker rest generated_text
  end.

Fixpoint first_section (patterns : list regex) (cleaned_text : string) : option string :=
  match patterns with
  | [] => None
  | pattern :: rest =>
      match search pattern cleaned_text with
      | Some m => Some (_clean_translated_code (strip (group_text m 1)))
      | None => first_section rest cleaned_text
      end
  end.

(** [_extract_translation] for a listed language; [None] for any other tag
    (see [language_patterns]). *)
Definition _extract_translation (generated_text target_language : string)
  : option string :=
  let prompt_end_markers :=
    ["C++:" ++ NL; NL ++ NL ++ capitalize target_language ++ ":";
     NL ++ NL ++ target_language ++ ":"] in
  let cleaned_text := first_marker prompt_end_markers generated_text in
  match language_patterns target_language with
  | Some patterns =>
      match first_section patterns cleaned_text with
      | Some translated => Some translated
      | None => Some (_extract_code_like_content cleaned_text)
      end
  | None => None
  end.

Definition artifact_indicators : list string :=
  ["file = =tdout"; "translation:"; "you can also do this"; "class function";
   "this is the"; "here is the"].

Definition _contains_obvious_artifacts (text : string) : bool :=
  existsb (fun indicator => contains indicator (lower text)) artifact_indicators.

(** The two tests of the trust gate on the extracted translation. *)
Definition too_short (translated : string) : bool :=
  negb (truthy translated) || (len (strip translated) <? 10)%Z.

Section Generation.

(** The generative engine: tokenizer, [model.generate] and decoding, from
    the prompt to the decoded text, or the exception it raises. *)
Variable generate : string -> outcome string.

Definition _ml_translate (self : CodeGenModel) (source_code target_language : string)
  : outcome string * CodeGenModel :=
  match translation_prompt target_language (strip source_code) with
  | None => _fallback_translate self source_code target_language
  | Some prompt =>
      match generate prompt with
      | Raised _ => _fallback_translate self source_code target_language
      | Returned generated_text =>
          match _extract_translation generated_text target_language with
          | Some translated =>
              if too_short translated
              then _fallback_translate self source_code target_language
              else if _contains_obvious_artifacts translated
                   then _fallback_translate self source_code target_language
                   else (Returned translated, set_confidence f0_85 self)
          | None =>
              (* not reached: a tag that has a prompt has patterns *)
              _fallback_translate self source_code target_language
          end
      end
  end.

Definition translate (self : CodeGenModel) (source_code target_language : string)
  : outcome string * CodeGenModel :=
  if negb (is_initialized self)
  then (Raised (RuntimeError "Model not initialized. Call load_model() first."), self)
  else
    let target_language := lower target_language in
    if negb (in_list target_language get_supported_languages)
    then (Raised (ValueError ("Unsupported target language: " ++ target_language)), self)
    else if fallback_mode self
         then _fallback_translate self source_code target_language
         else _ml_translate self source_code target_language.

End Generation.

End CodeGen.

(** ** Facts about the translation model *)

Module CodeGenFacts.

Import PyStr Re Float CodeGen.
Local Open Scope string_scope.

(** *** A phrase without a line break cannot straddle two joined lines *)

Fixpoint no_nl (s : string) : bool :=
  match s with
  | EmptyString => true
  | String c t => negb (Ascii.eqb c nl) && no_nl t
  end.

Lemma prefix_app_nl (p a b : string) :
  no_nl p = true -> prefix p (a ++ String nl b) = prefix p a.
Proof.
  revert p. induction a as [|c a IH]; intros p Hp.
  - destruct p as [|x p]; [reflexivity|].
    simpl in Hp. apply andb_prop in Hp. destruct Hp as [Hx _].
    simpl. destruct (ascii_dec x nl) as [E|_]; [|reflexivity].
    subst x. rewrite Ascii.eqb_refl in Hx. discriminate.
  - destruct p as [|x p]; [reflexivity|].
    simpl in Hp. apply andb_prop in Hp. destruct Hp as [_ Hp].
    simpl. destruct (ascii_dec x c); [now apply IH | reflexivity].
Qed.

Lemma contains_empty_text (p : string) : p <> EmptyString -> contains p EmptyString = false.
Proof. destruct p; [congruence | reflexivity]. Qed.

Lemma contains_app_nl (p a b : string) :
  no_nl p = true -> p <> EmptyString ->
  contains p (a ++ String nl b) = contains p a || contains p b.
Proof.
  intros Hp Hne. induction a as [|c a IH].
  - change (EmptyString ++ String nl b) with (String nl b).
    rewrite (contains_empty_text p Hne).
    change (contains p (String nl b))
      with (prefix p (EmptyString ++ String nl b) || contains p b).
    rewrite (prefix_app_nl p EmptyString b Hp).
    destruct p; [congruence | reflexivity].
  - change (contains p (String c a ++ String nl b))
      with (prefix p (String c a ++ String nl b) || contains p (a ++ String nl b)).
    rewrite (prefix_app_nl p (String c a) b Hp), IH.
    change (contains p (String c a)) with (prefix p (String c a) || contains p a).
    now rewrite orb_assoc.
Qed.

Lemma contains_join (p : string) (l : list string) :
  no_nl p = true -> p <> EmptyString ->
  Forall (fun x => contains p x = false) l -> contains p (join NL l) = false.
Proof.
  intros Hp Hne H. induction H as [|x t Hx Ht IH].
  - now apply contains_empty_text.
  - destruct t as [|y t].
    + exact Hx.
    + change (join NL (x :: y :: t)) with (x ++ String nl (join NL (y :: t))).
      rewrite (contains_app_nl p x _ Hp Hne), Hx, IH. reflexivity.
Qed.

Lemma lower_app (a b : string) : lower (a ++ b) = lower a ++ lower b.
Proof.
  induction a as [|c a IH]; [reflexivity|].
  change (lower (String c a ++ b)) with (String (lower_char c) (lower (a ++ b))).
  now rewrite IH.
Qed.

Lemma lower_join (l : list string) : lower (join NL l) = join NL (map lower l).
Proof.
  induction l as [|x t IH]; [reflexivity|].
  destruct t as [|y t]; [reflexivity|].
  change (join NL (x :: y :: t)) with (x ++ NL ++ join NL (y :: t)).
  change (join NL (map lower (x :: y :: t)))
    with (lower x ++ NL ++ join NL (map lower (y :: t))).
  rewrite !lower_app, IH. reflexivity.
Qed.

(** A text that contains a phrase contains each of its prefixes. *)
Lemma prefix_trans (q p s : string) :
  prefix q p = true -> prefix p s = true -> prefix q s = true.
Proof.
  revert q p. induction s as [|c s IH]; intros q p Hqp Hps.
  - destruct p; [|discriminate]. destruct q; [reflexivity | discriminate].
  - destruct q as [|x q]; [reflexivity|].
    destruct p as [|y p]; [discriminate|].
    simpl in *. destruct (ascii_dec x y) as [->|]; [|discriminate].
    destruct (ascii_dec y c); [|discriminate]. now apply (IH q p).
Qed.

Lemma contains_weaken (q p s : string) :
  prefix q p = true -> contains p s = true -> contains q s = true.
Proof.
  intro Hqp. induction s as [|c s IH]; intro H.
  - change (contains p EmptyString) with (prefix p EmptyString || false) in H.
    change (contains q EmptyString) with (prefix q EmptyString || false).
    rewrite orb_false_r in *. now apply (prefix_trans q p).
  - change (contains p (String c s)) with (prefix p (String c s) || contains p s) in H.
    change (contains q (String c s)) with (prefix q (String c s) || contains q s).
    apply orb_prop in H. destruct H as [H|H].
    + now rewrite (prefix_trans q p _ Hqp H).
    + rewrite (IH H). apply orb_true_r.
Qed.

(** *** Extraction removes every line with the phrase *)

Definition phrase : string := "here is the".

Definition free_of_phrase (ln : string) : Prop := contains phrase (lower ln) = false.

Lemma join_free_of_phrase (l : list string) :
  Forall free_of_phrase l -> free_of_phrase (join NL l).
Proof.
  intro H. unfold free_of_phrase. rewrite lower_join.
  apply contains_join; [reflexivity | discriminate |].
  induction H; constructor; assumption.
Qed.

Lemma existsb_false_In {A : Type} (f : A -> bool) (l : list A) (x : A) :
  existsb f l = false -> In x l -> f x = false.
Proof.
  intros H Hin. destruct (f x) eqn:E; [|reflexivity].
  assert (existsb f l = true) by (apply existsb_exists; now exists x). congruence.
Qed.

Lemma not_artifact_free (ln : string) : _is_artifact_line ln = false -> free_of_phrase ln.
Proof.
  intro H. unfold _is_artifact_line in H.
  apply (existsb_false_In _ _ phrase H). simpl. auto.
Qed.

Lemma not_prose_free (ln : string) :
  existsb (fun phrase => contains phrase (lower ln)) prose_phrases = false ->
  free_of_phrase ln.
Proof.
  intro H. unfold free_of_phrase.
  destruct (contains phrase (lower ln)) eqn:E; [|reflexivity].
  assert (Hw : contains "here is" (lower ln) = true)
    by (apply (contains_weaken "here is" phrase); [reflexivity | exact E]).
  pose proof (existsb_false_In _ _ "here is" H) as Hf. cbv beta in Hf.
  rewrite Hf in Hw; [discriminate | simpl; auto].
Qed.

Lemma fold_left_Forall {A B : Type} (P : B -> Prop) (f : list B -> A -> list B)
      (l : list A) :
  (forall acc a, Forall P acc -> Forall P (f acc a)) ->
  forall acc, Forall P acc -> Forall P (fold_left f l acc).
Proof.
  intro H. induction l as [|a t IH]; intros acc Hacc; simpl.
  - exact Hacc.
  - apply IH. now apply H.
Qed.

Lemma clean_free_of_phrase (code : string) : free_of_phrase (_clean_translated_code code).
Proof.
  unfold _clean_translated_code. cbv zeta. apply join_free_of_phrase.
  apply fold_left_Forall; [|constructor].
  intros acc ln Hacc.
  destruct (_is_artifact_line (strip ln)) eqn:Ea; [exact Hacc|].
  destruct (existsb _ language_markers); [exact Hacc|].
  destruct (truthy (strip ln) && negb (startswith "#" (strip ln))
            && negb (startswith "//" (strip ln))); [|exact Hacc].
  apply Forall_app. split; [exact Hacc|].
  constructor; [now apply not_artifact_free | constructor].
Qed.

Lemma Forall_firstn {A : Type} (P : A -> Prop) (n : nat) (l : list A) :
  Forall P l -> Forall P (firstn n l).
Proof.
  intro H. revert n. induction H as [|x t Hx Ht IH]; intro n.
  - rewrite firstn_nil. constructor.
  - destruct n; simpl; constructor; auto.
Qed.

Lemma code_like_free_of_phrase (text : string) :
  free_of_phrase (_extract_code_like_content text).
Proof.
  unfold _extract_code_like_content. cbv zeta. apply join_free_of_phrase.
  apply Forall_firstn.
  apply fold_left_Forall; [|constructor].
  intros acc ln Hacc.
  destruct (existsb (fun phrase => contains phrase (lower (strip ln))) prose_phrases) eqn:Ep;
    destruct (truthy (strip ln)); cbn [andb negb]; try exact Hacc.
  destruct (found re_code_char (strip ln) || existsb _ code_prefixes); [|exact Hacc].
  apply Forall_app. split; [exact Hacc|].
  constructor; [now apply not_prose_free | constructor].
Qed.

Lemma first_section_free (patterns : list regex) (text t : string) :
  first_section patterns text = Some t -> free_of_phrase t.
Proof.
  induction patterns as [|p rest IH]; simpl; [discriminate|].
  destruct (search p text).
  - intro H. injection H as <-. apply clean_free_of_phrase.
  - exact IH.
Qed.

(** Whatever the engine generated, the extracted translation has no line
    with the phrase. *)
Lemma extract_free_of_phrase (generated_text target_language translated : string) :
  _extract_translation generated_text target_language = Some translated ->
  free_of_phrase translated.
Proof.
  unfold _extract_translation. cbv zeta.
  destruct (language_patterns target_language) as [patterns|]; [|discriminate].
  destruct (first_section _ _) eqn:E; intro H; injection H as <-.
  - now apply (first_section_free _ _ _ E).
  - apply code_like_free_of_phrase.
Qed.

(** A tag that has a prompt has patterns: the extraction inside
    [_ml_translate] is always that of a listed language. *)
Lemma prompt_tags_have_patterns (target_language code prompt : string) :
  translation_prompt target_language code = Some prompt ->
  exists patterns, language_patterns target_language = Some patterns.
Proof.
  unfold translation_prompt, language_patterns.
  destruct (String.eqb target_language "python"); [eauto|].
  destruct (String.eqb target_language "java"); [eauto|].
  destruct (String.eqb target_language "javascript"); [eauto|].
  destruct (String.eqb target_language "assembly"); [eauto | discriminate].
Qed.

(** *** The trust gate *)

Definition example_source : string := "int x = 5;" ++ NL ++ "cout << x;".

Definition python_fallback_output : string :=
  "# Fallback translation (limited functionality)" ++ NL ++ "int x = 5" ++ NL ++ "print(x)".

(** A generated continuation that opens with the artifact phrase. *)
Definition chatty_continuation : string :=
  "Here is the translation" ++ NL ++ "x = 5" ++ NL ++ "print(x)" ++ NL ++ "total = x + 1".

(** An engine whose decoded text is the prompt followed by that continuation. *)
Definition chatty_engine (prompt : string) : outcome string :=
  Returned (prompt ++ chatty_continuation).

Definition ready_model : CodeGenModel := mkModel "codegen-350m-multi" f0_0 true false.

(** C3, evaluated on the code. The rule-based Python path turns
    [int x = 5;] followed by [cout << x;] into a comment line, [int x = 5] and
    [print(x)]: the terminators are gone and the output statement is a print
    call, but the declaration keeps its type, because each declaration rewrite
    starts again from the original text and only the last one (for bool) is
    kept. The int rule on its own does produce [x = 5]. *)
Theorem python_fallback_keeps_declared_type :
  _cpp_to_python_fallback example_source = python_fallback_output
  /\ Re.sub re_int_decl tmpl_assign example_source = "x = 5" ++ NL ++ "cout << x;"
  /\ contains ";" (_cpp_to_python_fallback example_source) = false
  /\ contains "int x" (_cpp_to_python_fallback example_source) = true.
Proof. repeat split; vm_compute; reflexivity. Qed.

(** The two ways [_ml_translate] can end. *)
Lemma ml_translate_cases :
  forall (generate : string -> outcome string) (self : CodeGenModel)
         (source_code target_language : string),
    _ml_translate generate self source_code target_language
    = _fallback_translate self source_code target_language
    \/ exists prompt generated_text translated,
        translation_prompt target_language (strip source_code) = Some prompt
        /\ generate prompt = Returned generated_text
        /\ _extract_translation generated_text target_language = Some translated
        /\ _ml_translate generate self source_code target_language
           = (Returned translated, set_confidence f0_85 self)
        /\ contains "here is the" (lower translated) = false
        /\ too_short translated = false
        /\ _contains_obvious_artifacts translated = false.
Proof.
  intros generate self source_code target_language.
  unfold _ml_translate.
  destruct (translation_prompt target_language (strip source_code)) as [prompt|];
    [|now left].
  destruct (generate prompt) as [generated_text|e] eqn:Eg; [|now left].
  destruct (_extract_translation generated_text target_language) as [translated|] eqn:Ex;
    [|now left].
  destruct (too_short translated) eqn:Es; [now left|].
  destruct (_contains_obvious_artifacts translated) eqn:Ea; [now left|].
  right. exists prompt, generated_text, translated.
  repeat split; try reflexivity; try assumption.
  exact (extract_free_of_phrase _ _ _ Ex).
Qed.

(** C6, as amended. For every generative-engine result, the translation
    returned is either the rule-based path's output for the same source and
    target language, or the text extracted from the result; in the latter case
    that text contains no [here is the] in any letter case (extraction removes
    every line containing it before the trust gate runs), passes the length
    test and contains no artifact indicator, and the confidence is 0.85. A
    result is rejected for what is left after extraction, not for a phrase in
    the decoded text. *)
Theorem ml_translate_gate :
  forall (generate : string -> outcome string) (self : CodeGenModel)
         (source_code target_language : string),
    _ml_translate generate self source_code target_language
    = _fallback_translate self source_code target_language
    \/ exists prompt generated_text translated,
        translation_prompt target_language (strip source_code) = Some prompt
        /\ generate prompt = Returned generated_text
        /\ _extract_translation generated_text target_language = Some translated
        /\ _ml_translate generate self source_code target_language
           = (Returned translated, set_confidence f0_85 self)
        /\ contains "here is the" (lower translated) = false
        /\ too_short translated = false
        /\ _contains_obvious_artifacts translated = false.
Proof. exact ml_translate_cases. Qed.

(** C6 as stated fails: the decoded text below contains the phrase, the
    result is accepted with confidence 0.85, and what is returned is the
    cleaned generative payload, not the rule-based output. *)
Lemma chatty_result_is_accepted :
  exists prompt,
    translation_prompt "python" (strip example_source) = Some prompt
    /\ contains "here is the translation" (lower (prompt ++ chatty_continuation)) = true
    /\ _ml_translate chatty_engine ready_model example_source "python"
       = (Returned ("x = 5" ++ NL ++ "print(x)" ++ NL ++ "total = x + 1"),
          set_confidence f0_85 ready_model)
    /\ fst (_fallback_translate ready_model example_source "python")
       = Returned python_fallback_output
    /\ String.eqb ("x = 5" ++ NL ++ "print(x)" ++ NL ++ "total = x + 1")
                  python_fallback_output = false.
Proof.
  eexists. split; [vm_compute; reflexivity|].
  repeat split; vm_compute; reflexivity.
Qed.

(** *** The stored confidence *)


Lemma ltb_leb (a b : float) : ltb a b = true -> leb a b = true.
Proof.
  unfold ltb, leb, SFltb, SFleb. destruct (SFcompare a b) as [[| |]|]; congruence.
Qed.



(** The operations that change a model. *)
Inductive operation : Type :=
| OpSetConfidence (confidence : float)
| OpTranslate (source_code target_language : string)
| OpInitFallback.

Definition step (generate : string -> outcome string) (o : operation)
           (self : CodeGenModel) : CodeGenModel :=
  match o with
  | OpSetConfidence c => set_confidence c self
  | OpTranslate source_code target_language =>
      snd (translate generate self source_code target_language)
  | OpInitFallback => _init_fallback_mode self
  end.

Definition run (generate : string -> outcome string) (ops : list operation)
           (self : CodeGenModel) : CodeGenModel :=
  fold_left (fun self o => step generate o self) ops self.








(** *** Unsupported target languages *)

(** On an initialized model, a tag whose lower-cased form is not a supported
    language makes [translate] raise before either translation path runs:
    the model is returned unchanged. *)
Lemma translate_rejects (generate : string -> outcome string) (self : CodeGenModel)
      (source_code target_language : string) :
  is_initialized self = true ->
  in_list (lower target_language) get_supported_languages = false ->
  translate generate self source_code target_language
  = (Raised (ValueError ("Unsupported target language: " ++ lower target_language)), self).
Proof. intros Hi Hl. unfold translate. now rewrite Hi, Hl. Qed.

End CodeGenFacts.

(** ** preprocessing/tokenizer.py *)

Module Tokenizer.

Import PyStr Re.
Local Open Scope string_scope.

Definition NL : string := String nl EmptyString.
Definition DQ : string := String (ascii_of_nat 34) EmptyString.
Definition dq : ascii := ascii_of_nat 34.
Definition bs : ascii := ascii_of_nat 92.

(** A token descriptor of the upstream lexer, read through its optional
    keys 'line' and 'type'. *)
Record Token : Type := mkToken { tok_line : option Z; tok_type : option string }.

(** The comment grammar of C++, Java and JavaScript, under MULTILINE and
    DOTALL: two slashes and the shortest text up to the end of a line, or the
    shortest block between a slash-star and a star-slash. *)
Definition re_c_comment : regex :=
  Alt (seqs [lit "//"; lazy_star dot_all; Eol true])
      (seqs [lit "/*"; lazy_star dot_all; lit "*/"]).

(** The comment grammar of Python: a hash and the shortest text up to the end
    of a line, or a block between triple quotes of either kind. *)
Definition re_py_comment : regex :=
  alts [seqs [lit "#"; lazy_star dot_all; Eol true];
        seqs [lit (DQ ++ DQ ++ DQ); lazy_star dot_all; lit (DQ ++ DQ ++ DQ)];
        seqs [lit "'''"; lazy_star dot_all; lit "'''"]].

(** [self.comment_patterns.get(language)]. *)
Definition comment_patterns (language : string) : option regex :=
  if String.eqb language "cpp" then Some re_c_comment
  else if String.eqb language "python" then Some re_py_comment
  else if String.eqb language "java" then Some re_c_comment
  else if String.eqb language "javascript" then Some re_c_comment
  else None.

(** The string patterns: a quote, then any run of characters other than the
    quote and the backslash or of backslash-escaped characters, then the
    quote; first for the double quote, then for the single quote. *)
Definition re_quoted (q : ascii) : regex :=
  seqs [chr q;
        star (Group 1 (Alt (Chr (fun x => negb (Ascii.eqb x q) && negb (Ascii.eqb x bs)))
                           (Seq (chr bs) dot)));
        chr q].

Definition string_patterns : list regex := [re_quoted dq; re_quoted "'"%char].

Definition _normalize_line_endings (code : string) : string :=
  replace (String cr EmptyString) NL (replace (String cr NL) NL code).

(** [\n\s*\n\s*\n+]. *)
Definition re_blank_lines : regex :=
  seqs [chr nl; star sp; chr nl; star sp; plus (chr nl)].

Definition _normalize_whitespace (code : string) : string :=
  let code := replace (String tab EmptyString) "    " code in
  let code := Re.sub re_blank_lines (fun _ => NL ++ NL) code in
  let code := strip code in
  code.

Definition comment_keywords : list string := ["TODO"; "FIXME"; "IMPORTANT"; "NOTE"].

Definition comment_replacer (m : mtch) : string :=
  let comment := m_text m in
  if existsb (fun keyword => contains keyword (upper comment)) comment_keywords
  then comment
  else " /* comment */ ".

Definition _process_comments (code language : string) : string :=
  match comment_patterns language with
  | None => code
  | Some comment_regex => Re.sub comment_regex comment_replacer code
  end.

Definition _normalize_strings (code : string) : string :=
  fold_left (fun code pattern => Re.sub pattern (fun _ => "<STRING>") code)
            string_patterns code.

Definition token_line (t : Token) : Z :=
  match tok_line t with Some n => n | None => 1%Z end.

Definition token_type (t : Token) : string :=
  match tok_type t with Some s => s | None => "UNKNOWN" end.

(** [tokens_by_line[i]]: the tokens of line [i], in the order given. *)
Definition tokens_of_line (tokens : list Token) (i : Z) : list Token :=
  filter (fun t => Z.eqb (token_line t) i) tokens.

Fixpoint enumerate_from {A : Type} (i : Z) (l : list A) : list (Z * A) :=
  match l with
  | [] => []
  | a :: t => (i, a) :: enumerate_from (i + 1) t
  end.

Definition _enhance_with_tokens (code : string) (tokens : list Token) : string :=
  let lines := split_lines code in
  let enhanced_lines :=
    fold_left
      (fun (enhanced_lines : list string) (il : Z * string) =>
         let '(i, ln) := il in
         let enhanced_lines := (enhanced_lines ++ [ln])%list in
         match tokens_of_line tokens i with
         | [] => enhanced_lines
         | line_tokens =>
             let token_info := join " " (map token_type (firstn 5 line_tokens)) in
             if truthy token_info
             then (enhanced_lines ++ [("// Tokens: " ++ token_info)%string])%list
             else enhanced_lines
         end)
      (enumerate_from 1 lines) [] in
  join NL enhanced_lines.

(** The five marker patterns: a function head (two words, a parenthesized
    list without a closing parenthesis inside, an opening brace), a closing
    brace with the whitespace after it when a line break or the end follows,
    a class head, a struct head, and an include line. *)
Definition re_function_head : regex :=
  Group 1 (seqs [plus w; plus sp; plus w; star sp; lit "("; star (none_of ")"); lit ")";
                 star sp; lit "{"]).
Definition re_closing_brace : regex :=
  seqs [Group 1 (lit "}"); star sp; Look (Alt (chr nl) (Eol false))].
Definition re_class_head : regex :=
  Group 1 (seqs [lit "class"; plus sp; plus w; star sp; lit "{"]).
Definition re_struct_head : regex :=
  Group 1 (seqs [lit "struct"; plus sp; plus w; star sp; lit "{"]).
Definition re_include : regex :=
  seqs [lit "#include"; star sp; one_of (String "<"%char DQ);
        star (none_of (String ">"%char DQ)); one_of (String ">"%char DQ)].

Definition _add_structural_markers (code : string) : string :=
  let code := Re.sub re_function_head
                     (fun m => NL ++ "// FUNCTION_START" ++ NL ++ group_text m 1) code in
  let code := Re.sub re_closing_brace
                     (fun m => group_text m 1 ++ NL ++ "// FUNCTION_END" ++ NL) code in
  let code := Re.sub re_class_head
                     (fun m => NL ++ "// CLASS_START" ++ NL ++ group_text m 1) code in
  let code := Re.sub re_struct_head
                     (fun m => NL ++ "// STRUCT_START" ++ NL ++ group_text m 1) code in
  let code := Re.sub re_include
                     (fun m => "// INCLUDE" ++ NL ++ group_text m 0) code in
  code.

Definition tokens_truthy (tokens : option (list Token)) : bool :=
  match tokens with
  | Some (_ :: _) => true
  | _ => false
  end.

(** [preprocess(source_code, tokens, source_language)]. *)
Definition preprocess (source_code : string) (tokens : option (list Token))
           (source_language : string) : string :=
  if negb (truthy source_code) || negb (truthy (strip source_code))
  then EmptyString
  else
    let code := _normalize_line_endings source_code in
    let code := _normalize_whitespace code in
    let code := _process_comments code source_language in
    let code := _normalize_strings code in
    let code :=
      match tokens with
      | Some (t :: ts) => _enhance_with_tokens code (t :: ts)
      | _ => code
      end in
    let code := _add_structural_markers code in
    let code := if negb (endswith NL code) then code ++ NL else code in
    code.

End Tokenizer.

(** ** app.py *)

Module App.

Import PyStr Float.
Local Open Scope string_scope.

(** The value under the key 'tokens' of a request: a list, or something else. *)
Inductive tokens_field : Type :=
| TokensList (l : list Tokenizer.Token)
| TokensOther.

(** The JSON body of a request, read through the keys the handler uses;
    [rd_other] says whether any other key is present. *)
Record RequestData : Type := mkRequest {
  rd_source_code : option string;
  rd_target_language : option string;
  rd_tokens : option tokens_field;
  rd_other : bool
}.

(** Truth value of the body: a dict with at least one key. *)
Definition data_truthy (data : RequestData) : bool :=
  match rd_source_code data, rd_target_language data, rd_tokens data with
  | None, None, None => rd_other data
  | _, _, _ => true
  end.

Definition valid_languages : list string := ["python"; "java"; "javascript"; "assembly"].

Definition in_list (s : string) (l : list string) : bool := existsb (String.eqb s) l.

Definition missing_or_blank (field : option string) : bool :=
  match field with
  | None => true
  | Some s => negb (truthy (strip s))
  end.

Definition unsupported_message : string :=
  "target_language must be one of: " ++ join ", " valid_languages.

Definition validate_translation_request (data : RequestData) : list string :=
  let errors : list string := [] in
  if negb (data_truthy data)
  then (errors ++ ["Request body is empty"])%list
  else
    let errors :=
      if missing_or_blank (rd_source_code data)
      then (errors ++ ["source_code is required and cannot be empty"])%list
      else errors in
    let errors :=
      match rd_target_language data with
      | Some tag =>
          if negb (truthy (strip tag))
          then (errors ++ ["target_language is required and cannot be empty"])%list
          else if negb (in_list (lower tag) valid_languages)
               then (errors ++ [unsupported_message])%list
               else errors
      | None => (errors ++ ["target_language is required and cannot be empty"])%list
      end in
    let errors :=
      match rd_tokens data with
      | Some TokensOther => (errors ++ ["tokens must be a list if provided"])%list
      | _ => errors
      end in
    errors.

(** The components a request can reach, in the order the handler calls them. *)
Inductive component : Type := Normalizer | Translator | Formatter | Validator.

(** The JSON response and its HTTP status. *)
Record Response : Type := mkResponse {
  status : Z;
  success : bool;
  error : option string;
  details : option string;
  translated_code : option string;
  confidence : option float;
  model_used : option string;
  validation : option Validator.ValidationResult
}.

(** [format_error_response]: [details] is left out when it is empty. *)
Definition format_error_response (message : string) (details : option string)
           (status_code : Z) : Response :=
  mkResponse status_code false (Some message)
             (match details with
              | Some d => if truthy d then Some d else None
              | None => None
              end)
             None None None None.

(** The module-level state: the translator (when initialized), whether the
    tokenizer exists, and the debug flag of the application. *)
Record AppState : Type := mkApp {
  translator : option CodeGen.CodeGenModel;
  tokenizer_ready : bool;
  debug : bool
}.

Definition exn_text (e : exn) : string :=
  match e with ValueError m | RuntimeError m | JSONDecodeError m | OtherError m => m end.

(** The response of the outer exception handler. *)
Definition internal_error (app : AppState) (e : exn) : Response :=
  format_error_response
    (if debug app then "Translation error: " ++ exn_text e
     else "Internal server error during translation")
    None 500.

(** The two [except] clauses of [translate_code], in their order: a
    json.JSONDecodeError is answered first, anything else after it. *)
Definition handle_exception (app : AppState) (e : exn) : Response :=
  match e with
  | JSONDecodeError _ => format_error_response "Invalid JSON format" None 400
  | _ => internal_error app e
  end.

Section Handler.

(** The collaborators outside the sources at hand: the generative engine,
    the parser used by the validator, and [CodeFormatter.format_code] of
    postprocessing/formatter.py. *)
Variable generate : string -> outcome string.
Variable ast_parse : string -> Validator.parse_result.
Variable format_code : string -> string -> outcome string.

(** [translate_code], given what [request.get_json()] does: it raises (no
    JSON content type, or a body that cannot be parsed), or it returns the
    parsed value, a JSON object or ([None]) a value that is not an object and
    is falsy: null, false, 0, an empty string or an empty list. Everything
    happens inside the [try], so whatever is raised, by [get_json] or by a
    component, goes through the two [except] clauses. Besides the response
    the function returns the new state and the components that ran, in
    order. A parsed value that is truthy and not an object, and fields that
    are not strings, are outside this model. *)
Definition translate_code (app : AppState) (get_json : outcome (option RequestData))
  : Response * AppState * list component :=
  match get_json with
  | Raised e => (handle_exception app e, app, [])
  | Returned None => (format_error_response "Invalid JSON request" None 400, app, [])
  | Returned (Some data) =>
      if negb (data_truthy data)
      then (format_error_response "Invalid JSON request" None 400, app, [])
      else
        match validate_translation_request data with
        | e :: es =>
            (format_error_response "Validation failed" (Some (join "; " (e :: es))) 400,
             app, [])
        | [] =>
            match rd_source_code data, rd_target_language data with
            | Some source_code, Some tag =>
                let target_language := lower tag in
                let tokens :=
                  match rd_tokens data with
                  | Some (TokensList l) => l
                  | _ => []
                  end in
                match translator app with
                | Some model =>
                    if negb (tokenizer_ready app)
                    then (format_error_response "ML models not initialized"
                            (Some "Server may still be starting up. Please try again in a moment.")
                            503, app, [])
                    else
                      let processed_input :=
                        Tokenizer.preprocess source_code (Some tokens) "cpp" in
                      match CodeGen.translate generate model processed_input target_language with
                      | (Raised e, model') =>
                          (handle_exception app e,
                           mkApp (Some model') (tokenizer_ready app) (debug app),
                           [Normalizer; Translator])
                      | (Returned translated, model') =>
                          let app' := mkApp (Some model') (tokenizer_ready app) (debug app) in
                          if negb (truthy translated)
                          then (format_error_response "Translation failed"
                                  (Some "ML model returned empty result") 500,
                                app', [Normalizer; Translator])
                          else
                            match format_code translated target_language with
                            | Raised e =>
                                (handle_exception app e, app',
                                 [Normalizer; Translator; Formatter])
                            | Returned formatted_output =>
                                match Validator.validate ast_parse formatted_output
                                                         target_language None with
                                | Raised e =>
                                    (handle_exception app e, app',
                                     [Normalizer; Translator; Formatter; Validator])
                                | Returned validation_result =>
                                    (mkResponse 200 true None None
                                                (Some formatted_output)
                                                (Some (CodeGen.last_confidence model'))
                                                (Some (CodeGen.model_name model'))
                                                (Some validation_result),
                                     app',
                                     [Normalizer; Translator; Formatter; Validator])
                                end
                            end
                      end
                | None =>
                    (format_error_response "ML models not initialized"
                       (Some "Server may still be starting up. Please try again in a moment.")
                       503, app, [])
                end
            | _, _ =>
                (handle_exception app (OtherError "KeyError"), app, [])
            end
        end
  end.

End Handler.

End App.

(** ** preprocessing/ast_processor.py *)

Module AstProcessor.

Import PyStr Re.
Local Open Scope string_scope.

(** The dicts of the structural model, each read through its keys; a key a
    language branch does not write is [None]. Entries that are the same
    constant wherever they are written are left out ('properties', 'variables'
    and 'structure' are empty lists, 'is_abstract' is False, 'default' is
    None, 'type' of a JavaScript function is 'function'). *)
Record ParamInfo : Type := mkParam {
  p_name : string;
  p_type : option string
}.

Record FunctionInfo : Type := mkFunction {
  f_name : string;
  f_line : Z;
  f_parameters : list ParamInfo;
  f_return_type : option string;
  f_is_method : option bool;
  f_class_name : option string;
  f_complexity : option Z;
  f_is_async : option bool
}.

Record ClassInfo : Type := mkClass {
  c_name : string;
  c_line : Z;
  c_methods : list FunctionInfo;
  c_inheritance : list string
}.

Record ImportInfo : Type := mkImport {
  i_name : string;
  i_alias : option string;
  i_type : option string;
  i_line : option Z;
  i_from_module : option string
}.

Record ControlFlowSite : Type := mkSite { s_type : string; s_line : Z }.

Record ComplexityMetrics : Type := mkMetrics {
  cyclomatic_complexity : Z;
  function_count : Z;
  class_count : Z;
  nesting_depth : Z;
  parameter_count : Z;
  control_flow_count : Z
}.

(** The structural model; [warnings] is [None] when the dict has no such
    key (the exact-parse branch does not write one). *)
Record Info : Type := mkInfo {
  language : string;
  functions : list FunctionInfo;
  classes : list ClassInfo;
  imports : list ImportInfo;
  control_flow : list ControlFlowSite;
  complexity_metrics : option ComplexityMetrics;
  warnings : option (list string)
}.

Definition cpp_keywords : list string :=
  ["int"; "float"; "double"; "char"; "bool"; "void"; "if"; "else"; "for"; "while";
   "do"; "switch"; "case"; "break"; "continue"; "return"; "class"; "struct"; "public";
   "private"; "protected"; "static"; "const"; "virtual"; "override"].

Definition in_list (s : string) (l : list string) : bool := existsb (String.eqb s) l.

Definition zlen {A : Type} (l : list A) : Z := Z.of_nat (List.length l).

Definition _calculate_complexity_metrics (info : Info) : ComplexityMetrics :=
  let function_count := zlen (functions info) in
  let class_count := zlen (classes info) in
  let control_flow_count := zlen (control_flow info) in
  let parameter_count :=
    fold_left (fun n func => (n + zlen (f_parameters func))%Z) (functions info) 0%Z in
  mkMetrics (1 + control_flow_count + (function_count + class_count))
            function_count class_count 0 parameter_count control_flow_count.

Definition with_metrics (info : Info) : Info :=
  mkInfo (language info) (functions info) (classes info) (imports info)
         (control_flow info) (Some (_calculate_complexity_metrics info)) (warnings info).

(** The class pattern (the word class or struct, whitespace, a name), the
    function pattern (any number of words each followed by whitespace, a
    name, a parenthesized list without a closing parenthesis inside, then an
    opening brace or a semicolon) and the pattern of a parameter list. *)
Definition re_class : regex :=
  seqs [Group 1 (Alt (lit "class") (lit "struct")); plus sp; Group 2 (plus w)].
Definition re_func : regex :=
  seqs [star (Group 1 (Seq (plus w) (plus sp))); Group 2 (plus w); star sp;
        lit "("; star (none_of ")"); lit ")"; star sp;
        Group 3 (Alt (lit "{") (lit ";"))].
Definition re_params : regex :=
  seqs [lit "("; Group 1 (star (none_of ")")); lit ")"].

(** The parameters of a function, from the text between its parentheses. *)
Definition parse_params (param_text : string) : list ParamInfo :=
  fold_left
    (fun acc param =>
       let param := strip param in
       if truthy param
       then let parts := split_ws param in
            (acc ++ [mkParam (last parts EmptyString)
                                 (Some (if (1 <? List.length parts)%nat
                                        then join " " (removelast parts)
                                        else "auto"))])%list
       else acc)
    (split_char ","%char param_text) [].

(** The state of the scan of [_parse_cpp_java_like]. [current_class] is the
    name of the open class; [current_function] is only ever assigned, so it is
    not part of the state. *)
Record scan : Type := mkScan {
  sc_info : Info;
  in_function : bool;
  in_class : bool;
  brace_level : Z;
  current_class : option string
}.

Definition add_import (i : ImportInfo) (info : Info) : Info :=
  mkInfo (language info) (functions info) (classes info) (imports info ++ [i])
         (control_flow info) (complexity_metrics info) (warnings info).
Definition add_class (c : ClassInfo) (info : Info) : Info :=
  mkInfo (language info) (functions info) (classes info ++ [c]) (imports info)
         (control_flow info) (complexity_metrics info) (warnings info).
Definition add_function (f : FunctionInfo) (info : Info) : Info :=
  mkInfo (language info) (functions info ++ [f]) (classes info) (imports info)
         (control_flow info) (complexity_metrics info) (warnings info).

Definition cpp_java_line (lang : string) (il : Z * string) (st : scan) : scan :=
  let '(i, raw) := il in
  let ln := strip raw in
  if negb (truthy ln) || startswith "//" ln || startswith "/*" ln then st
  else
    let info := sc_info st in
    let info :=
      if String.eqb lang "cpp" && startswith "#include" ln
      then add_import (mkImport ln None (Some "include") (Some i) None) info
      else info in
    let '(info, in_class, current_class) :=
      match search re_class ln with
      | Some class_match =>
          if negb (in_class st)
          then (add_class (mkClass (group_text class_match 2) i [] []) info,
                true, Some (group_text class_match 2))
          else (info, in_class st, current_class st)
      | None => (info, in_class st, current_class st)
      end in
    let '(info, in_function) :=
      match search re_func ln with
      | Some func_match =>
          if negb (in_function st)
          then
            let func_name := group_text func_match 2 in
            if negb (in_list func_name cpp_keywords) || in_list func_name ["operator"]
            then
              let parameters :=
                match search re_params ln with
                | Some param_str => parse_params (group_text param_str 1)
                | None => []
                end in
              let current_function :=
                mkFunction func_name i parameters
                  (Some (match group func_match 1 with
                         | Some g => if truthy g then strip g else "void"
                         | None => "void"
                         end))
                  (Some (match current_class with Some _ => true | None => false end))
                  current_class None None in
              (add_function current_function info, true)
            else (info, in_function st)
          else (info, in_function st)
      | None => (info, in_function st)
      end in
    let brace_level := (brace_level st + (count_char "{" ln - count_char "}" ln))%Z in
    let '(in_class, current_class) :=
      if in_class && (brace_level =? 0)%Z then (false, None) else (in_class, current_class) in
    let in_function :=
      if in_function && (brace_level =? 0)%Z then false else in_function in
    mkScan info in_function in_class brace_level current_class.

Fixpoint enumerate_from {A : Type} (i : Z) (l : list A) : list (Z * A) :=
  match l with
  | [] => []
  | a :: t => (i, a) :: enumerate_from (i + 1) t
  end.

Definition empty_info (lang : string) (w : option (list string)) : Info :=
  mkInfo lang [] [] [] [] None w.

(** The scan itself, with its final state. *)
Definition cpp_java_scan (lines : list string) (lang : string) : scan :=
  fold_left (fun st il => cpp_java_line lang il st) (enumerate_from 1 lines)
            (mkScan (empty_info lang (Some [])) false false 0 None).

Definition _parse_cpp_java_like (code : string) (lines : list string) (lang : string)
  : Info := sc_info (cpp_java_scan lines lang).

(** The four function patterns and the class pattern of [_parse_javascript]. *)
Definition js_func_patterns : list regex :=
  [ seqs [lit "function"; plus sp; Group 1 (plus w); star sp; lit "("];
    seqs [lit "const"; plus sp; Group 1 (plus w); star sp; lit "="; star sp;
          lit "("; star (none_of ")"); lit ")"; star sp; lit "=>"];
    seqs [Group 1 (plus w); star sp; lit ":"; star sp; lit "function"; star sp; lit "("];
    seqs [lit "async"; plus sp; lit "function"; plus sp; Group 1 (plus w); star sp; lit "("] ].
Definition re_js_class : regex := seqs [lit "class"; plus sp; Group 1 (plus w)].

Fixpoint first_match (patterns : list regex) (ln : string) : option mtch :=
  match patterns with
  | [] => None
  | p :: rest =>
      match search p ln with
      | Some m => Some m
      | None => first_match rest ln
      end
  end.

Definition javascript_line (il : Z * string) (info : Info) : Info :=
  let '(i, raw) := il in
  let ln := strip raw in
  if negb (truthy ln) || startswith "//" ln || startswith "/*" ln then info
  else
    let info :=
      if startswith "import " ln || (startswith "const " ln && contains "require" ln)
      then add_import (mkImport ln None (Some "import") (Some i) None) info
      else info in
    let info :=
      match first_match js_func_patterns ln with
      | Some m =>
          add_function (mkFunction (group_text m 1) i [] None None None None
                                   (Some (contains "async" ln))) info
      | None => info
      end in
    match search re_js_class ln with
    | Some class_match => add_class (mkClass (group_text class_match 1) i [] []) info
    | None => info
    end.

Definition _parse_javascript (code : string) (lines : list string) : Info :=
  fold_left (fun info il => javascript_line il info) (enumerate_from 1 lines)
            (empty_info "javascript" (Some [])).

Definition _parse_generic (code lang : string) : Info :=
  let info :=
    empty_info lang (Some ["Using simplified parser - results may be limited"]) in
  let lines := split_lines code in
  let info :=
    if in_list lang ["cpp"; "java"] then _parse_cpp_java_like code lines lang
    else if String.eqb lang "javascript" then _parse_javascript code lines
         else info in
  with_metrics info.

(** *** The exact-parse branch *)

(** A syntax tree of the [ast] module, as far as the processor looks at it:
    the node kinds it tells apart, the attributes it reads, and the child
    nodes in the order [ast.iter_child_nodes] yields them (for a class, the
    children before its body, the body, and the children after it). *)
#[local] Unset Elimination Schemes.

Inductive py_node : Type :=
| FunctionDef (name : string) (lineno : Z) (arg_names : list string)
              (children : list py_node)
| ClassDef (name : string) (lineno : Z) (base_ids : list (option string))
           (before body after : list py_node)
| Import (names : list (string * option string))
| ImportFrom (module : option string) (names : list (string * option string))
| ControlNode (type_name : string) (lineno : Z) (children : list py_node)
| OtherNode (children : list py_node).

#[local] Set Elimination Schemes.

Definition child_nodes (n : py_node) : list py_node :=
  match n with
  | FunctionDef _ _ _ cs => cs
  | ClassDef _ _ _ b1 b2 b3 => b1 ++ b2 ++ b3
  | Import _ => []
  | ImportFrom _ _ => []
  | ControlNode _ _ cs => cs
  | OtherNode cs => cs
  end.

Fixpoint height (n : py_node) : nat :=
  let list_height := fix lh (l : list py_node) : nat :=
    match l with
    | [] => O
    | c :: t => Nat.max (height c) (lh t)
    end in
  match n with
  | FunctionDef _ _ _ cs => S (list_height cs)
  | ClassDef _ _ _ b1 b2 b3 =>
      S (Nat.max (list_height b1) (Nat.max (list_height b2) (list_height b3)))
  | Import _ => 1%nat
  | ImportFrom _ _ => 1%nat
  | ControlNode _ _ cs => S (list_height cs)
  | OtherNode cs => S (list_height cs)
  end.

(** [ast.walk]: breadth first, level by level. *)
Fixpoint walk_levels (fuel : nat) (level : list py_node) : list py_node :=
  match fuel with
  | O => []
  | S f =>
      match level with
      | [] => []
      | _ => level ++ walk_levels f (flat_map child_nodes level)
      end
  end.

Definition walk (tree : py_node) : list py_node := walk_levels (height tree) [tree].

Definition python_function (name : string) (lineno : Z) (arg_names : list string)
  : FunctionInfo :=
  mkFunction name lineno (map (fun a => mkParam a None) arg_names)
             None (Some false) None (Some 1%Z) None.

Definition python_class (name : string) (lineno : Z) (base_ids : list (option string))
           (body : list py_node) : ClassInfo :=
  mkClass name lineno
    (flat_map (fun item =>
                 match item with
                 | FunctionDef n l a _ =>
                     [mkFunction n l (map (fun x => mkParam x None) a)
                                 None (Some true) (Some name) (Some 1%Z) None]
                 | _ => []
                 end) body)
    (flat_map (fun b => match b with Some id => [id] | None => [] end) base_ids).

Definition _extract_python_ast_info (tree : py_node) : Info :=
  let info :=
    fold_left
      (fun info node =>
         match node with
         | FunctionDef n l a _ => add_function (python_function n l a) info
         | ClassDef n l bases _ body _ => add_class (python_class n l bases body) info
         | Import names =>
             fold_left (fun info alias =>
                          add_import (mkImport (fst alias) (snd alias) None None None) info)
                       names info
         | ImportFrom module names =>
             let module := match module with Some m => m | None => EmptyString end in
             fold_left (fun info alias =>
                          add_import (mkImport (module ++ "." ++ fst alias) (snd alias)
                                               None None (Some module)) info)
                       names info
         | ControlNode t l _ =>
             mkInfo (language info) (functions info) (classes info) (imports info)
                    (control_flow info ++ [mkSite t l]) (complexity_metrics info)
                    (warnings info)
         | OtherNode _ => info
         end)
      (walk tree) (empty_info "python" None) in
  with_metrics info.

(** What [ast.parse(code)] does here: a tree, a [SyntaxError], or another
    exception. *)
Inductive py_parse : Type :=
| PyTree (tree : py_node)
| PySyntaxError
| PyRaises (e : exn).

Section Parse.

Variable ast_parse : string -> py_parse.

Definition _parse_python (code : string) : outcome Info :=
  match ast_parse code with
  | PyTree tree => Returned (_extract_python_ast_info tree)
  | PySyntaxError => Returned (_parse_generic code "python")
  | PyRaises e => Raised e
  end.

Definition parse_code (code lang : string) : outcome Info :=
  if String.eqb lang "python" then _parse_python code
  else Returned (_parse_generic code lang).

End Parse.

End AstProcessor.

(** ** Facts about the structural extractor *)

Module AstFacts.

Import PyStr Re AstProcessor.
Local Open Scope string_scope.

Definition unbalanced_main : string := "int main() { return 0".

Lemma cpp_java_line_warnings (lang : string) (il : Z * string) (st : scan) :
  warnings (sc_info (cpp_java_line lang il st)) = warnings (sc_info st).
Proof.
  unfold cpp_java_line. destruct il as [i raw]. cbv zeta.
  destruct (negb (truthy (strip raw)) || startswith "//" (strip raw)
            || startswith "/*" (strip raw)); [reflexivity|].
  destruct (String.eqb lang "cpp" && startswith "#include" (strip raw));
    destruct (search re_class (strip raw)); destruct (in_class st);
      destruct (search re_func (strip raw)); destruct (in_function st);
        cbn [negb];
        repeat match goal with
               | |- context [if ?b then _ else _] => destruct b
               end;
        reflexivity.
Qed.

Lemma cpp_java_warnings (code : string) (lines : list string) (lang : string) :
  warnings (_parse_cpp_java_like code lines lang) = Some [].
Proof.
  unfold _parse_cpp_java_like, cpp_java_scan.
  generalize (enumerate_from 1 lines). intro l.
  assert (H : warnings (sc_info (mkScan (empty_info lang (Some [])) false false 0 None))
              = Some []) by reflexivity.
  revert H. generalize (mkScan (empty_info lang (Some [])) false false 0 None).
  induction l as [|il t IH]; intros st H; simpl.
  - exact H.
  - apply IH. now rewrite cpp_java_line_warnings.
Qed.

Lemma javascript_line_warnings (il : Z * string) (info : Info) :
  warnings (javascript_line il info) = warnings info.
Proof.
  unfold javascript_line. destruct il as [i raw]. cbv zeta.
  destruct (negb (truthy (strip raw)) || startswith "//" (strip raw)
            || startswith "/*" (strip raw)); [reflexivity|].
  destruct (startswith "import " (strip raw)
            || startswith "const " (strip raw) && contains "require" (strip raw));
    destruct (first_match js_func_patterns (strip raw));
    destruct (search re_js_class (strip raw)); reflexivity.
Qed.

Lemma javascript_warnings (code : string) (lines : list string) :
  warnings (_parse_javascript code lines) = Some [].
Proof.
  unfold _parse_javascript.
  generalize (enumerate_from 1 lines). intro l.
  assert (H : warnings (empty_info "javascript" (Some [])) = Some []) by reflexivity.
  revert H. generalize (empty_info "javascript" (Some [])).
  induction l as [|il t IH]; intros info H; simpl.
  - exact H.
  - apply IH. now rewrite javascript_line_warnings.
Qed.

(** The heuristic branch never reports a warning for its three languages:
    the list it starts from is replaced by the empty list of the scan. *)
Lemma heuristic_warnings_empty (code lang : string) :
  in_list lang ["cpp"; "java"; "javascript"] = true ->
  warnings (_parse_generic code lang) = Some [].
Proof.
  intro H. unfold _parse_generic. cbv zeta. unfold with_metrics. cbn [warnings].
  destruct (in_list lang ["cpp"; "java"]) eqn:E.
  - apply cpp_java_warnings.
  - destruct (String.eqb lang "javascript") eqn:Ej.
    + apply javascript_warnings.
    + unfold in_list in *. simpl in *.
      destruct (String.eqb lang "cpp"); [discriminate|].
      destruct (String.eqb lang "java"); [discriminate|].
      rewrite Ej in H. discriminate.
Qed.

(** A tag the processor has no branch for gets the warning and nothing else. *)
Lemma other_language_warning (code lang : string) :
  in_list lang ["cpp"; "java"; "javascript"] = false ->
  warnings (_parse_generic code lang)
  = Some ["Using simplified parser - results may be limited"].
Proof.
  intro H. unfold _parse_generic. cbv zeta. unfold with_metrics. cbn [warnings].
  unfold in_list in *. simpl in *.
  destruct (String.eqb lang "cpp"); [discriminate|].
  destruct (String.eqb lang "java"); [discriminate|].
  destruct (String.eqb lang "javascript"); [discriminate|].
  reflexivity.
Qed.

(** Outside the exact-parse branch [parse_code] always returns. *)
Lemma parse_code_returns (ast_parse : string -> py_parse) (code lang : string) :
  lang <> "python" ->
  parse_code ast_parse code lang = Returned (_parse_generic code lang).
Proof.
  intro H. unfold parse_code.
  destruct (String.eqb lang "python") eqn:E; [|reflexivity].
  apply String.eqb_eq in E. contradiction.
Qed.

(** C5, evaluated on the code. For the C++ text [int main() { return 0]
    the structural extractor returns a model with the function [main], the
    scan ends inside that function at brace depth 1 (the scope is never
    closed, so recovery is partial), and the warnings list of the model is
    empty. *)
Theorem unbalanced_scan_reports_no_warning :
  forall ast_parse : string -> py_parse,
    exists info,
      parse_code ast_parse unbalanced_main "cpp" = Returned info
      /\ map f_name (functions info) = ["main"]
      /\ brace_level (cpp_java_scan (split_lines unbalanced_main) "cpp") = 1%Z
      /\ in_function (cpp_java_scan (split_lines unbalanced_main) "cpp") = true
      /\ warnings info = Some [].
Proof.
  intro ast_parse. eexists. split; [reflexivity|].
  repeat split; vm_compute; reflexivity.
Qed.

End AstFacts.

(** ** Facts about the request handler *)

Module AppFacts.

Import PyStr Float App.
Local Open Scope string_scope.

(** A request that names a language the service does not know. *)
Definition ruby_request : RequestData :=
  mkRequest (Some "int x = 5;") (Some "ruby") None false.

Definition idle_app : AppState :=
  mkApp (Some CodeGenFacts.ready_model) true false.

Definition no_format (code target_language : string) : outcome string := Returned code.

Lemma request_with_language_truthy (data : RequestData) (tag : string) :
  rd_target_language data = Some tag -> data_truthy data = true.
Proof.
  intro H. unfold data_truthy. rewrite H.
  destruct (rd_source_code data); reflexivity.
Qed.

Lemma app_nonempty {A : Type} (l : list A) (x : A) : exists e es, (l ++ [x])%list = e :: es.
Proof. destruct l as [|a t]; simpl; eauto. Qed.

(** A tag whose lower-cased form is none of the four languages always leaves
    an error in the list. *)
Lemma unsupported_tag_has_errors (data : RequestData) (tag : string) :
  rd_target_language data = Some tag ->
  in_list (lower tag) valid_languages = false ->
  exists e es, validate_translation_request data = e :: es.
Proof.
  intros Ht Hl. unfold validate_translation_request.
  rewrite (request_with_language_truthy data tag Ht), Ht, Hl. cbv zeta. cbn [negb].
  assert (Hmid : exists e es,
            (if negb (truthy (strip tag))
             then ((if missing_or_blank (rd_source_code data)
                    then ([] ++ ["source_code is required and cannot be empty"])%list
                    else []) ++ ["target_language is required and cannot be empty"])%list
             else ((if missing_or_blank (rd_source_code data)
                    then ([] ++ ["source_code is required and cannot be empty"])%list
                    else []) ++ [unsupported_message])%list) = e :: es).
  { destruct (negb (truthy (strip tag))); apply app_nonempty. }
  destruct Hmid as [e [es Hmid]]. rewrite Hmid.
  destruct (rd_tokens data) as [[l|]|]; simpl; eauto.
Qed.

Lemma unsupported_tag_message (data : RequestData) (tag : string) :
  rd_target_language data = Some tag ->
  in_list (lower tag) valid_languages = false ->
  truthy (strip tag) = true ->
  In unsupported_message (validate_translation_request data).
Proof.
  intros Ht Hl Hs. unfold validate_translation_request.
  rewrite (request_with_language_truthy data tag Ht), Ht, Hl, Hs. cbv zeta. cbn [negb].
  destruct (rd_tokens data) as [[l|]|];
    first [ apply in_or_app; right; left; reflexivity
          | apply in_or_app; left; apply in_or_app; right; left; reflexivity ].
Qed.

(** C8. For every requested target language that is none of python, java,
    javascript and assembly (tags are compared in lower case, as both entry
    points do), the request is rejected before any core component runs: the
    handler answers 400 (validation failed) without calling the normalizer,
    the translator, the formatter or the validator, leaves the state as it
    was and returns no translated code, and for a non-blank tag the details
    carry the unsupported-language message; on an initialized model
    [translate] raises the unsupported-language error and changes nothing. *)
Theorem unsupported_language_rejected :
  forall (generate : string -> outcome string)
         (ast_parse : string -> Validator.parse_result)
         (format_code : string -> string -> outcome string)
         (app : AppState) (data : RequestData) (tag : string)
         (self : CodeGen.CodeGenModel) (source_code : string),
    rd_target_language data = Some tag ->
    in_list (lower tag) valid_languages = false ->
    (exists resp,
        translate_code generate ast_parse format_code app (Returned (Some data))
        = (resp, app, [])
        /\ status resp = 400%Z
        /\ error resp = Some "Validation failed"
        /\ translated_code resp = None
        /\ (truthy (strip tag) = true ->
            exists d, details resp = Some d /\ contains unsupported_message d = true))
    /\ (CodeGen.is_initialized self = true ->
        CodeGen.translate generate self source_code tag
        = (Raised (ValueError ("Unsupported target language: " ++ lower tag)), self)).
Proof.
  intros generate ast_parse format_code app data tag self source_code Ht Hl.
  split.
  - unfold translate_code, validate_translation_request.
    rewrite (request_with_language_truthy data tag Ht), Ht, Hl. cbv zeta. cbn [negb].
    destruct (missing_or_blank (rd_source_code data));
      destruct (truthy (strip tag)) eqn:Es;
      destruct (rd_tokens data) as [[l|]|];
      cbn [negb]; eexists; (split; [reflexivity|]);
      repeat split; try reflexivity; intro Hs; try discriminate;
      eexists; (split; [reflexivity | vm_compute; reflexivity]).
  - intro Hi. now apply CodeGenFacts.translate_rejects.
Qed.

Lemma unsupported_language_rejected_witness :
  rd_target_language ruby_request = Some "ruby"
  /\ in_list (lower "ruby") valid_languages = false
  /\ (exists resp,
        translate_code CodeGenFacts.chatty_engine Validator.accepting_parser no_format
                       idle_app (Returned (Some ruby_request)) = (resp, idle_app, [])
        /\ status resp = 400%Z
        /\ error resp = Some "Validation failed"
        /\ translated_code resp = None
        /\ (truthy (strip "ruby") = true ->
            exists d, details resp = Some d /\ contains unsupported_message d = true)).
Proof.
  split; [reflexivity|]. split; [reflexivity|].
  exact (proj1 (unsupported_language_rejected
                  CodeGenFacts.chatty_engine Validator.accepting_parser no_format
                  idle_app ruby_request "ruby" CodeGenFacts.ready_model "int x = 5;"
                  eq_refl eq_refl)).
Defined.

(** The tag is compared in lower case: an upper-case spelling of a supported
    language is served like the lower-case one. *)
Remark upper_case_tag_is_served :
  status (fst (fst (translate_code CodeGenFacts.chatty_engine Validator.accepting_parser
                                   no_format idle_app
                                   (Returned (Some (mkRequest (Some "int x = 5;")
                                                              (Some "PYTHON")
                                                              None false))))))
  = 200%Z.
Proof. vm_compute. reflexivity. Qed.

End AppFacts.

(** ** Facts about text and about the matcher *)

Module ReFacts.

Import PyStr Re.
Local Open Scope string_scope.

Lemma app_assoc (a b c : string) : (a ++ b) ++ c = a ++ (b ++ c).
Proof. induction a as [|x a IH]; simpl; [reflexivity | now rewrite IH]. Qed.

Lemma app_nil_r (a : string) : a ++ EmptyString = a.
Proof. induction a as [|x a IH]; simpl; [reflexivity | now rewrite IH]. Qed.

Lemma length_app (a b : string) :
  String.length (a ++ b) = (String.length a + String.length b)%nat.
Proof. induction a as [|x a IH]; simpl; [reflexivity | now rewrite IH]. Qed.

(** A text is empty or ends with some character. *)
Lemma snoc_cases (s : string) :
  s = EmptyString \/ exists a c, s = a ++ String c EmptyString.
Proof.
  induction s as [|x s IH]; [now left | right].
  destruct IH as [-> | [a [c ->]]].
  - now exists EmptyString, x.
  - now exists (String x a), c.
Qed.

Lemma snoc_inj (a b : string) (c d : ascii) :
  a ++ String c EmptyString = b ++ String d EmptyString -> a = b /\ c = d.
Proof.
  revert b. induction a as [|x a IH]; intros [|y b] H; simpl in H.
  - injection H as ->. auto.
  - injection H as -> H. destruct b; discriminate.
  - injection H as -> H. destruct a; discriminate.
  - injection H as -> H. destruct (IH b H) as [-> ->]. auto.
Qed.

Lemma snoc_not_empty (a : string) (c : ascii) : a ++ String c EmptyString <> EmptyString.
Proof. destruct a; discriminate. Qed.

Lemma take_drop (n : nat) (s : string) : take n s ++ drop n s = s.
Proof.
  revert s. induction n as [|n IH]; intros [|x s]; simpl; try reflexivity.
  now rewrite IH.
Qed.

Lemma take_app_length (u s : string) : take (String.length u) (u ++ s) = u.
Proof. induction u as [|x u IH]; simpl; [now destruct s | now rewrite IH]. Qed.

(** *** What a successful run hands to its continuation *)

Lemma star_loop_suffix
      (body : option ascii -> string -> caps -> cont -> option (string * caps))
      (greedy : bool) (k : cont) :
  (forall prev s c k' res,
      body prev s c k' = Some res ->
      exists u prev' s' c', s = u ++ s' /\ k' prev' s' c' = Some res) ->
  forall fuel prev s c res,
    star_loop body greedy k fuel prev s c = Some res ->
    exists u prev' s' c', s = u ++ s' /\ k prev' s' c' = Some res.
Proof.
  intros Hbody fuel. induction fuel as [|f IHf]; intros prev s c res H.
  - exists EmptyString, prev, s, c. auto.
  - cbn [star_loop] in H. cbv zeta in H.
    assert (Hmore : forall res',
              body prev s c
                   (fun prev' s' c' =>
                      if (String.length s' <? String.length s)%nat
                      then star_loop body greedy k f prev' s' c' else None) = Some res' ->
              exists u prev' s' c', s = u ++ s' /\ k prev' s' c' = Some res').
    { intros res' Hr. apply Hbody in Hr.
      destruct Hr as [u1 [p1 [s1 [c1 [-> Hr]]]]].
      destruct (String.length s1 <? String.length (u1 ++ s1))%nat; [|discriminate].
      apply IHf in Hr. destruct Hr as [u2 [p2 [s2 [c2 [-> Hr]]]]].
      exists (u1 ++ u2), p2, s2, c2. split; [now rewrite app_assoc | exact Hr]. }
    unfold orelse in H. destruct greedy.
    + match type of H with
      | match ?x with _ => _ end = _ => destruct x eqn:Em
      end.
      * injection H as <-. now apply Hmore.
      * exists EmptyString, prev, s, c. auto.
    + destruct (k prev s c) eqn:Ek.
      * injection H as <-. exists EmptyString, prev, s, c. auto.
      * now apply Hmore.
Qed.

(** A successful run calls its continuation on a suffix of the text. *)
Lemma run_suffix (r : regex) :
  forall prev s c k res,
    run r prev s c k = Some res ->
    exists u prev' s' c', s = u ++ s' /\ k prev' s' c' = Some res.
Proof.
  induction r as [|p|a IHa b IHb|a IHa b IHb|g r IH|n r IH|r IH| |m| |];
    intros prev s c k res H; cbn [run] in H.
  - exists EmptyString, prev, s, c. auto.
  - destruct s as [|x t]; [discriminate|].
    destruct (p x); [|discriminate].
    exists (String x EmptyString), (Some x), t, c. auto.
  - apply IHa in H. destruct H as [u1 [p1 [s1 [c1 [-> H]]]]].
    apply IHb in H. destruct H as [u2 [p2 [s2 [c2 [-> H]]]]].
    exists (u1 ++ u2), p2, s2, c2. split; [now rewrite app_assoc | exact H].
  - unfold orelse in H.
    destruct (run a prev s c k) eqn:Ea.
    + injection H as <-. now apply IHa in Ea.
    + now apply IHb in H.
  - now apply (star_loop_suffix (run r) g k IH) in H.
  - apply IH in H. destruct H as [u [p' [s' [c' [-> H]]]]].
    exists u, p', s', ((n, take (String.length (u ++ s') - String.length s') (u ++ s')) :: c').
    auto.
  - destruct (run r prev s c (fun _ s' c' => Some (s', c'))) as [[s0 c0]|];
      [|discriminate].
    exists EmptyString, prev, s, c0. auto.
  - destruct prev; [discriminate|]. exists EmptyString, None, s, c. auto.
  - destruct s as [|x t].
    + exists EmptyString, prev, EmptyString, c. auto.
    + destruct (Ascii.eqb x nl && (m || negb (truthy t))); [|discriminate].
      exists EmptyString, prev, (String x t), c. auto.
  - destruct s; [|discriminate]. exists EmptyString, prev, EmptyString, c. auto.
  - destruct (xorb (is_word_opt prev) (is_word_opt (head_char s))); [|discriminate].
    exists EmptyString, prev, s, c. auto.
Qed.

(** A pattern whose last step reads one character accepted by [p]. *)
Fixpoint ends_in (p : ascii -> bool) (r : regex) : Prop :=
  match r with
  | Chr q => forall x, q x = true -> p x = true
  | Seq _ b => ends_in p b
  | Group _ r' => ends_in p r'
  | _ => False
  end.

Lemma run_ends_in (p : ascii -> bool) (r : regex) :
  ends_in p r ->
  forall prev s c k res,
    run r prev s c k = Some res ->
    exists u x s' c', s = u ++ String x s' /\ p x = true /\ k (Some x) s' c' = Some res.
Proof.
  induction r as [|q|a IHa b IHb|a IHa b IHb|g r IH|n r IH|r IH| |m| |];
    intro He; try contradiction; intros prev s c k res H; cbn [run] in H;
    cbn [ends_in] in He.
  - destruct s as [|x t]; [discriminate|].
    destruct (q x) eqn:Eq; [|discriminate].
    exists EmptyString, x, t, c. auto.
  - apply run_suffix in H. destruct H as [u1 [p1 [s1 [c1 [-> H]]]]].
    apply (IHb He) in H. destruct H as [u2 [x [s2 [c2 [-> [Hp H]]]]]].
    exists (u1 ++ u2), x, s2, c2. split; [now rewrite app_assoc | auto].
  - apply (IH He) in H. destruct H as [u [x [s' [c' [-> [Hp H]]]]]].
    exists u, x, s',
      ((n, take (String.length (u ++ String x s') - String.length s') (u ++ String x s'))
         :: c').
    auto.
Qed.

Lemma length_suffix_sub (u s : string) :
  (String.length (u ++ s) - String.length s)%nat = String.length u.
Proof. rewrite length_app. lia. Qed.

(** The text of a match of such a pattern ends with a character accepted
    by [p]. *)
Lemma match_ends_in (p : ascii -> bool) (r : regex) (nonempty : bool)
      (prev : option ascii) (s : string) (n : nat) (c : caps) :
  ends_in p r ->
  match_here nonempty r prev s = Some (n, c) ->
  exists u x, take n s = u ++ String x EmptyString /\ p x = true.
Proof.
  intros He H. unfold match_here in H.
  destruct (run r prev s [] _) as [[sf cf]|] eqn:Er; [|discriminate].
  injection H as <- <-.
  apply (run_ends_in p r He) in Er.
  destruct Er as [u [x [s' [c' [-> [Hp Hk]]]]]].
  destruct (nonempty && negb (String.length s' <? String.length (u ++ String x s'))%nat);
    [discriminate|].
  injection Hk as <- <-.
  exists u, x. split; [|exact Hp].
  replace (u ++ String x s') with ((u ++ String x EmptyString) ++ s')
    by (now rewrite app_assoc).
  rewrite length_suffix_sub. apply take_app_length.
Qed.

(** A group around a whole pattern captures the text of the match. *)
Lemma match_whole_group (g : nat) (r : regex) (nonempty : bool)
      (prev : option ascii) (s : string) (n : nat) (c : caps) :
  match_here nonempty (Group g r) prev s = Some (n, c) ->
  cap_get g c = Some (take n s).
Proof.
  intro H. unfold match_here in H. cbn [run] in H.
  destruct (run r prev s [] _) as [[sf cf]|] eqn:Er; [|discriminate].
  injection H as <- <-.
  apply run_suffix in Er. destruct Er as [u [p' [s' [c' [-> Hk]]]]].
  destruct (nonempty && negb (String.length s' <? String.length (u ++ s'))%nat);
    [discriminate|].
  injection Hk as <- <-.
  cbn [cap_get]. now rewrite Nat.eqb_refl.
Qed.

(** *** The shape of the result of a substitution *)

Definition suffix_of (t s : string) : Prop := exists a, s = a ++ t.

Lemma suffix_of_refl (s : string) : suffix_of s s.
Proof. now exists EmptyString. Qed.

Lemma suffix_of_drop (t s : string) (n : nat) : suffix_of t (drop n s) -> suffix_of t s.
Proof.
  intros [a H]. exists (take n s ++ a).
  now rewrite app_assoc, <- H, take_drop.
Qed.

Lemma suffix_of_tail (t s : string) (x : ascii) : suffix_of t s -> suffix_of t (String x s).
Proof. intros [a ->]. now exists (String x a). Qed.

Section SubShape.

(** A property of texts that only depends on how they end. *)
Variable K : string -> Prop.
Hypothesis K_app : forall a x, K x -> K (a ++ x).

Variable r : regex.
Variable repl : mtch -> string.

(** Every replacement is the matched text itself or a text with [K]. *)
Hypothesis repl_ok :
  forall nonempty prev s n c pos,
    match_here nonempty r prev s = Some (n, c) ->
    repl (Match pos (take n s) c) = take n s \/ K (repl (Match pos (take n s) c)).

(** The result is the text itself, or a text with [K] followed by a suffix
    of the text. *)
Lemma sub_fuel_shape (fuel : nat) :
  forall allow_empty prev s pos,
    sub_fuel fuel r repl allow_empty prev s pos = s
    \/ exists x t,
        sub_fuel fuel r repl allow_empty prev s pos = x ++ t /\ K x /\ suffix_of t s.
Proof.
  induction fuel as [|f IH]; intros allow_empty prev s pos.
  - now left.
  - cbn [sub_fuel].
    destruct (match_here (negb allow_empty) r prev s) as [[n c]|] eqn:Em.
    + pose proof (repl_ok _ _ _ _ _ pos Em) as Hr.
      destruct n as [|n'].
      * change (take 0 s) with EmptyString in Hr.
        destruct (IH false prev s pos) as [E | [x [t [E [Kx St]]]]]; rewrite E.
        -- destruct Hr as [-> | Hr]; [now left | right].
           exists (repl (Match pos EmptyString c)), s.
           split; [reflexivity | split; [exact Hr | apply suffix_of_refl]].
        -- right. exists (repl (Match pos EmptyString c) ++ x), t.
           split; [now rewrite app_assoc | split; [now apply K_app | exact St]].
      * destruct (IH true (last_char prev (take (S n') s)) (drop (S n') s) (pos + S n')%nat)
          as [E | [x [t [E [Kx St]]]]]; rewrite E.
        -- destruct Hr as [-> | Hr].
           ++ left. apply take_drop.
           ++ right. exists (repl (Match pos (take (S n') s) c)), (drop (S n') s).
              split; [reflexivity | split; [exact Hr|]].
              apply (suffix_of_drop _ _ (S n')). apply suffix_of_refl.
        -- right. exists (repl (Match pos (take (S n') s) c) ++ x), t.
           split; [now rewrite app_assoc | split; [now apply K_app|]].
           now apply (suffix_of_drop _ _ (S n')).
    + destruct s as [|y s']; [now left|].
      destruct (IH true (Some y) s' (S pos)) as [E | [x [t [E [Kx St]]]]]; rewrite E.
      * now left.
      * right. exists (String y x), t.
        split; [reflexivity | split; [apply (K_app (String y EmptyString)), Kx|]].
        now apply suffix_of_tail.
Qed.

Lemma sub_shape (s : string) :
  Re.sub r repl s = s
  \/ exists x t, Re.sub r repl s = x ++ t /\ K x /\ suffix_of t s.
Proof. apply sub_fuel_shape. Qed.

End SubShape.

(** *** How a text ends *)

Definition NL : string := String nl EmptyString.

(** [s] does not end with a line break. *)
Definition no_final_nl (s : string) : Prop := forall a, s <> a ++ NL.

(** [s] does not end with two line breaks. *)
Definition no_double_nl (s : string) : Prop := forall a, s <> a ++ NL ++ NL.

(** [s] ends with exactly one line break. *)
Definition one_final_nl (s : string) : Prop :=
  exists body, s = body ++ NL /\ no_final_nl body.

(** [x] ends with a character other than the line break. *)
Definition ends_plain (x : string) : Prop :=
  exists y c, x = y ++ String c EmptyString /\ c <> nl.

(** [x] ends with a character other than the line break and one line break. *)
Definition ends_plain_nl (x : string) : Prop :=
  exists y c, x = y ++ String c NL /\ c <> nl.

Lemma ends_plain_app (a x : string) : ends_plain x -> ends_plain (a ++ x).
Proof. intros [y [c [-> H]]]. exists (a ++ y), c. now rewrite app_assoc. Qed.

Lemma ends_plain_nl_app (a x : string) : ends_plain_nl x -> ends_plain_nl (a ++ x).
Proof. intros [y [c [-> H]]]. exists (a ++ y), c. now rewrite app_assoc. Qed.

Lemma no_final_no_double (s : string) : no_final_nl s -> no_double_nl s.
Proof.
  intros H a E. apply (H (a ++ NL)). now rewrite app_assoc.
Qed.

Lemma no_final_nl_empty : no_final_nl EmptyString.
Proof. intros a E. symmetry in E. now apply snoc_not_empty in E. Qed.

Lemma no_final_nl_suffix (t s : string) :
  suffix_of t s -> no_final_nl s -> no_final_nl t.
Proof.
  intros [a ->] H b E. apply (H (a ++ b)). now rewrite E, app_assoc.
Qed.

Lemma ends_plain_no_final (x : string) : ends_plain x -> no_final_nl x.
Proof.
  intros [y [c [-> Hc]]] a E. apply snoc_inj in E. destruct E as [_ E]. contradiction.
Qed.

(** A text that ends plainly, followed by something without a final line
    break, has no final line break. *)
Lemma plain_then_no_final (x t : string) :
  ends_plain x -> no_final_nl t -> no_final_nl (x ++ t).
Proof.
  intros Hx Ht a E.
  destruct (snoc_cases t) as [-> | [t' [d ->]]].
  - rewrite app_nil_r in E. exact (ends_plain_no_final x Hx a E).
  - rewrite <- app_assoc in E. apply snoc_inj in E. destruct E as [_ ->].
    now apply (Ht t').
Qed.

Lemma shape_no_final (s out : string) :
  no_final_nl s ->
  (out = s \/ exists x t, out = x ++ t /\ ends_plain x /\ suffix_of t s) ->
  no_final_nl out.
Proof.
  intros Hs [-> | [x [t [-> [Hx Ht]]]]]; [exact Hs|].
  apply plain_then_no_final; [exact Hx|].
  now apply (no_final_nl_suffix t s).
Qed.

Lemma shape_no_double (s out : string) :
  no_double_nl s ->
  (out = s \/ exists x t, out = x ++ t /\ ends_plain x /\ suffix_of t s) ->
  no_double_nl out.
Proof.
  intros Hs [-> | [x [t [-> [Hx [a Ht]]]]]]; [exact Hs|].
  intros b E.
  destruct (snoc_cases t) as [-> | [t' [d ->]]].
  - rewrite app_nil_r in E. apply (ends_plain_no_final x Hx (b ++ NL)).
    now rewrite app_assoc.
  - rewrite <- app_assoc in E.
    change (b ++ NL ++ NL) with (b ++ String nl NL) in E.
    replace (b ++ String nl NL) with ((b ++ NL) ++ NL) in E by (now rewrite app_assoc).
    apply snoc_inj in E. destruct E as [E ->].
    destruct (snoc_cases t') as [-> | [t'' [e ->]]].
    + rewrite app_nil_r in E. exact (ends_plain_no_final x Hx b E).
    + rewrite <- app_assoc in E. apply snoc_inj in E. destruct E as [_ ->].
      apply (Hs (a ++ t'')). rewrite Ht. now rewrite !app_assoc.
Qed.

Lemma shape_plain_nl_no_double (s out : string) :
  no_final_nl s ->
  (out = s \/ exists x t, out = x ++ t /\ ends_plain_nl x /\ suffix_of t s) ->
  no_double_nl out.
Proof.
  intros Hs [-> | [x [t [-> [[y [c [-> Hc]]] [a Ht]]]]]].
  - now apply no_final_no_double.
  - intros b E.
    replace (b ++ NL ++ NL) with ((b ++ NL) ++ NL) in E by (now rewrite app_assoc).
    destruct (snoc_cases t) as [-> | [t' [d ->]]].
    + rewrite app_nil_r in E.
      replace (y ++ String c NL) with ((y ++ String c EmptyString) ++ NL) in E
        by (now rewrite app_assoc).
      apply snoc_inj in E. destruct E as [E _].
      apply snoc_inj in E. destruct E as [_ E]. contradiction.
    + rewrite <- app_assoc in E. apply snoc_inj in E. destruct E as [_ ->].
      apply (Hs (a ++ t')). rewrite Ht. now rewrite app_assoc.
Qed.

(** *** The test [s.endswith(NL)] *)

Lemma rev_onto_app (a b acc : string) :
  rev_onto (a ++ b) acc = rev_onto b (rev_onto a acc).
Proof. revert acc. induction a as [|x a IH]; intro acc; simpl; [reflexivity | apply IH]. Qed.

Lemma prefix_single (x c : ascii) (t : string) :
  prefix (String x EmptyString) (String c t) = if ascii_dec x c then true else false.
Proof.
  cbn [prefix]. destruct (ascii_dec x c); [destruct t; reflexivity | reflexivity].
Qed.

Lemma endswith_nl_iff (s : string) : endswith NL s = true <-> exists a, s = a ++ NL.
Proof.
  unfold endswith, rev. change (rev_onto NL EmptyString) with NL. split.
  - intro H. destruct (snoc_cases s) as [-> | [a [c ->]]]; [discriminate|].
    rewrite rev_onto_app in H.
    change (rev_onto (String c EmptyString) (rev_onto a EmptyString))
      with (String c (rev_onto a EmptyString)) in H.
    unfold NL in H. rewrite prefix_single in H.
    destruct (ascii_dec nl c) as [<-|]; [now exists a | discriminate].
  - intros [a ->]. rewrite rev_onto_app.
    change (rev_onto NL (rev_onto a EmptyString))
      with (String nl (rev_onto a EmptyString)).
    unfold NL. rewrite prefix_single.
    destruct (ascii_dec nl nl); [reflexivity | contradiction].
Qed.

(** Appending a line break when there is none gives exactly one. *)
Lemma ensure_newline (code : string) :
  no_double_nl code ->
  one_final_nl (if negb (endswith NL code) then code ++ NL else code).
Proof.
  intro H. destruct (endswith NL code) eqn:E; cbn [negb].
  - apply endswith_nl_iff in E. destruct E as [a ->].
    exists a. split; [reflexivity|].
    intros b Eb. apply (H b). now rewrite Eb, app_assoc.
  - exists code. split; [reflexivity|].
    intros b Eb.
    assert (Ht : endswith NL code = true) by (apply endswith_nl_iff; now exists b).
    congruence.
Qed.

End ReFacts.

(** ** Facts about the normalizer *)

Module TokenizerFacts.

Import PyStr Re ReFacts Tokenizer.
Local Open Scope string_scope.

(** *** Stripping leaves no whitespace at the end *)

Lemma rstrip_no_space_end (s a : string) (c : ascii) :
  isspace c = true -> rstrip s <> a ++ String c EmptyString.
Proof.
  intro Hc. revert a. induction s as [|x s IH]; intros a E; simpl in E.
  - now apply (snoc_not_empty a c).
  - destruct (rstrip s) as [|y r] eqn:Er.
    + destruct (isspace x) eqn:Ex.
      * now apply (snoc_not_empty a c).
      * destruct a as [|z a]; simpl in E.
        -- injection E as ->. congruence.
        -- injection E as _ E. now apply (snoc_not_empty a c).
    + destruct a as [|z a]; simpl in E.
      * discriminate.
      * injection E as _ E. now apply (IH a).
Qed.

Lemma strip_no_final_nl (s : string) : no_final_nl (strip s).
Proof. intros a E. now apply (rstrip_no_space_end (lstrip s) a nl). Qed.

Lemma normalize_whitespace_no_final (code : string) :
  no_final_nl (_normalize_whitespace code).
Proof. apply strip_no_final_nl. Qed.

(** *** Comments and string literals *)

Lemma comment_marker_plain : ends_plain " /* comment */ ".
Proof. exists " /* comment */", " "%char. split; [reflexivity | discriminate]. Qed.

Lemma string_marker_plain : ends_plain "<STRING>".
Proof. exists "<STRING", ">"%char. split; [reflexivity | discriminate]. Qed.

Lemma process_comments_no_final (code source_language : string) :
  no_final_nl code -> no_final_nl (_process_comments code source_language).
Proof.
  intro H. unfold _process_comments.
  destruct (comment_patterns source_language) as [comment_regex|]; [|exact H].
  apply (shape_no_final code); [exact H|].
  apply (sub_shape ends_plain ends_plain_app).
  intros nonempty prev s n c pos _. unfold comment_replacer. cbn [m_text].
  destruct (existsb _ comment_keywords); [now left | right; exact comment_marker_plain].
Qed.

Lemma constant_sub_no_final (pattern : regex) (code : string) :
  no_final_nl code -> no_final_nl (Re.sub pattern (fun _ => "<STRING>") code).
Proof.
  intro H. apply (shape_no_final code); [exact H|].
  apply (sub_shape ends_plain ends_plain_app).
  intros. right. exact string_marker_plain.
Qed.

Lemma normalize_strings_no_final (code : string) :
  no_final_nl code -> no_final_nl (_normalize_strings code).
Proof.
  intro H. unfold _normalize_strings, string_patterns. cbn [fold_left].
  now apply constant_sub_no_final, constant_sub_no_final.
Qed.

(** *** Structural markers *)

Definition is_open_brace (x : ascii) : bool := Ascii.eqb "{"%char x.
Definition closes_include (x : ascii) : bool := mem_char x (String ">"%char DQ).

Lemma open_brace_not_nl (x : ascii) : is_open_brace x = true -> x <> nl.
Proof. intros H ->. discriminate. Qed.

Lemma closes_include_not_nl (x : ascii) : closes_include x = true -> x <> nl.
Proof. intros H ->. discriminate. Qed.

(** A marker put in front of a head pattern: the replacement ends with the
    opening brace of the head. *)
Lemma head_marker_plain (body : regex) (marker : string) (nonempty : bool)
      (prev : option ascii) (s : string) (n : nat) (c : caps) (pos : nat) :
  ends_in is_open_brace body ->
  match_here nonempty (Group 1 body) prev s = Some (n, c) ->
  ends_plain (marker ++ group_text (Match pos (take n s) c) 1).
Proof.
  intros He Hm. unfold group_text, group. cbn [m_caps].
  rewrite (match_whole_group 1 body nonempty prev s n c Hm).
  destruct (match_ends_in is_open_brace (Group 1 body) nonempty prev s n c He Hm)
    as [u [x [-> Hx]]].
  apply ends_plain_app. exists u, x. split; [reflexivity | now apply open_brace_not_nl].
Qed.

Lemma head_sub_shape (body : regex) (marker s : string) :
  ends_in is_open_brace body ->
  Re.sub (Group 1 body) (fun m => marker ++ group_text m 1) s = s
  \/ exists x t,
      Re.sub (Group 1 body) (fun m => marker ++ group_text m 1) s = x ++ t
      /\ ends_plain x /\ suffix_of t s.
Proof.
  intro He. apply (sub_shape ends_plain ends_plain_app).
  intros nonempty prev s0 n c pos Hm. right.
  now apply (head_marker_plain body marker nonempty prev s0 n c pos He).
Qed.

Lemma function_head_ends : ends_in is_open_brace
  (seqs [plus w; plus sp; plus w; star sp; lit "("; star (none_of ")"); lit ")";
         star sp; lit "{"]).
Proof. cbn. auto. Qed.

Lemma class_head_ends (keyword : string) :
  ends_in is_open_brace (seqs [lit keyword; plus sp; plus w; star sp; lit "{"]).
Proof. cbn. auto. Qed.

Lemma closing_brace_shape (s : string) :
  Re.sub re_closing_brace (fun m => group_text m 1 ++ NL ++ "// FUNCTION_END" ++ NL) s = s
  \/ exists x t,
      Re.sub re_closing_brace (fun m => group_text m 1 ++ NL ++ "// FUNCTION_END" ++ NL) s
      = x ++ t
      /\ ends_plain_nl x /\ suffix_of t s.
Proof.
  apply (sub_shape ends_plain_nl ends_plain_nl_app).
  intros nonempty prev s0 n c pos _. right.
  exists (group_text (Match pos (take n s0) c) 1 ++ NL ++ "// FUNCTION_EN"), "D"%char.
  split; [now rewrite app_assoc | discriminate].
Qed.

Lemma include_shape (s : string) :
  Re.sub re_include (fun m => "// INCLUDE" ++ NL ++ group_text m 0) s = s
  \/ exists x t,
      Re.sub re_include (fun m => "// INCLUDE" ++ NL ++ group_text m 0) s = x ++ t
      /\ ends_plain x /\ suffix_of t s.
Proof.
  apply (sub_shape ends_plain ends_plain_app).
  intros nonempty prev s0 n c pos Hm. right.
  assert (He : ends_in closes_include re_include) by (cbn; auto).
  destruct (match_ends_in closes_include re_include nonempty prev s0 n c He Hm)
    as [u [x [Hu Hx]]].
  unfold group_text, group. cbn [m_text]. rewrite Hu.
  apply (ends_plain_app ("// INCLUDE" ++ NL)).
  exists u, x. split; [reflexivity | now apply closes_include_not_nl].
Qed.

Lemma structural_markers_no_double (code : string) :
  no_final_nl code -> no_double_nl (_add_structural_markers code).
Proof.
  intro H. unfold _add_structural_markers. cbv zeta.
  set (c1 := Re.sub re_function_head _ code).
  set (c2 := Re.sub re_closing_brace _ c1).
  set (c3 := Re.sub re_class_head _ c2).
  set (c4 := Re.sub re_struct_head _ c3).
  assert (H1 : no_final_nl c1).
  { apply (shape_no_final code c1 H).
    exact (head_sub_shape _ (NL ++ "// FUNCTION_START" ++ NL) code function_head_ends). }
  assert (H2 : no_double_nl c2).
  { apply (shape_plain_nl_no_double c1 c2 H1). exact (closing_brace_shape c1). }
  assert (H3 : no_double_nl c3).
  { apply (shape_no_double c2 c3 H2).
    exact (head_sub_shape _ (NL ++ "// CLASS_START" ++ NL) c2 (class_head_ends "class")). }
  assert (H4 : no_double_nl c4).
  { apply (shape_no_double c3 c4 H3).
    exact (head_sub_shape _ (NL ++ "// STRUCT_START" ++ NL) c3 (class_head_ends "struct")). }
  apply (shape_no_double c4 _ H4). exact (include_shape c4).
Qed.

(** *** Token annotations *)

Lemma split_char_snoc (c : ascii) (s : string) :
  exists l z,
    split_char c s = (l ++ [z])%list
    /\ suffix_of z s
    /\ (l = [] -> z = s)
    /\ (l <> [] -> z = EmptyString -> exists a, s = a ++ String c EmptyString).
Proof.
  induction s as [|d t IH].
  - exists [], EmptyString. repeat split; auto using suffix_of_refl. congruence.
  - destruct IH as [l [z [Hs [Hsuf [Hone Hmany]]]]]. cbn [split_char].
    destruct (Ascii.eqb d c) eqn:Ed.
    + apply Ascii.eqb_eq in Ed. subst d.
      exists (EmptyString :: l), z. rewrite Hs.
      split; [reflexivity|]. split; [now apply suffix_of_tail|].
      split; [discriminate|]. intros _ Hz.
      destruct l as [|h l'].
      * rewrite (Hone eq_refl) in Hz. subst t. now exists EmptyString.
      * destruct (Hmany ltac:(discriminate) Hz) as [a ->]. now exists (String c a).
    + rewrite Hs. destruct l as [|h l']; cbn [app].
      * exists [], (String d z). rewrite (Hone eq_refl).
        repeat split; auto using suffix_of_refl. congruence.
      * exists (String d h :: l'), z.
        split; [reflexivity|]. split; [now apply suffix_of_tail|].
        split; [discriminate|]. intros _ Hz.
        destruct (Hmany ltac:(discriminate) Hz) as [a ->]. now exists (String d a).
Qed.

Lemma enumerate_from_snoc {A : Type} (l : list A) (z : A) (i : Z) :
  exists j, enumerate_from i (l ++ [z]) = (enumerate_from i l ++ [(j, z)])%list.
Proof.
  revert i. induction l as [|a t IH]; intro i; cbn [app enumerate_from].
  - now exists i.
  - destruct (IH (i + 1)%Z) as [j ->]. now exists j.
Qed.

Lemma join_snoc (l : list string) (z : string) :
  l <> [] -> join NL (l ++ [z]) = join NL l ++ NL ++ z.
Proof.
  intro H. induction l as [|a t IH]; [congruence|].
  destruct t as [|b t].
  - reflexivity.
  - change (join NL ((a :: b :: t) ++ [z])) with (a ++ NL ++ join NL ((b :: t) ++ [z])).
    rewrite IH by discriminate.
    change (join NL (a :: b :: t)) with (a ++ NL ++ join NL (b :: t)).
    now rewrite !app_assoc.
Qed.

Lemma app_no_final (a z : string) :
  z <> EmptyString -> no_final_nl z -> no_final_nl (a ++ z).
Proof.
  intros Hz H b E. destruct (snoc_cases z) as [-> | [z' [d ->]]]; [congruence|].
  rewrite <- app_assoc in E. apply snoc_inj in E. destruct E as [_ ->].
  now apply (H z').
Qed.

Lemma join_space_no_final (l : list string) :
  Forall no_final_nl l -> no_final_nl (join " " l).
Proof.
  intro H. induction H as [|x t Hx Ht IH].
  - exact no_final_nl_empty.
  - destruct t as [|y t]; [exact Hx|].
    change (join " " (x :: y :: t)) with (x ++ " " ++ join " " (y :: t)).
    rewrite <- app_assoc. apply plain_then_no_final; [|exact IH].
    apply ends_plain_app. exists EmptyString, " "%char. split; [reflexivity | discriminate].
Qed.

Lemma In_firstn {A : Type} (n : nat) (l : list A) (x : A) : In x (firstn n l) -> In x l.
Proof.
  revert l. induction n as [|n IH]; intros [|a l] H; simpl in H; try contradiction.
  destruct H as [-> | H]; [now left | right; now apply IH].
Qed.

(** No token type ends with a line break. *)
Definition tidy_tokens (tokens : list Token) : Prop :=
  Forall (fun t => no_final_nl (token_type t)) tokens.

Lemma token_info_no_final (tokens : list Token) (i : Z) :
  tidy_tokens tokens ->
  no_final_nl (join " " (map token_type (firstn 5 (tokens_of_line tokens i)))).
Proof.
  intro H. apply join_space_no_final. apply Forall_forall. intros x Hx.
  apply in_map_iff in Hx. destruct Hx as [t [<- Ht]].
  apply In_firstn in Ht. unfold tokens_of_line in Ht. apply filter_In in Ht.
  destruct Ht as [Ht _]. unfold tidy_tokens in H. rewrite Forall_forall in H. now apply H.
Qed.

Lemma token_line_no_final (a info : string) :
  no_final_nl info -> no_final_nl (a ++ "// Tokens: " ++ info).
Proof.
  intro H. rewrite <- app_assoc. apply plain_then_no_final; [|exact H].
  apply ends_plain_app. exists "// Tokens:", " "%char. split; [reflexivity | discriminate].
Qed.

Lemma enhance_no_final (code : string) (tokens : list Token) :
  tidy_tokens tokens -> no_final_nl code ->
  no_final_nl (_enhance_with_tokens code tokens).
Proof.
  intros Ht Hc. unfold _enhance_with_tokens. cbv zeta.
  match goal with |- context [fold_left ?f _ _] => set (step := f) end.
  destruct (split_char_snoc nl code) as [l [z [Hs [Hsuf [Hone Hmany]]]]].
  unfold split_lines. rewrite Hs.
  destruct (enumerate_from_snoc l z 1) as [j ->].
  rewrite fold_left_app. cbn [fold_left].
  set (acc := fold_left step (enumerate_from 1 l) []).
  assert (Hacc : l = [] -> acc = []) by (intros ->; reflexivity).
  assert (Hz : no_final_nl z) by (now apply (no_final_nl_suffix z code)).
  assert (Hbase : no_final_nl (join NL (acc ++ [z]))).
  { destruct acc as [|a0 acc'] eqn:Ea.
    - exact Hz.
    - rewrite join_snoc by discriminate. rewrite <- app_assoc.
      apply app_no_final; [|exact Hz].
      intro Hz0. destruct l as [|h l']; [now specialize (Hacc eq_refl)|].
      destruct (Hmany ltac:(discriminate) Hz0) as [a Ha].
      now apply (Hc a). }
  unfold step at 1.
  destruct (tokens_of_line tokens j) as [|t ts] eqn:El; [exact Hbase|].
  rewrite <- El.
  destruct (truthy (join " " (map token_type (firstn 5 (tokens_of_line tokens j)))));
    [|exact Hbase].
  rewrite join_snoc by (destruct acc; discriminate).
  rewrite <- (app_assoc (join NL (acc ++ [z])) NL).
  apply token_line_no_final. now apply token_info_no_final.
Qed.

(** *** The result of [preprocess] *)

(** The test at the head of [preprocess]:
    [not source_code or not source_code.strip()]. *)
Definition blank (source_code : string) : bool :=
  negb (truthy source_code) || negb (truthy (strip source_code)).

(** The tokens handed to [preprocess] are absent or tidy. *)
Definition tidy (tokens : option (list Token)) : Prop :=
  match tokens with
  | Some l => tidy_tokens l
  | None => True
  end.

Definition small_program : string := "int main() { return 0; }".

(** C9, as amended. [preprocess] is a function of its arguments alone (in
    the embedding as in the source, which reads no state), and for every
    input text that is not blank its output ends with exactly one trailing
    line break, provided no token type supplied with it ends with a line
    break; for a blank input text the output is the empty string. *)
Theorem preprocess_trailing_newline :
  forall (source_code : string) (tokens : option (list Token)) (source_language : string),
    tidy tokens ->
    if blank source_code
    then preprocess source_code tokens source_language = EmptyString
    else one_final_nl (preprocess source_code tokens source_language).
Proof.
  intros source_code tokens source_language Ht.
  unfold preprocess. fold (blank source_code).
  destruct (blank source_code); [reflexivity|]. cbv zeta.
  apply ensure_newline. apply structural_markers_no_double.
  assert (H : no_final_nl
                (_normalize_strings
                   (_process_comments
                      (_normalize_whitespace (_normalize_line_endings source_code))
                      source_language))).
  { apply normalize_strings_no_final, process_comments_no_final,
      normalize_whitespace_no_final. }
  destruct tokens as [[|t ts]|]; try exact H.
  now apply enhance_no_final.
Qed.

Lemma preprocess_trailing_newline_witness :
  tidy None /\ one_final_nl (preprocess small_program None "cpp").
Proof.
  split; [exact I|].
  exact (preprocess_trailing_newline small_program None "cpp" I).
Defined.

(** C9 as stated fails on the empty text: the output is the empty string,
    which ends with no line break. *)
Lemma preprocess_of_empty_text :
  preprocess EmptyString None "cpp" = EmptyString
  /\ endswith NL (preprocess EmptyString None "cpp") = false.
Proof. split; reflexivity. Qed.

(** A token type that ends with line breaks passes them on to the output. *)
Remark untidy_token_type :
  preprocess "x" (Some [mkToken None (Some ("T" ++ NL ++ NL))]) "cpp"
  = "x" ++ NL ++ "// Tokens: T" ++ NL ++ NL.
Proof. vm_compute. reflexivity. Qed.

End TokenizerFacts.

(** ** Counting and splitting *)

Module TextFacts.

Import PyStr.
Local Open Scope string_scope.

Lemma count_char_app (c : ascii) (a b : string) :
  count_char c (a ++ b) = (count_char c a + count_char c b)%Z.
Proof.
  induction a as [|x a IH]; [reflexivity|].
  change (count_char c (String x a ++ b))
    with ((if Ascii.eqb x c then 1 else 0) + count_char c (a ++ b))%Z.
  change (count_char c (String x a))
    with ((if Ascii.eqb x c then 1 else 0) + count_char c a)%Z.
  rewrite IH. lia.
Qed.

(** The occurrences of [c] in a list of lines, added up. *)
Definition total_count (c : ascii) (lines : list string) : Z :=
  fold_right (fun ln n => (count_char c ln + n)%Z) 0%Z lines.

(** Splitting at a separator loses no occurrence of another character. *)
Lemma total_count_split (c sep : ascii) (s : string) :
  Ascii.eqb sep c = false -> total_count c (split_char sep s) = count_char c s.
Proof.
  intro Hc. induction s as [|x t IH]; [reflexivity|].
  cbn [split_char]. destruct (Ascii.eqb x sep) eqn:Ex.
  - apply Ascii.eqb_eq in Ex. subst x.
    cbn [total_count fold_right count_char]. fold (total_count c (split_char sep t)).
    rewrite IH, Hc. lia.
  - destruct (split_char sep t) as [|h r] eqn:Es.
    + cbn [total_count fold_right count_char] in *. lia.
    + cbn [total_count fold_right count_char] in *. lia.
Qed.

Lemma split_char_not_nil (c : ascii) (s : string) : split_char c s <> [].
Proof.
  destruct s as [|x t]; cbn [split_char]; [discriminate|].
  destruct (Ascii.eqb x c); [discriminate|].
  destruct (split_char c t); discriminate.
Qed.

(** Joining the pieces with the separator gives the text back. *)
Lemma join_split_char (c : ascii) (s : string) :
  join (String c EmptyString) (split_char c s) = s.
Proof.
  induction s as [|x t IH]; [reflexivity|].
  cbn [split_char]. pose proof (split_char_not_nil c t) as Hn.
  destruct (split_char c t) as [|h r] eqn:Es; [congruence|].
  destruct (Ascii.eqb x c) eqn:Ex.
  - apply Ascii.eqb_eq in Ex. subst x.
    change (join (String c EmptyString) (EmptyString :: h :: r))
      with (String c (join (String c EmptyString) (h :: r))).
    now rewrite IH.
  - destruct r as [|h' r'].
    + simpl in *. now rewrite IH.
    + change (join (String c EmptyString) (String x h :: h' :: r'))
        with (String x (join (String c EmptyString) (h :: h' :: r'))).
      now rewrite IH.
Qed.

Fixpoint all_chars (p : ascii -> bool) (s : string) : bool :=
  match s with
  | EmptyString => true
  | String c t => p c && all_chars p t
  end.

Lemma all_chars_app (p : ascii -> bool) (a b : string) :
  all_chars p (a ++ b) = all_chars p a && all_chars p b.
Proof.
  induction a as [|x a IH]; [reflexivity|].
  change (all_chars p (String x a ++ b)) with (p x && all_chars p (a ++ b)).
  change (all_chars p (String x a)) with (p x && all_chars p a).
  now rewrite IH, andb_assoc.
Qed.

(** [x] is another character than [c]. *)
Definition is_not (c : ascii) (x : ascii) : bool := negb (Ascii.eqb x c).

(** No piece of a split contains the separator. *)
Lemma split_pieces_free (c : ascii) (s : string) :
  Forall (fun piece => all_chars (is_not c) piece = true) (split_char c s).
Proof.
  induction s as [|x t IH]; [repeat constructor|].
  cbn [split_char]. pose proof (split_char_not_nil c t) as Hn.
  destruct (split_char c t) as [|h r]; [congruence|].
  destruct (Ascii.eqb x c) eqn:Ex.
  - constructor; [reflexivity | exact IH].
  - inversion IH; subst. constructor; [|assumption].
    cbn [all_chars]. unfold is_not at 1. now rewrite Ex.
Qed.

Lemma split_char_free (c : ascii) (s : string) :
  all_chars (is_not c) s = true -> split_char c s = [s].
Proof.
  induction s as [|x t IH]; intro H; [reflexivity|].
  cbn [all_chars] in H. apply andb_prop in H. destruct H as [Hx Ht].
  cbn [split_char]. unfold is_not in Hx. apply negb_true_iff in Hx.
  now rewrite Hx, (IH Ht).
Qed.

Lemma split_char_app (c : ascii) (a b : string) :
  all_chars (is_not c) a = true ->
  split_char c (a ++ String c b) = a :: split_char c b.
Proof.
  induction a as [|x a IH]; intro H.
  - cbn [append split_char]. now rewrite Ascii.eqb_refl.
  - cbn [all_chars] in H. apply andb_prop in H. destruct H as [Hx Ha].
    change (String x a ++ String c b) with (String x (a ++ String c b)).
    cbn [split_char]. unfold is_not in Hx. apply negb_true_iff in Hx.
    now rewrite Hx, (IH Ha).
Qed.

(** Splitting what was joined gives the lines back, when there is at least
    one line and no line contains the separator. *)
Lemma split_join (c : ascii) (l : list string) :
  l <> [] ->
  Forall (fun piece => all_chars (is_not c) piece = true) l ->
  split_char c (join (String c EmptyString) l) = l.
Proof.
  intros Hn H. induction H as [|x t Hx Ht IH]; [congruence|].
  destruct t as [|y t].
  - now apply split_char_free.
  - change (join (String c EmptyString) (x :: y :: t))
      with (x ++ String c (join (String c EmptyString) (y :: t))).
    rewrite (split_char_app c x _ Hx), IH by discriminate. reflexivity.
Qed.

(** Stripping keeps a property that every character of the text has. *)
Lemma all_chars_lstrip (p : ascii -> bool) (s : string) :
  all_chars p s = true -> all_chars p (lstrip s) = true.
Proof.
  induction s as [|x t IH]; intro H; [reflexivity|].
  cbn [lstrip]. destruct (isspace x); [|exact H].
  cbn [all_chars] in H. apply andb_prop in H. now apply IH.
Qed.

Lemma all_chars_rstrip (p : ascii -> bool) (s : string) :
  all_chars p s = true -> all_chars p (rstrip s) = true.
Proof.
  induction s as [|x t IH]; intro H; [reflexivity|].
  cbn [all_chars] in H. apply andb_prop in H. destruct H as [Hx Ht].
  specialize (IH Ht). cbn [rstrip].
  destruct (rstrip t) as [|y r].
  - destruct (isspace x); [reflexivity|]. cbn [all_chars]. now rewrite Hx.
  - cbn [all_chars] in *. now rewrite Hx.
Qed.

Lemma all_chars_strip (p : ascii -> bool) (s : string) :
  all_chars p s = true -> all_chars p (strip s) = true.
Proof. intro H. unfold strip. now apply all_chars_rstrip, all_chars_lstrip. Qed.

(** Stripping twice is stripping once. *)
Definition starts_plain (s : string) : Prop :=
  match s with
  | EmptyString => True
  | String c _ => isspace c = false
  end.

Lemma lstrip_starts_plain (s : string) : starts_plain (lstrip s).
Proof.
  induction s as [|x t IH]; [exact I|].
  cbn [lstrip]. destruct (isspace x) eqn:E; [exact IH | exact E].
Qed.

Lemma lstrip_of_plain (s : string) : starts_plain s -> lstrip s = s.
Proof. destruct s as [|x t]; [reflexivity|]. simpl. now intros ->. Qed.

Lemma rstrip_starts_plain (s : string) : starts_plain s -> starts_plain (rstrip s).
Proof.
  destruct s as [|x t]; [exact (fun H => H)|].
  intro H. simpl in H. cbn [rstrip].
  destruct (rstrip t); [rewrite H|]; exact H.
Qed.

Lemma rstrip_idem (s : string) : rstrip (rstrip s) = rstrip s.
Proof.
  induction s as [|x t IH]; [reflexivity|].
  cbn [rstrip]. destruct (rstrip t) as [|y r] eqn:E.
  - destruct (isspace x) eqn:Ex; [reflexivity|].
    cbn [rstrip]. now rewrite Ex.
  - cbn [rstrip] in *. now rewrite IH.
Qed.

Lemma strip_idem (s : string) : strip (strip s) = strip s.
Proof.
  unfold strip.
  rewrite (lstrip_of_plain (rstrip (lstrip s)))
    by (apply rstrip_starts_plain, lstrip_starts_plain).
  apply rstrip_idem.
Qed.

(** The text with every character accepted by [p] replaced by [v]. *)
Fixpoint subst_chars (p : ascii -> bool) (v : string) (s : string) : string :=
  match s with
  | EmptyString => EmptyString
  | String x t => if p x then v ++ subst_chars p v t else String x (subst_chars p v t)
  end.

(** After the replacement of [c] by a text without [c], no [c] is left. *)
Lemma substituted_chars (c : ascii) (v s : string) :
  all_chars (is_not c) v = true ->
  all_chars (is_not c) (subst_chars (Ascii.eqb c) v s) = true.
Proof.
  intro Hv. induction s as [|x t IH]; [reflexivity|].
  cbn [subst_chars]. destruct (Ascii.eqb c x) eqn:E.
  - now rewrite all_chars_app, Hv, IH.
  - cbn [all_chars]. unfold is_not at 1. rewrite Ascii.eqb_sym, E. exact IH.
Qed.

Lemma subst_chars_keeps (p q : ascii -> bool) (v s : string) :
  all_chars q v = true -> all_chars q s = true -> all_chars q (subst_chars p v s) = true.
Proof.
  intros Hv. induction s as [|x t IH]; intro H; [reflexivity|].
  cbn [all_chars] in H. apply andb_prop in H. destruct H as [Hx Ht].
  cbn [subst_chars]. destruct (p x).
  - now rewrite all_chars_app, Hv, IH.
  - cbn [all_chars]. now rewrite Hx, IH.
Qed.

Lemma subst_chars_absent (p : ascii -> bool) (v s : string) :
  all_chars (fun x => negb (p x)) s = true -> subst_chars p v s = s.
Proof.
  induction s as [|x t IH]; intro H; [reflexivity|].
  cbn [all_chars] in H. apply andb_prop in H. destruct H as [Hx Ht].
  cbn [subst_chars]. apply negb_true_iff in Hx. now rewrite Hx, IH.
Qed.

Lemma prefix_one (c x : ascii) (t : string) :
  prefix (String c EmptyString) (String x t) = Ascii.eqb c x.
Proof.
  cbn [prefix]. destruct (ascii_dec c x) as [->|Hn].
  - rewrite Ascii.eqb_refl. now destruct t.
  - symmetry. now apply Ascii.eqb_neq.
Qed.

(** [s.replace(c, v)] for a one-character [c]. *)
Lemma replace_fuel_char (c : ascii) (v : string) (fuel : nat) :
  forall s, (String.length s < fuel)%nat ->
            replace_fuel fuel (String c EmptyString) v s = subst_chars (Ascii.eqb c) v s.
Proof.
  induction fuel as [|f IH]; intros s Hf; [lia|].
  cbn [replace_fuel]. destruct s as [|x t]; [reflexivity|].
  rewrite prefix_one. cbn [subst_chars].
  change (String.length (String x t)) with (S (String.length t)) in Hf.
  destruct (Ascii.eqb c x).
  - cbn [String.length drop]. rewrite IH by lia. reflexivity.
  - rewrite IH by lia. reflexivity.
Qed.

Lemma replace_char (c : ascii) (v s : string) :
  replace (String c EmptyString) v s = subst_chars (Ascii.eqb c) v s.
Proof. unfold replace. apply replace_fuel_char. lia. Qed.

(** A text that lacks the first character of [old] has no occurrence of
    [old] to replace. *)
Lemma replace_fuel_absent (c : ascii) (old' v : string) (fuel : nat) :
  forall s, all_chars (is_not c) s = true ->
            replace_fuel fuel (String c old') v s = s.
Proof.
  induction fuel as [|f IH]; intros s H; [reflexivity|].
  cbn [replace_fuel]. destruct s as [|x t]; [reflexivity|].
  cbn [all_chars] in H. apply andb_prop in H. destruct H as [Hx Ht].
  cbn [prefix]. destruct (ascii_dec c x) as [->|Hn].
  - unfold is_not in Hx. now rewrite Ascii.eqb_refl in Hx.
  - now rewrite (IH t Ht).
Qed.

Lemma replace_absent (c : ascii) (old' v s : string) :
  all_chars (is_not c) s = true -> replace (String c old') v s = s.
Proof. intro H. unfold replace. now apply replace_fuel_absent. Qed.

End TextFacts.

(** ** postprocessing/validator.py: the entry points besides [validate] *)

Module ValidatorTools.

Import PyStr Re Float Validator.
Local Open Scope string_scope.

(** The literal 0.05. *)
Definition f0_05 : float := S754_finite false 7205759403792794 (-57).

(** The patterns behind the key 'invalid_patterns': the word end, an opening
    brace or a closing brace at the end of the text; a Python function head, a
    Python print call; the words function and class followed by a name. No
    flag is passed, so the dollar sign is the plain one. *)
Definition re_end : regex := Seq (lit "end") (Eol false).
Definition re_open_end : regex := Seq (lit "{") (Eol false).
Definition re_close_end : regex := Seq (lit "}") (Eol false).
Definition re_def : regex := seqs [lit "def"; plus sp; plus w].
Definition re_print : regex := seqs [lit "print"; star sp; lit "("].
Definition re_function : regex := seqs [lit "function"; plus sp; plus w].
Definition re_class_word : regex := seqs [lit "class"; plus sp; plus w].

(** [self.patterns.get(language, {}).get('invalid_patterns', [])]: every
    pattern with the text it is written as. *)
Definition invalid_patterns (language : string) : list (string * regex) :=
  if String.eqb language "python"
  then [("end$", re_end); ("\{$", re_open_end); ("\}$", re_close_end)]
  else if String.eqb language "java"
  then [("def\s+\w+", re_def); ("print\s*\(", re_print); ("end$", re_end)]
  else if String.eqb language "javascript"
  then [("def\s+\w+", re_def); ("print\s*\(", re_print); ("end$", re_end)]
  else if String.eqb language "assembly"
  then [("function\s+\w+", re_function); ("class\s+\w+", re_class_word)]
  else [].

Section Compatibility.

Variable ast_parse : string -> parse_result.

Definition check_syntax_compatibility (code target_language : string)
  : outcome (bool * list string) :=
  let error_messages : list string := [] in
  if String.eqb (lower target_language) "python"
  then match ast_parse code with
       | ParseOk => Returned (true, error_messages)
       | ParseSyntaxError msg _ =>
           Returned (false, (error_messages ++ [("Python syntax error: " ++ msg)%string])%list)
       | ParseRaises e => Raised e
       end
  else
    let error_messages :=
      fold_left
        (fun error_messages (p : string * regex) =>
           if found (snd p) code
           then (error_messages ++ [("Invalid pattern detected: " ++ fst p)%string])%list
           else error_messages)
        (invalid_patterns (lower target_language)) error_messages in
    Returned ((List.length error_messages =? 0)%nat, error_messages).

End Compatibility.

(** A validation result as a dict read with [get]: a key may be missing. *)
Record ResultDict : Type := mkDict {
  d_is_valid : option bool;
  d_confidence : option float;
  d_errors : option (list Issue);
  d_warnings : option (list Issue);
  d_info : option (list Issue);
  d_suggestions : option (list string)
}.

(** The dict [to_dict] builds: every key is present. *)
Definition dict_of (r : ValidationResult) : ResultDict :=
  mkDict (Some (is_valid r)) (Some (confidence r)) (Some (errors r)) (Some (warnings r))
         (Some (info r)) (Some (suggestions r)).

Definition get {A : Type} (field : option A) (default : A) : A :=
  match field with Some v => v | None => default end.

Definition estimate_translation_quality (source_info : option SourceInfo)
           (translation_result : ResultDict) : float :=
  let base_quality := get (d_confidence translation_result) f0_8 in
  let error_count := Z.of_nat (List.length (get (d_errors translation_result) [])) in
  let warning_count := Z.of_nat (List.length (get (d_warnings translation_result) [])) in
  let quality := base_quality in
  let quality := sub quality (mul (of_Z error_count) f0_2) in
  let quality := sub quality (mul (of_Z warning_count) f0_05) in
  let quality :=
    if (error_count =? 0)%Z && (warning_count =? 0)%Z
    then py_min f1_0 (add quality f0_1)
    else quality in
  py_max f0_0 (py_min f1_0 quality).

End ValidatorTools.

(** ** More facts about the validator *)

Module ValidatorProps.

Import PyStr Re Float Validator ValidatorFacts ValidatorTools TextFacts.
Local Open Scope string_scope.

(** *** The verdict: [is_valid] and the errors *)

Definition verdict (r : ValidationResult) : bool * list Issue := (is_valid r, errors r).

Lemma for_each_verdict {A : Type} (l : list A)
      (body : A -> ValidationResult -> ValidationResult) :
  (forall a r, verdict (body a r) = verdict r) ->
  forall r, verdict (for_each l body r) = verdict r.
Proof.
  intro H. induction l as [|a t IH]; intro r.
  - reflexivity.
  - unfold for_each in *. simpl. rewrite IH. apply H.
Qed.

Lemma map_snd_enumerate {A : Type} (l : list A) (i : Z) :
  map snd (enumerate_from i l) = l.
Proof.
  revert i. induction l as [|a t IH]; intro i; simpl; [reflexivity | now rewrite IH].
Qed.

(** A text that is not blank has a line that is not blank. *)
Lemma lines_all_space (s : string) :
  Forall (fun l => all_space l = true) (split_char nl s) -> all_space s = true.
Proof.
  induction s as [|x t IH]; intro H; [reflexivity|].
  cbn [split_char] in H. pose proof (split_char_not_nil nl t) as Hn.
  destruct (Ascii.eqb x nl) eqn:Ex.
  - apply Ascii.eqb_eq in Ex. subst x. inversion H; subst.
    simpl. now apply IH.
  - destruct (split_char nl t) as [|h r]; [congruence|].
    inversion H as [|? ? Hh Hr]; subst. simpl in Hh.
    apply andb_prop in Hh. destruct Hh as [Hx Hh].
    simpl. rewrite Hx. apply IH. now constructor.
Qed.

Lemma nonblank_has_line (code : string) :
  blank code = false -> non_empty_of (split_lines code) <> [].
Proof.
  intros Hb He.
  assert (Ha : all_space code = true).
  { apply lines_all_space. unfold non_empty_of, split_lines in He.
    induction (split_char nl code) as [|l t IH]; [constructor|].
    simpl in He. destruct (nonblank l) eqn:El; [discriminate|].
    constructor; [|now apply IH].
    apply strip_empty. unfold nonblank in El. destruct (strip l); [reflexivity | discriminate]. }
  unfold blank in Hb. apply strip_empty in Ha. rewrite Ha in Hb.
  simpl in Hb. now rewrite orb_true_r in Hb.
Qed.

Lemma basic_structure_verdict (code target_language : string) (r : ValidationResult) :
  blank code = false ->
  verdict (_validate_basic_structure code target_language r) = verdict r.
Proof.
  intro Hb. unfold _validate_basic_structure. cbv zeta.
  pose proof (nonblank_has_line code Hb) as Hn.
  destruct (non_empty_of (split_lines code)) as [|l0 ls]; [congruence|].
  assert (Hloop : forall r0,
            verdict (for_each (enumerate1 (split_lines code))
                       (fun '(i, ln) result =>
                          for_each artifact_patterns
                            (fun pattern result =>
                               if found pattern (lower ln)
                               then add_issue WARNING "Possible ML artifact detected"
                                              (Some i) result
                               else result) result) r0) = verdict r0).
  { apply for_each_verdict. intros [i ln] r0.
    apply for_each_verdict. intros pattern r1.
    destruct (found pattern (lower ln)); reflexivity. }
  destruct (found re_fence code); [|apply Hloop].
  rewrite <- (Hloop r). reflexivity.
Qed.

Lemma python_line_checks_verdict (code : string) (r : ValidationResult) :
  verdict (python_line_checks code r) = verdict r.
Proof.
  unfold python_line_checks. apply for_each_verdict. intros [i ln] r0.
  destruct (endswith ";" (strip ln) && negb (endswith "';" (strip ln)));
    destruct (contains "{" ln || contains "}" ln);
    destruct (startswith " " ln && negb (startswith "    " ln)
              && negb (startswith "        " ln));
    destruct (truthy (strip ln)); reflexivity.
Qed.

Lemma assembly_verdict (code : string) (r : ValidationResult) :
  verdict (_validate_assembly code r) = verdict r.
Proof.
  unfold _validate_assembly. apply for_each_verdict. intros [i ln] r0.
  destruct (negb (truthy (lower (strip ln))) || startswith ";" (lower (strip ln)));
    [reflexivity|].
  destruct (split_ws_1 (lower (strip ln))) as [|instruction rest]; [reflexivity|].
  destruct (endswith ":" instruction); [reflexivity|].
  destruct (negb (in_list instruction valid_instructions)); reflexivity.
Qed.

Lemma consistency_verdict (code target_language : string) (si : SourceInfo)
      (r : ValidationResult) :
  verdict (_validate_consistency code target_language si r) = verdict r.
Proof.
  unfold _validate_consistency. cbv zeta.
  destruct (si_classes si), (si_functions si);
    rewrite ?for_each_verdict; try reflexivity;
    intros a r0; destruct (negb (contains a code)); reflexivity.
Qed.

Lemma assess_quality_verdict (code target_language : string) (r : ValidationResult) :
  verdict (_assess_quality code target_language r) = verdict r.
Proof.
  unfold _assess_quality, _assess_python_quality. cbv zeta.
  split_ifs; reflexivity.
Qed.

(** What [validate] does with a text that is not blank. *)
Lemma validate_nonblank (ast_parse : string -> parse_result) (code target_language : string)
      (source_info : option SourceInfo) :
  blank code = false ->
  validate ast_parse code target_language source_info
  = match validate_language ast_parse code target_language
            (_validate_basic_structure code target_language new_result) with
    | Raised e => Raised e
    | Returned r =>
        Returned (_assess_quality code target_language
                    (match source_info with
                     | Some si => _validate_consistency code target_language si r
                     | None => r
                     end))
    end.
Proof. intro Hb. unfold validate. fold (blank code). now rewrite Hb. Qed.

Lemma tail_verdict (code target_language : string) (source_info : option SourceInfo)
      (r : ValidationResult) :
  verdict (_assess_quality code target_language
             (match source_info with
              | Some si => _validate_consistency code target_language si r
              | None => r
              end)) = verdict r.
Proof.
  rewrite assess_quality_verdict. destruct source_info; [apply consistency_verdict | reflexivity].
Qed.

(** *** Java and JavaScript: the braces of the whole text *)

(** Opening minus closing braces (parentheses) over the whole text. *)
Definition brace_diff (code : string) : Z := (count_char "{" code - count_char "}" code)%Z.
Definition paren_diff (code : string) : Z := (count_char "(" code - count_char ")" code)%Z.

Definition lines_diff (o c : ascii) (lines : list string) : Z :=
  (total_count o lines - total_count c lines)%Z.

Lemma c_like_loop_state (l : list (Z * string)) :
  forall b p r,
    exists r',
      for_each l c_like_line (b, p, r)
      = ((b + lines_diff "{" "}" (map snd l))%Z, (p + lines_diff "(" ")" (map snd l))%Z, r')
      /\ verdict r' = verdict r.
Proof.
  induction l as [|[i ln] t IH]; intros b p r.
  - exists r. unfold lines_diff. simpl. split; [|reflexivity].
    unfold for_each. simpl. now rewrite !Z.add_0_r.
  - unfold for_each in *. cbn [fold_left]. unfold c_like_line at 2.
    set (r1 := if lacks_semicolon (strip ln)
               then add_issue WARNING "Possible missing semicolon" (Some i) r else r).
    assert (H1 : verdict r1 = verdict r)
      by (unfold r1; destruct (lacks_semicolon (strip ln)); reflexivity).
    destruct (IH (b + (count_char "{" ln - count_char "}" ln))%Z
                 (p + (count_char "(" ln - count_char ")" ln))%Z r1) as [r' [E Hv]].
    exists r'. split; [|now rewrite Hv].
    rewrite E. unfold lines_diff. cbn [map snd total_count fold_right].
    fold (total_count "{" (map snd t)). fold (total_count "}" (map snd t)).
    fold (total_count "(" (map snd t)). fold (total_count ")" (map snd t)).
    repeat (f_equal; try lia).
Qed.

Definition brace_issue (n : Z) : Issue :=
  mkIssue ("Unmatched braces: " ++ str_of_Z n) None "error".

(** The verdict a brace difference leads to. *)
Definition brace_verdict (n : Z) : bool * list Issue :=
  if (n =? 0)%Z then (true, []) else (false, [brace_issue n]).

Lemma c_like_verdict (code target_language : string) (r : ValidationResult) :
  verdict r = (true, []) ->
  verdict (_validate_c_like code target_language r) = brace_verdict (brace_diff code).
Proof.
  intro Hr. unfold _validate_c_like. cbv zeta.
  destruct (c_like_loop_state (enumerate1 (split_lines code)) 0 0 r) as [r' [E Hv]].
  rewrite E. unfold enumerate1. rewrite map_snd_enumerate.
  unfold lines_diff, split_lines.
  rewrite !total_count_split by reflexivity.
  rewrite !Z.add_0_l. fold (brace_diff code). fold (paren_diff code).
  rewrite Hr in Hv. unfold verdict in Hv. injection Hv as Hvalid Herr.
  unfold brace_verdict.
  destruct (brace_diff code =? 0)%Z; cbn [negb];
    destruct (negb (paren_diff code =? 0)%Z); unfold verdict; cbn [is_valid errors add_issue];
    rewrite ?Hvalid, ?Herr; reflexivity.
Qed.


(** *** Targets that record no error of their own *)

Lemma other_language_verdict (ast_parse : string -> parse_result)
      (code target_language : string) (r : ValidationResult) :
  String.eqb (lower target_language) "python" = false ->
  in_list (lower target_language) ["java"; "javascript"] = false ->
  exists r', validate_language ast_parse code target_language r = Returned r'
             /\ verdict r' = verdict r.
Proof.
  intros Hp Hj. unfold validate_language. rewrite Hp, Hj.
  destruct (String.eqb (lower target_language) "assembly").
  - eexists. split; [reflexivity | apply assembly_verdict].
  - now exists r.
Qed.

Lemma c_like_tag_not_python (target_language : string) :
  in_list (lower target_language) ["java"; "javascript"] = true ->
  String.eqb (lower target_language) "python" = false.
Proof.
  intro H. destruct (String.eqb (lower target_language) "python") eqn:E; [|reflexivity].
  apply String.eqb_eq in E. rewrite E in H. discriminate.
Qed.

(** *** Soundness of the flag *)

Definition sound (r : ValidationResult) : Prop :=
  is_valid r = match errors r with [] => true | _ => false end.

Lemma add_issue_sound (lv : ValidationLevel) (msg : string) (ln : option Z)
      (r : ValidationResult) :
  sound r -> sound (add_issue lv msg ln r).
Proof.
  unfold sound. intro H. destruct lv; cbn [add_issue is_valid errors]; [|exact H|exact H].
  destruct (errors r); reflexivity.
Qed.

Lemma replay_sound (evs : list event) (r : ValidationResult) :
  sound r -> sound (replay evs r).
Proof.
  revert r. induction evs as [|[[lv msg] ln] t IH]; intros r H.
  - exact H.
  - change (replay ((lv, msg, ln) :: t) r) with (replay t (add_issue lv msg ln r)).
    apply IH. now apply add_issue_sound.
Qed.

Lemma sound_verdict (r r' : ValidationResult) :
  verdict r' = verdict r -> sound r -> sound r'.
Proof. unfold verdict, sound. intros E H. injection E as -> ->. exact H. Qed.

Lemma sound_iff (r : ValidationResult) :
  sound r -> (is_valid r = true <-> errors r = []).
Proof.
  unfold sound. intros ->. destruct (errors r); split; intro H; try reflexivity; discriminate.
Qed.

(** *** Bounds on the confidence *)

(** The two quality steps, applied when their conditions hold. *)
Definition quality_step (short repetitive : bool) (c : float) : float :=
  let c := if short then short_step c else c in
  if repetitive then repetition_step c else c.

Lemma penalise_info_only (levels : list ValidationLevel) (c : float) :
  count_level ERROR levels = 0%nat -> count_level WARNING levels = 0%nat ->
  penalise levels c = c.
Proof.
  revert c. induction levels as [|lv t IH]; intros c He Hw; [reflexivity|].
  unfold count_level in *. destruct lv; simpl in *; try discriminate.
  now apply IH.
Qed.

Lemma reachable_capped (b : float) :
  forallb (fun c => negb (leb c b)
                    || (leb (penalty ERROR c) b && leb (penalty WARNING c) b)) reachable = true ->
  forall levels c,
    mem c reachable = true -> leb c b = true -> leb (penalise levels c) b = true.
Proof.
  intros Hall levels. induction levels as [|lv t IH]; intros c Hc Hb; [exact Hb|].
  simpl. apply IH; [now apply reachable_penalty|].
  pose proof (mem_forallb _ _ _ Hall Hc) as H. cbv beta in H.
  rewrite Hb in H. cbn [negb orb] in H. apply andb_prop in H. destruct H as [He Hw].
  destruct lv; assumption.
Qed.

Lemma penalise_capped (lv : ValidationLevel) (b : float) :
  forallb (fun c => negb (leb c b)
                    || (leb (penalty ERROR c) b && leb (penalty WARNING c) b)) reachable = true ->
  forallb (fun c => leb (penalty lv c) b) reachable = true ->
  forall levels c,
    mem c reachable = true -> count_level lv levels <> 0%nat ->
    leb (penalise levels c) b = true.
Proof.
  intros Hkeep Hfirst levels. induction levels as [|x t IH]; intros c Hc Hn.
  - now destruct Hn.
  - simpl. destruct (is_level lv x) eqn:E.
    + assert (x = lv) by (destruct lv, x; try discriminate; reflexivity). subst x.
      apply (reachable_capped b Hkeep); [now apply reachable_penalty|].
      exact (mem_forallb _ _ _ Hfirst Hc).
    + apply IH; [now apply reachable_penalty|].
      unfold count_level in *. simpl in Hn. now rewrite E in Hn.
Qed.

Lemma quality_step_capped (b : float) (short repetitive : bool) (c : float) :
  forallb (fun c => negb (leb c b)
                    || (leb (short_step c) b && leb (repetition_step c) b
                        && leb (repetition_step (short_step c)) b)) reachable = true ->
  mem c reachable = true -> leb c b = true ->
  leb (quality_step short repetitive c) b = true.
Proof.
  intros Hall Hc Hb. pose proof (mem_forallb _ _ _ Hall Hc) as H. cbv beta in H.
  rewrite Hb in H. cbn [negb orb] in H.
  apply andb_prop in H. destruct H as [H H3].
  apply andb_prop in H. destruct H as [H1 H2].
  unfold quality_step. destruct short, repetitive; assumption.
Qed.

Lemma keeps_0_8 :
  forallb (fun c => negb (leb c f0_8)
                    || (leb (penalty ERROR c) f0_8 && leb (penalty WARNING c) f0_8))
          reachable = true.
Proof. vm_compute. reflexivity. Qed.

Lemma keeps_0_9 :
  forallb (fun c => negb (leb c f0_9)
                    || (leb (penalty ERROR c) f0_9 && leb (penalty WARNING c) f0_9))
          reachable = true.
Proof. vm_compute. reflexivity. Qed.

Lemma error_gives_0_8 : forallb (fun c => leb (penalty ERROR c) f0_8) reachable = true.
Proof. vm_compute. reflexivity. Qed.

Lemma warning_gives_0_9 : forallb (fun c => leb (penalty WARNING c) f0_9) reachable = true.
Proof. vm_compute. reflexivity. Qed.

Lemma quality_keeps_0_8 :
  forallb (fun c => negb (leb c f0_8)
                    || (leb (short_step c) f0_8 && leb (repetition_step c) f0_8
                        && leb (repetition_step (short_step c)) f0_8)) reachable = true.
Proof. vm_compute. reflexivity. Qed.

Lemma quality_keeps_0_9 :
  forallb (fun c => negb (leb c f0_9)
                    || (leb (short_step c) f0_9 && leb (repetition_step c) f0_9
                        && leb (repetition_step (short_step c)) f0_9)) reachable = true.
Proof. vm_compute. reflexivity. Qed.

Lemma repetition_below_0_9 :
  forallb (fun c => leb (repetition_step c) f0_9
                    && leb (repetition_step (short_step c)) f0_9) reachable = true.
Proof. vm_compute. reflexivity. Qed.

Lemma short_floor :
  forallb (fun c => leb f0_5 (short_step c)
                    && leb f0_5 (repetition_step (short_step c))) reachable = true.
Proof. vm_compute. reflexivity. Qed.

(** *** The quality estimate *)

Lemma clamp_in_unit (q : float) : in_unit (py_max f0_0 (py_min f1_0 q)) = true.
Proof.
  unfold py_max, py_min.
  destruct (ltb q f1_0) eqn:E1.
  - destruct (ltb f0_0 q) eqn:E0.
    + unfold in_unit. now rewrite (CodeGenFacts.ltb_leb _ _ E0), (CodeGenFacts.ltb_leb _ _ E1).
    + reflexivity.
  - reflexivity.
Qed.

(** *** The properties *)

(** A text of whitespace only, the empty text included, is answered with
    one error and the confidence 0.8, whatever the target language and the
    source information: no pass runs and the parser is not consulted. *)
Theorem validate_of_blank_text :
  forall (ast_parse : string -> parse_result) (code target_language : string)
         (source_info : option SourceInfo),
    all_space code = true ->
    validate ast_parse code target_language source_info
    = Returned (mkResult false [mkIssue "Generated code is empty" None "error"]
                         [] [] [] f0_8).
Proof.
  intros ast_parse code target_language source_info H.
  unfold validate. apply strip_empty in H. rewrite H.
  cbn [truthy negb]. rewrite orb_true_r. reflexivity.
Qed.

Lemma validate_of_blank_text_witness :
  all_space ("  " ++ newline ++ " ") = true
  /\ validate (fun _ => ParseRaises (OtherError "unused")) ("  " ++ newline ++ " ")
              "python" None
     = Returned (mkResult false [mkIssue "Generated code is empty" None "error"]
                          [] [] [] f0_8).
Proof.
  split; [reflexivity|].
  exact (validate_of_blank_text (fun _ => ParseRaises (OtherError "unused"))
                                ("  " ++ newline ++ " ") "python" None eq_refl).
Defined.

(** In every result of [validate] the flag [is_valid] is true exactly when
    the list of errors is empty. *)
Theorem valid_exactly_without_errors :
  forall (ast_parse : string -> parse_result) (code target_language : string)
         (source_info : option SourceInfo),
    match validate ast_parse code target_language source_info with
    | Returned r => is_valid r = true <-> errors r = []
    | Raised e => ast_parse code = ParseRaises e /\ lower target_language = "python"
    end.
Proof.
  intros ast_parse code target_language source_info.
  pose proof (validate_shape ast_parse code target_language source_info) as H.
  destruct (validate ast_parse code target_language source_info) as [r|e]; [|exact H].
  destruct H as [evs ->]. apply sound_iff.
  assert (Hs : sound (replay evs new_result)) by (apply replay_sound; reflexivity).
  destruct (blank code); [exact Hs|].
  apply (sound_verdict (replay evs new_result)); [apply assess_quality_verdict | exact Hs].
Qed.

Lemma c_like_validate_result :
  forall (ast_parse : string -> parse_result) (code target_language : string)
         (source_info : option SourceInfo),
    in_list (lower target_language) ["java"; "javascript"] = true ->
    blank code = false ->
    exists r,
      validate ast_parse code target_language source_info = Returned r
      /\ is_valid r = (brace_diff code =? 0)%Z
      /\ errors r = (if (brace_diff code =? 0)%Z then []
                     else [mkIssue ("Unmatched braces: " ++ str_of_Z (brace_diff code))
                                   None "error"]).
Proof.
  intros ast_parse code target_language source_info Hl Hb.
  rewrite (validate_nonblank ast_parse code target_language source_info Hb).
  unfold validate_language. rewrite (c_like_tag_not_python target_language Hl), Hl.
  eexists. split; [reflexivity|].
  pose proof (tail_verdict code target_language source_info
                (_validate_c_like code target_language
                   (_validate_basic_structure code target_language new_result))) as Hv.
  rewrite (c_like_verdict code target_language) in Hv
    by (now rewrite basic_structure_verdict).
  unfold verdict, brace_verdict in Hv.
  destruct (brace_diff code =? 0)%Z; injection Hv as -> ->; split; reflexivity.
Qed.

(** For Java and JavaScript (the tag in any letter case) and a text that is
    not blank, the only possible error is the brace error: the result is
    valid exactly when the text has as many opening as closing braces, and
    otherwise its one error gives the difference, counted over the whole
    text. *)
Theorem c_like_errors_are_the_brace_balance :
  forall (ast_parse : string -> parse_result) (code target_language : string)
         (source_info : option SourceInfo),
    in_list (lower target_language) ["java"; "javascript"] = true ->
    blank code = false ->
    exists r,
      validate ast_parse code target_language source_info = Returned r
      /\ is_valid r = (brace_diff code =? 0)%Z
      /\ errors r = (if (brace_diff code =? 0)%Z then []
                     else [mkIssue ("Unmatched braces: " ++ str_of_Z (brace_diff code))
                                   None "error"]).
Proof. exact c_like_validate_result. Qed.

Lemma c_like_errors_are_the_brace_balance_witness :
  in_list (lower "Java") ["java"; "javascript"] = true
  /\ blank "void f() { g(); }}" = false
  /\ exists r,
      validate accepting_parser "void f() { g(); }}" "Java" None = Returned r
      /\ is_valid r = (brace_diff "void f() { g(); }}" =? 0)%Z
      /\ errors r = (if (brace_diff "void f() { g(); }}" =? 0)%Z then []
                     else [mkIssue ("Unmatched braces: "
                                    ++ str_of_Z (brace_diff "void f() { g(); }}"))
                                   None "error"]).
Proof.
  split; [reflexivity|]. split; [reflexivity|].
  exact (c_like_errors_are_the_brace_balance accepting_parser "void f() { g(); }}" "Java"
                                             None eq_refl eq_refl).
Defined.

(** For assembly, and for any tag that is none of python, java and
    javascript, a text that is not blank is always reported valid, with no
    error: those targets only ever draw warnings. *)
Theorem other_targets_are_always_valid :
  forall (ast_parse : string -> parse_result) (code target_language : string)
         (source_info : option SourceInfo),
    in_list (lower target_language) ["python"; "java"; "javascript"] = false ->
    blank code = false ->
    exists r,
      validate ast_parse code target_language source_info = Returned r
      /\ is_valid r = true /\ errors r = [].
Proof.
  intros ast_parse code target_language source_info Hl Hb.
  rewrite (validate_nonblank ast_parse code target_language source_info Hb).
  assert (Hp : String.eqb (lower target_language) "python" = false).
  { unfold in_list in Hl. simpl in Hl. now destruct (String.eqb (lower target_language) "python"). }
  assert (Hj : in_list (lower target_language) ["java"; "javascript"] = false).
  { unfold in_list in *. simpl in *. rewrite Hp in Hl. exact Hl. }
  destruct (other_language_verdict ast_parse code target_language
              (_validate_basic_structure code target_language new_result) Hp Hj)
    as [r' [-> Hv]].
  eexists. split; [reflexivity|].
  pose proof (tail_verdict code target_language source_info r') as Ht.
  rewrite Hv, basic_structure_verdict in Ht by exact Hb.
  unfold verdict in Ht. injection Ht as -> ->. split; reflexivity.
Qed.

Lemma other_targets_are_always_valid_witness :
  in_list (lower "Assembly") ["python"; "java"; "javascript"] = false
  /\ blank "class Foo { void bar() {" = false
  /\ exists r,
      validate accepting_parser "class Foo { void bar() {" "Assembly" None = Returned r
      /\ is_valid r = true /\ errors r = [].
Proof.
  split; [reflexivity|]. split; [reflexivity|].
  exact (other_targets_are_always_valid accepting_parser "class Foo { void bar() {"
                                        "Assembly" None eq_refl eq_refl).
Defined.

Lemma python_validate_cases :
  forall (ast_parse : string -> parse_result) (code target_language : string)
         (source_info : option SourceInfo),
    lower target_language = "python" ->
    blank code = false ->
    match ast_parse code with
    | ParseOk =>
        exists r, validate ast_parse code target_language source_info = Returned r
                  /\ is_valid r = true /\ errors r = []
    | ParseSyntaxError msg lineno =>
        exists r, validate ast_parse code target_language source_info = Returned r
                  /\ is_valid r = false
                  /\ errors r = [mkIssue ("Python syntax error: " ++ msg) lineno "error"]
    | ParseRaises e => validate ast_parse code target_language source_info = Raised e
    end.
Proof.
  intros ast_parse code target_language source_info Hl Hb.
  rewrite (validate_nonblank ast_parse code target_language source_info Hb).
  unfold validate_language, _validate_python. rewrite Hl. cbn [String.eqb Ascii.eqb Bool.eqb].
  change (if (String.eqb "python" "python") then ?a else ?b) with a.
  destruct (ast_parse code) as [|msg lineno|e]; [| |reflexivity].
  - eexists. split; [reflexivity|].
    pose proof (tail_verdict code target_language source_info
                  (python_line_checks code
                     (_validate_basic_structure code target_language new_result))) as Ht.
    rewrite python_line_checks_verdict, basic_structure_verdict in Ht by exact Hb.
    unfold verdict in Ht. injection Ht as -> ->. split; reflexivity.
  - set (r0 := _validate_basic_structure code target_language new_result).
    set (r1 := add_issue ERROR ("Python syntax error: " ++ msg) lineno r0).
    assert (Hv1 : verdict r1
                  = (false, [mkIssue ("Python syntax error: " ++ msg) lineno "error"])).
    { pose proof (basic_structure_verdict code target_language new_result Hb) as Hbv.
      fold r0 in Hbv. unfold verdict in *. injection Hbv as _ Hbe.
      unfold r1. cbn [add_issue is_valid errors]. now rewrite Hbe. }
    eexists. split; [reflexivity|].
    pose proof (tail_verdict code target_language source_info
                  (python_line_checks code r1)) as Ht.
    rewrite python_line_checks_verdict, Hv1 in Ht.
    unfold verdict in Ht. injection Ht as -> ->. split; reflexivity.
Qed.

(** For Python and a text that is not blank, the verdict is the parser's:
    no error when the text parses, the one syntax error (with the parser's
    message and line) when it does not, and no result at all when the parser
    raises something else. *)
Theorem python_errors_are_the_parser_s :
  forall (ast_parse : string -> parse_result) (code target_language : string)
         (source_info : option SourceInfo),
    lower target_language = "python" ->
    blank code = false ->
    match ast_parse code with
    | ParseOk =>
        exists r, validate ast_parse code target_language source_info = Returned r
                  /\ is_valid r = true /\ errors r = []
    | ParseSyntaxError msg lineno =>
        exists r, validate ast_parse code target_language source_info = Returned r
                  /\ is_valid r = false
                  /\ errors r = [mkIssue ("Python syntax error: " ++ msg) lineno "error"]
    | ParseRaises e => validate ast_parse code target_language source_info = Raised e
    end.
Proof. exact python_validate_cases. Qed.

(** A parser that rejects every text at line 1. *)
Definition rejecting_parser (code : string) : parse_result :=
  ParseSyntaxError "invalid syntax" (Some 1%Z).

Lemma python_errors_are_the_parser_s_witness :
  lower "Python" = "python"
  /\ blank "x = = 1" = false
  /\ exists r, validate rejecting_parser "x = = 1" "Python" None = Returned r
               /\ is_valid r = false
               /\ errors r = [mkIssue ("Python syntax error: " ++ "invalid syntax")
                                      (Some 1%Z) "error"].
Proof.
  split; [reflexivity|]. split; [reflexivity|].
  exact (python_errors_are_the_parser_s rejecting_parser "x = = 1" "Python" None
                                        eq_refl eq_refl).
Defined.

(** A result without errors and without warnings has the confidence 1.0, or
    0.9 when the text is a single short line. *)
Theorem clean_result_confidence :
  forall (ast_parse : string -> parse_result) (code target_language : string)
         (source_info : option SourceInfo) (r : ValidationResult),
    validate ast_parse code target_language source_info = Returned r ->
    errors r = [] -> warnings r = [] ->
    confidence r = (if is_short code then f0_9 else f1_0).
Proof.
  intros ast_parse code target_language source_info r Hr He Hw.
  pose proof (validate_levels ast_parse code target_language source_info) as H.
  rewrite Hr in H. destruct H as [levels [Hc [Hne Hnw]]].
  rewrite He in Hne. rewrite Hw in Hnw. simpl in Hne, Hnw.
  destruct (is_repetitive code); [lia|].
  rewrite Hc. unfold spec_confidence.
  rewrite penalise_info_only by lia.
  destruct (is_short code); reflexivity.
Qed.

Lemma clean_result_confidence_witness :
  validate accepting_parser "mov eax, 1" "assembly" None
  = Returned (mkResult true [] []
                [mkIssue "Very short translation - may be incomplete" None "info"] [] f0_9)
  /\ confidence (mkResult true [] []
                   [mkIssue "Very short translation - may be incomplete" None "info"] [] f0_9)
     = (if is_short "mov eax, 1" then f0_9 else f1_0).
Proof.
  split; [vm_compute; reflexivity|].
  exact (clean_result_confidence accepting_parser "mov eax, 1" "assembly" None
           (mkResult true [] []
              [mkIssue "Very short translation - may be incomplete" None "info"] [] f0_9)
           eq_refl eq_refl eq_refl).
Defined.

(** One short line that draws three artifact warnings, a markdown warning
    and a brace error. *)
Definition noisy_line : string := "here is the following translation: ```{".

(** The bounds on the confidence of a result: a text that is a single short
    line never falls below 0.5, however many errors and warnings are
    recorded; a result with an error has at most 0.8, and a result with a
    warning at most 0.9. *)
Theorem confidence_bounds :
  forall (ast_parse : string -> parse_result) (code target_language : string)
         (source_info : option SourceInfo) (r : ValidationResult),
    validate ast_parse code target_language source_info = Returned r ->
    (is_short code = true -> leb f0_5 (confidence r) = true)
    /\ (errors r <> [] -> leb (confidence r) f0_8 = true)
    /\ (warnings r <> [] -> leb (confidence r) f0_9 = true).
Proof.
  intros ast_parse code target_language source_info r Hr.
  pose proof (validate_levels ast_parse code target_language source_info) as H.
  rewrite Hr in H. destruct H as [levels [Hc [Hne Hnw]]].
  assert (Hm : mem (penalise levels f1_0) reachable = true)
    by (apply reachable_penalise; exact reachable_start).
  split; [|split]; intro Hn.
  - rewrite Hc, Hn. unfold spec_confidence.
    pose proof (mem_forallb _ _ _ short_floor Hm) as Hf. cbv beta in Hf.
    apply andb_prop in Hf. destruct Hf as [H1 H2].
    destruct (is_repetitive code); assumption.
  - rewrite Hc. change (spec_confidence levels (is_short code) (is_repetitive code))
      with (quality_step (is_short code) (is_repetitive code) (penalise levels f1_0)).
    apply (quality_step_capped f0_8 _ _ _ quality_keeps_0_8 Hm).
    apply (penalise_capped ERROR f0_8 keeps_0_8 error_gives_0_8 levels f1_0 reachable_start).
    rewrite <- Hne. destruct (errors r); [congruence | discriminate].
  - rewrite Hc. change (spec_confidence levels (is_short code) (is_repetitive code))
      with (quality_step (is_short code) (is_repetitive code) (penalise levels f1_0)).
    destruct (count_level WARNING levels) as [|n] eqn:Ew.
    + destruct (is_repetitive code).
      * pose proof (mem_forallb _ _ _ repetition_below_0_9 Hm) as Hf. cbv beta in Hf.
        apply andb_prop in Hf. destruct Hf as [H1 H2].
        unfold quality_step. destruct (is_short code); assumption.
      * destruct (warnings r); [congruence | discriminate].
    + apply (quality_step_capped f0_9 _ _ _ quality_keeps_0_9 Hm).
      apply (penalise_capped WARNING f0_9 keeps_0_9 warning_gives_0_9 levels f1_0
                             reachable_start).
      now rewrite Ew.
Qed.

(** What [validate] returns for that line as java. *)
Definition noisy_result : ValidationResult :=
  _assess_quality noisy_line "java"
    (_validate_c_like noisy_line "java"
       (_validate_basic_structure noisy_line "java" new_result)).

Lemma confidence_bounds_witness :
  validate accepting_parser noisy_line "java" None = Returned noisy_result
  /\ is_short noisy_line = true
  /\ errors noisy_result <> []
  /\ warnings noisy_result <> []
  /\ leb f0_5 (confidence noisy_result) = true
  /\ leb (confidence noisy_result) f0_8 = true
  /\ leb (confidence noisy_result) f0_9 = true.
Proof.
  assert (Hs : is_short noisy_line = true) by (vm_compute; reflexivity).
  assert (He : errors noisy_result <> []) by (vm_compute; discriminate).
  assert (Hw : warnings noisy_result <> []) by (vm_compute; discriminate).
  destruct (confidence_bounds accepting_parser noisy_line "java" None noisy_result eq_refl)
    as [H1 [H2 H3]].
  repeat split; auto.
Defined.

(** The quality estimate lies within [0.0, 1.0] for every dict it is given:
    keys may be missing, the lists may have any length, and the confidence
    may be any float, NaN and the infinities included. *)
Theorem quality_estimate_within_unit_interval :
  forall (source_info : option SourceInfo) (translation_result : ResultDict),
    in_unit (estimate_translation_quality source_info translation_result) = true.
Proof.
  intros source_info translation_result.
  unfold estimate_translation_quality. cbv zeta. apply clamp_in_unit.
Qed.

(** For a result of [validate] without errors and without warnings the
    quality estimate is exactly 1.0. *)
Theorem quality_estimate_of_clean_result :
  forall (ast_parse : string -> parse_result) (code target_language : string)
         (source_info : option SourceInfo) (r : ValidationResult),
    validate ast_parse code target_language source_info = Returned r ->
    errors r = [] -> warnings r = [] ->
    estimate_translation_quality source_info (dict_of r) = f1_0.
Proof.
  intros ast_parse code target_language source_info r Hr He Hw.
  assert (Hc : confidence r = (if is_short code then f0_9 else f1_0)).
  { pose proof (validate_levels ast_parse code target_language source_info) as H.
    rewrite Hr in H. destruct H as [levels [Hc [Hne Hnw]]].
    rewrite He in Hne. rewrite Hw in Hnw. simpl in Hne, Hnw.
    destruct (is_repetitive code); [lia|].
    rewrite Hc. unfold spec_confidence.
    rewrite penalise_info_only by lia.
    destruct (is_short code); reflexivity. }
  unfold estimate_translation_quality, dict_of, get.
  cbn [d_confidence d_errors d_warnings]. rewrite He, Hw, Hc.
  destruct (is_short code); vm_compute; reflexivity.
Qed.

Lemma quality_estimate_of_clean_result_witness :
  validate accepting_parser "mov eax, 1" "assembly" None
  = Returned (mkResult true [] []
                [mkIssue "Very short translation - may be incomplete" None "info"] [] f0_9)
  /\ estimate_translation_quality None
       (dict_of (mkResult true [] []
                   [mkIssue "Very short translation - may be incomplete" None "info"] []
                   f0_9)) = f1_0.
Proof.
  split; [vm_compute; reflexivity|].
  exact (quality_estimate_of_clean_result accepting_parser "mov eax, 1" "assembly" None
           (mkResult true [] []
              [mkIssue "Very short translation - may be incomplete" None "info"] [] f0_9)
           eq_refl eq_refl eq_refl).
Defined.
(** *** Syntax compatibility *)

Lemma messages_bound (code : string) (patterns : list (string * regex)) :
  forall acc,
    (List.length
       (fold_left
          (fun error_messages (p : string * regex) =>
             if found (snd p) code
             then (error_messages ++ [("Invalid pattern detected: " ++ fst p)%string])%list
             else error_messages) patterns acc)
     <= List.length acc + List.length patterns)%nat.
Proof.
  induction patterns as [|p t IH]; intro acc; cbn [fold_left List.length]; [lia|].
  destruct (found (snd p) code).
  - specialize (IH (acc ++ [("Invalid pattern detected: " ++ fst p)%string])%list).
    rewrite List.length_app in IH. cbn [List.length] in IH. lia.
  - specialize (IH acc). lia.
Qed.

Lemma invalid_patterns_bound (language : string) :
  (List.length (invalid_patterns language) <= 3)%nat.
Proof. unfold invalid_patterns. split_ifs; simpl; lia. Qed.

Lemma invalid_patterns_unknown (language : string) :
  in_list language ["python"; "java"; "javascript"; "assembly"] = false ->
  invalid_patterns language = [].
Proof.
  unfold in_list, invalid_patterns. simpl. intro H.
  destruct (String.eqb language "python"); [discriminate|].
  destruct (String.eqb language "java"); [discriminate|].
  destruct (String.eqb language "javascript"); [discriminate|].
  destruct (String.eqb language "assembly"); [discriminate|].
  reflexivity.
Qed.

(** The compatibility flag is true exactly when no message is returned, and
    at most three messages are returned; the call raises only what the parser
    raises for a Python target; for a tag that is none of the four languages
    every text is compatible. *)
Theorem compatible_exactly_without_messages :
  forall (ast_parse : string -> parse_result) (code target_language : string),
    match check_syntax_compatibility ast_parse code target_language with
    | Returned (is_compatible, error_messages) =>
        (is_compatible = true <-> error_messages = [])
        /\ (List.length error_messages <= 3)%nat
        /\ (in_list (lower target_language) ["python"; "java"; "javascript"; "assembly"]
            = false -> is_compatible = true)
    | Raised e => lower target_language = "python" /\ ast_parse code = ParseRaises e
    end.
Proof.
  intros ast_parse code target_language. unfold check_syntax_compatibility. cbv zeta.
  destruct (String.eqb (lower target_language) "python") eqn:Ep.
  - apply String.eqb_eq in Ep.
    destruct (ast_parse code) as [|msg lineno|e].
    + split; [split; reflexivity|]. split; [simpl; lia | reflexivity].
    + split; [split; discriminate|]. split; [simpl; lia|].
      rewrite Ep. discriminate.
    + auto.
  - pose proof (messages_bound code (invalid_patterns (lower target_language)) []) as Hb.
    pose proof (invalid_patterns_bound (lower target_language)) as H3.
    split; [|split].
    + destruct (fold_left _ _ _); simpl; split; intro H; try reflexivity; discriminate.
    + exact (Nat.le_trans _ _ _ Hb H3).
    + intro Hu. rewrite (invalid_patterns_unknown _ Hu). reflexivity.
Qed.

(** For a Python target and a text that is not blank the two entry points
    agree: the compatibility flag is the [is_valid] of [validate], the
    messages are the messages of its errors, and one raises exactly when the
    other does. *)
Theorem python_compatibility_agrees_with_validate :
  forall (ast_parse : string -> parse_result) (code target_language : string)
         (source_info : option SourceInfo),
    lower target_language = "python" ->
    blank code = false ->
    match validate ast_parse code target_language source_info,
          check_syntax_compatibility ast_parse code target_language with
    | Returned r, Returned (is_compatible, error_messages) =>
        is_compatible = is_valid r /\ error_messages = map message (errors r)
    | Raised e, Raised e' => e = e'
    | _, _ => False
    end.
Proof.
  intros ast_parse code target_language source_info Hl Hb.
  pose proof (python_validate_cases ast_parse code target_language source_info Hl Hb) as H.
  unfold check_syntax_compatibility. cbv zeta. rewrite Hl.
  change (String.eqb "python" "python") with true. cbv iota.
  destruct (ast_parse code) as [|msg lineno|e].
  - destruct H as [r [-> [-> ->]]]. split; reflexivity.
  - destruct H as [r [-> [-> ->]]]. split; reflexivity.
  - rewrite H. reflexivity.
Qed.

Lemma python_compatibility_agrees_with_validate_witness :
  lower "python" = "python"
  /\ blank "x = = 1" = false
  /\ match validate rejecting_parser "x = = 1" "python" None,
           check_syntax_compatibility rejecting_parser "x = = 1" "python" with
     | Returned r, Returned (is_compatible, error_messages) =>
         is_compatible = is_valid r /\ error_messages = map message (errors r)
     | Raised e, Raised e' => e = e'
     | _, _ => False
     end.
Proof.
  split; [reflexivity|]. split; [reflexivity|].
  exact (python_compatibility_agrees_with_validate rejecting_parser "x = = 1" "python" None
                                                   eq_refl eq_refl).
Defined.

End ValidatorProps.

(** ** The order in which the validator records its issues *)

Module ValidatorOrder.

Import PyStr Re Float Validator ValidatorFacts TextFacts ValidatorProps.
Local Open Scope string_scope.

(** The number of warnings a pass records, counted on a fresh result. *)
Definition warnings_of (pass : ValidationResult -> ValidationResult) : nat :=
  List.length (warnings (pass new_result)).

(** [n] warnings in a row; one issue of a level when a condition holds. *)
Definition warned (n : nat) : list ValidationLevel := repeat WARNING n.

Definition when (b : bool) (lv : ValidationLevel) : list ValidationLevel :=
  if b then [lv] else [].

(** The loop of [_validate_c_like] on its own: the result it leaves. *)
Definition c_like_scan (code : string) (result : ValidationResult) : ValidationResult :=
  snd (for_each (enumerate1 (split_lines code)) c_like_line (0%Z, 0%Z, result)).

(** The levels of the errors and warnings the language pass records, in the
    order of its [add_issue] calls. Python: the syntax error, if the parser
    reports one, then the warnings of the line checks. Java and JavaScript:
    the missing-semicolon warnings of the loop, then the brace error, then
    the parenthesis warning. Assembly: the warnings for unknown instructions.
    Any other tag: nothing. *)
Definition language_levels (ast_parse : string -> parse_result)
           (code target_language : string) : list ValidationLevel :=
  if String.eqb (lower target_language) "python"
  then match ast_parse code with
       | ParseSyntaxError _ _ => [ERROR]
       | _ => []
       end ++ warned (warnings_of (python_line_checks code))
  else if in_list (lower target_language) ["java"; "javascript"]
       then warned (warnings_of (c_like_scan code))
            ++ when (negb (brace_diff code =? 0)%Z) ERROR
            ++ when (negb (paren_diff code =? 0)%Z) WARNING
       else if String.eqb (lower target_language) "assembly"
            then warned (warnings_of (_validate_assembly code))
            else [].

(** The levels of the errors and warnings [validate] records before the
    quality pass, in the order of the [add_issue] calls: for a blank text
    the one error; otherwise the warnings of the basic-structure pass, then
    those of the language pass, then the warnings of the consistency pass.
    Issues of level info are left out: they do not touch the confidence. *)
Definition recorded_levels (ast_parse : string -> parse_result)
           (code target_language : string) (source_info : option SourceInfo)
  : list ValidationLevel :=
  if blank code then [ERROR]
  else warned (warnings_of (_validate_basic_structure code target_language))
       ++ language_levels ast_parse code target_language
       ++ match source_info with
          | Some si => warned (warnings_of (_validate_consistency code target_language si))
          | None => []
          end.

(** A pass records the levels [levels]: this is what it does to the
    confidence, and how many errors and warnings it adds. *)
Definition records (pass : ValidationResult -> ValidationResult)
           (levels : list ValidationLevel) : Prop :=
  forall r,
    confidence (pass r) = penalise levels (confidence r)
    /\ List.length (errors (pass r))
       = (List.length (errors r) + count_level ERROR levels)%nat
    /\ List.length (warnings (pass r))
       = (List.length (warnings r) + count_level WARNING levels)%nat.

Lemma penalise_app (a b : list ValidationLevel) (c : float) :
  penalise (a ++ b) c = penalise b (penalise a c).
Proof. unfold penalise. now rewrite fold_left_app. Qed.

Lemma count_level_app (lv : ValidationLevel) (a b : list ValidationLevel) :
  count_level lv (a ++ b) = (count_level lv a + count_level lv b)%nat.
Proof. unfold count_level. now rewrite filter_app, length_app. Qed.

Lemma count_warned (n : nat) :
  count_level ERROR (warned n) = 0%nat /\ count_level WARNING (warned n) = n.
Proof.
  unfold count_level, warned. induction n as [|n [IH1 IH2]]; [split; reflexivity|].
  cbn [repeat filter is_level List.length]. split; [exact IH1 | now rewrite IH2].
Qed.

(** Without errors, only the number of warnings matters. *)
Lemma penalise_warned (levels : list ValidationLevel) (c : float) :
  count_level ERROR levels = 0%nat ->
  penalise levels c = penalise (warned (count_level WARNING levels)) c.
Proof.
  revert c. induction levels as [|lv t IH]; intros c He; [reflexivity|].
  unfold count_level in *. destruct lv; cbn [filter is_level List.length] in *.
  - discriminate.
  - cbn [warned repeat penalise fold_left]. apply IH. exact He.
  - cbn [penalise fold_left penalty]. apply IH. exact He.
Qed.

Lemma records_id : records (fun r => r) [].
Proof. intro r. unfold count_level. simpl. repeat split; lia. Qed.

Lemma records_add (lv : ValidationLevel) (msg : string) (ln : option Z) :
  records (add_issue lv msg ln) [lv].
Proof.
  intro r. unfold count_level.
  destruct lv; cbn [add_issue confidence errors warnings penalise fold_left penalty
                    filter is_level List.length];
    rewrite ?length_app; cbn [List.length]; repeat split; lia.
Qed.

Lemma records_when (b : bool) (lv : ValidationLevel) (msg : string) (ln : option Z) :
  records (fun r => if b then add_issue lv msg ln r else r) (when b lv).
Proof. destruct b; [apply records_add | apply records_id]. Qed.

Lemma records_comp (p q : ValidationResult -> ValidationResult)
      (a b : list ValidationLevel) :
  records p a -> records q b -> records (fun r => q (p r)) (a ++ b).
Proof.
  intros Hp Hq r.
  destruct (Hp r) as [Hc [He Hw]]. destruct (Hq (p r)) as [Hc' [He' Hw']].
  rewrite penalise_app, !count_level_app, Hc', He', Hw', Hc, He, Hw.
  repeat split; lia.
Qed.

(** A pass that only calls [add_issue] and leaves the errors alone records
    as many warnings as it leaves on a fresh result. *)
Lemma records_warn_only (pass : ValidationResult -> ValidationResult) :
  issue_only pass ->
  (forall r, verdict (pass r) = verdict r) ->
  records pass (warned (warnings_of pass)).
Proof.
  intros [evs H] Hv.
  assert (He : count_level ERROR (map event_level evs) = 0%nat).
  { pose proof (replay_errors evs new_result) as E. rewrite <- H in E.
    pose proof (Hv new_result) as V. unfold verdict in V. injection V as _ V.
    rewrite V in E. simpl in E. lia. }
  assert (Hw : warnings_of pass = count_level WARNING (map event_level evs)).
  { unfold warnings_of. rewrite H, replay_warnings. reflexivity. }
  destruct (count_warned (warnings_of pass)) as [C1 C2].
  intro r. rewrite C1, C2, H, replay_confidence, replay_errors, replay_warnings, He.
  rewrite (penalise_warned _ _ He), <- Hw. repeat split; lia.
Qed.

Lemma c_like_scan_issue_only (code : string) : issue_only (c_like_scan code).
Proof.
  destruct (c_like_loop (enumerate1 (split_lines code)) 0 0) as [b [p [evs H]]].
  exists evs. intro r. unfold c_like_scan. now rewrite H.
Qed.

Lemma c_like_scan_verdict (code : string) (r : ValidationResult) :
  verdict (c_like_scan code r) = verdict r.
Proof.
  destruct (c_like_loop_state (enumerate1 (split_lines code)) 0 0 r) as [r' [E Hv]].
  unfold c_like_scan. now rewrite E.
Qed.

(** [_validate_c_like] is its loop followed by the two checks on the braces
    and the parentheses of the whole text. *)
Lemma c_like_steps (code target_language : string) (r : ValidationResult) :
  _validate_c_like code target_language r
  = (fun r => if negb (paren_diff code =? 0)%Z
              then add_issue WARNING ("Unmatched parentheses: "
                                      ++ str_of_Z (paren_diff code)) None r
              else r)
      ((fun r => if negb (brace_diff code =? 0)%Z
                 then add_issue ERROR ("Unmatched braces: "
                                       ++ str_of_Z (brace_diff code)) None r
                 else r)
         (c_like_scan code r)).
Proof.
  unfold _validate_c_like, c_like_scan. cbv zeta.
  destruct (c_like_loop_state (enumerate1 (split_lines code)) 0 0 r) as [r' [E _]].
  rewrite E. cbn [snd]. unfold enumerate1. rewrite map_snd_enumerate.
  unfold lines_diff, split_lines.
  rewrite !total_count_split by reflexivity.
  rewrite !Z.add_0_l. fold (brace_diff code). fold (paren_diff code).
  reflexivity.
Qed.

Lemma c_like_records (code target_language : string) :
  records (_validate_c_like code target_language)
          (warned (warnings_of (c_like_scan code))
           ++ when (negb (brace_diff code =? 0)%Z) ERROR
           ++ when (negb (paren_diff code =? 0)%Z) WARNING).
Proof.
  intro r. rewrite c_like_steps.
  exact (records_comp _ _ _ _
           (records_warn_only _ (c_like_scan_issue_only code) (c_like_scan_verdict code))
           (records_comp _ _ _ _
              (records_when _ ERROR _ None) (records_when _ WARNING _ None)) r).
Qed.

Section WithParser.

Variable ast_parse : string -> parse_result.

Lemma language_records (code target_language : string) (r : ValidationResult) :
  match validate_language ast_parse code target_language r with
  | Raised e => True
  | Returned r' =>
      confidence r'
      = penalise (language_levels ast_parse code target_language) (confidence r)
      /\ List.length (errors r')
         = (List.length (errors r)
            + count_level ERROR (language_levels ast_parse code target_language))%nat
      /\ List.length (warnings r')
         = (List.length (warnings r)
            + count_level WARNING (language_levels ast_parse code target_language))%nat
  end.
Proof.
  pose proof (records_warn_only _ (python_line_checks_issue_only code)
                                (python_line_checks_verdict code)) as Hpy.
  unfold validate_language, language_levels, _validate_python.
  destruct (String.eqb (lower target_language) "python").
  - destruct (ast_parse code) as [|msg lineno|e].
    + exact (Hpy r).
    + exact (records_comp _ _ _ _ (records_add ERROR _ lineno) Hpy r).
    + exact I.
  - destruct (in_list (lower target_language) ["java"; "javascript"]).
    + apply c_like_records.
    + destruct (String.eqb (lower target_language) "assembly").
      * exact (records_warn_only _ (assembly_issue_only code) (assembly_verdict code) r).
      * exact (records_id r).
Qed.

(** The confidence of a result is fixed by the recorded levels, taken in
    their order, and the two quality conditions. *)
Lemma validate_recorded (code target_language : string) (source_info : option SourceInfo) :
  match validate ast_parse code target_language source_info with
  | Raised e => ast_parse code = ParseRaises e /\ lower target_language = "python"
  | Returned r =>
      confidence r
      = spec_confidence (recorded_levels ast_parse code target_language source_info)
                        (is_short code) (is_repetitive code)
      /\ List.length (errors r)
         = count_level ERROR (recorded_levels ast_parse code target_language source_info)
      /\ List.length (warnings r)
         = (count_level WARNING
              (recorded_levels ast_parse code target_language source_info)
            + (if is_repetitive code then 1 else 0))%nat
  end.
Proof.
  pose proof (validate_shape ast_parse code target_language source_info) as Hs.
  unfold recorded_levels.
  destruct (blank code) eqn:Eb.
  - unfold validate in *. fold (blank code) in *. rewrite Eb in *.
    rewrite (blank_not_short code Eb), (blank_not_repetitive code Eb).
    repeat split.
  - rewrite (validate_nonblank ast_parse code target_language source_info Eb) in *.
    pose proof (records_warn_only _ (basic_structure_issue_only code target_language)
                  (fun r => basic_structure_verdict code target_language r Eb) new_result)
      as [Bc [Be Bw]].
    pose proof (language_records code target_language
                  (_validate_basic_structure code target_language new_result)) as Hl.
    destruct (validate_language ast_parse code target_language
                (_validate_basic_structure code target_language new_result)) as [r1|e];
      [|exact Hs].
    destruct Hl as [Lc [Le Lw]].
    rewrite assess_quality_confidence, assess_quality_errors, assess_quality_warnings.
    rewrite length_app. unfold spec_confidence.
    rewrite !penalise_app, !count_level_app.
    destruct source_info as [si|].
    + destruct (records_warn_only _ (consistency_issue_only code target_language si)
                  (consistency_verdict code target_language si) r1) as [Cc [Ce Cw]].
      rewrite Cc, Ce, Cw, Lc, Le, Lw, Bc, Be, Bw.
      repeat split; destruct (is_repetitive code); simpl; lia.
    + rewrite Lc, Le, Lw, Bc, Be, Bw. unfold count_level.
      repeat split; destruct (is_repetitive code); simpl; lia.
Qed.

End WithParser.

(** C2, as amended. [validate] computes the confidence as follows: start at
    1.0; every recorded error replaces it by max(0.0, confidence - 0.2) and
    every recorded warning by max(0.0, confidence - 0.1), in the order the
    issues are recorded, which is the order of [recorded_levels]: the
    warnings of the basic-structure pass, then the language pass (Python: the
    syntax error, then the line warnings; Java and JavaScript: the
    missing-semicolon warnings, then the brace error, then the parenthesis
    warning; assembly: the instruction warnings), then the warnings of the
    consistency pass. The short-output info then replaces the confidence by
    max(0.5, confidence - 0.1); the repetition warning, after its own warning
    penalty, replaces it by max(0.7, confidence - 0.1). No bonus is added
    when there are no errors and no warnings. The errors and warnings of the
    result are exactly the recorded ones, the repetition warning apart. *)
Theorem validate_confidence_formula :
  forall (ast_parse : string -> parse_result) (code target_language : string)
         (source_info : option SourceInfo),
    match validate ast_parse code target_language source_info with
    | Raised e => ast_parse code = ParseRaises e /\ lower target_language = "python"
    | Returned r =>
        confidence r
        = spec_confidence (recorded_levels ast_parse code target_language source_info)
                          (is_short code) (is_repetitive code)
        /\ List.length (errors r)
           = count_level ERROR (recorded_levels ast_parse code target_language source_info)
        /\ List.length (warnings r)
           = (count_level WARNING
                (recorded_levels ast_parse code target_language source_info)
              + (if is_repetitive code then 1 else 0))%nat
    end.
Proof. exact validate_recorded. Qed.

(** The order matters. For [int main() { return 0] as java the
    missing-semicolon warning is recorded first and the brace error second,
    and the confidence is 0.6; the same two penalties taken in the other
    order end one unit in the last place above 0.6. *)
Remark recording_order_matters :
  recorded_levels accepting_parser ValidatorFacts.unbalanced_main "java" None
  = [WARNING; ERROR]
  /\ (exists r, validate accepting_parser ValidatorFacts.unbalanced_main "java" None
                = Returned r
                /\ confidence r = f0_6)
  /\ spec_confidence [WARNING; ERROR] true false = f0_6
  /\ eqb (spec_confidence [ERROR; WARNING] true false) f0_6 = false.
Proof.
  split; [vm_compute; reflexivity|].
  split; [eexists; split; vm_compute; reflexivity|].
  split; vm_compute; reflexivity.
Qed.

End ValidatorOrder.

(** ** More facts about the translation model *)

Module CodeGenProps.

Import PyStr Re Float CodeGen CodeGenFacts TextFacts.
Local Open Scope string_scope.

(** *** The outcomes of [translate] *)

Lemma supported_cases (target_language : string) :
  in_list target_language get_supported_languages = true ->
  target_language = "python" \/ target_language = "java"
  \/ target_language = "javascript" \/ target_language = "assembly".
Proof.
  unfold in_list, get_supported_languages. simpl. intro H.
  destruct (String.eqb target_language "python") eqn:E1;
    [apply String.eqb_eq in E1; auto|].
  destruct (String.eqb target_language "java") eqn:E2;
    [apply String.eqb_eq in E2; auto|].
  destruct (String.eqb target_language "javascript") eqn:E3;
    [apply String.eqb_eq in E3; auto|].
  destruct (String.eqb target_language "assembly") eqn:E4;
    [apply String.eqb_eq in E4; auto|].
  discriminate.
Qed.

(** The rule-based translation of a supported language. *)
Definition rule_based (source_code target_language : string) : string :=
  if String.eqb target_language "python" then _cpp_to_python_fallback source_code
  else if String.eqb target_language "java" then _cpp_to_java_fallback source_code
  else if String.eqb target_language "javascript" then _cpp_to_javascript_fallback source_code
  else _cpp_to_assembly_fallback source_code.

Lemma fallback_translate_supported (self : CodeGenModel) (source_code target_language : string) :
  in_list target_language get_supported_languages = true ->
  _fallback_translate self source_code target_language
  = (Returned (rule_based source_code target_language), set_confidence f0_6 self).
Proof.
  intro H. unfold _fallback_translate, rule_based. cbv zeta.
  destruct (supported_cases target_language H) as [-> | [-> | [-> | ->]]]; reflexivity.
Qed.

Lemma stored_0_6 (self : CodeGenModel) : last_confidence (set_confidence f0_6 self) = f0_6.
Proof. reflexivity. Qed.

Lemma stored_0_85 (self : CodeGenModel) : last_confidence (set_confidence f0_85 self) = f0_85.
Proof. reflexivity. Qed.

Lemma translate_cases :
  forall (generate : string -> outcome string) (self : CodeGenModel)
         (source_code target_language : string),
    match translate generate self source_code target_language with
    | (Raised e, self') =>
        self' = self
        /\ ((is_initialized self = false
             /\ e = RuntimeError "Model not initialized. Call load_model() first.")
            \/ (is_initialized self = true
                /\ in_list (lower target_language) get_supported_languages = false
                /\ e = ValueError ("Unsupported target language: " ++ lower target_language)))
    | (Returned translated, self') =>
        is_initialized self = true
        /\ in_list (lower target_language) get_supported_languages = true
        /\ model_name self' = model_name self
        /\ is_initialized self' = is_initialized self
        /\ fallback_mode self' = fallback_mode self
        /\ (last_confidence self' = f0_6 \/ last_confidence self' = f0_85)
        /\ (fallback_mode self = true ->
            last_confidence self' = f0_6
            /\ translated = rule_based source_code (lower target_language))
    end.
Proof.
  intros generate self source_code target_language. unfold translate.
  destruct (is_initialized self) eqn:Ei; cbn [negb]; [|split; [reflexivity | left; auto]].
  cbv zeta.
  destruct (in_list (lower target_language) get_supported_languages) eqn:El; cbn [negb];
    [|split; [reflexivity | right; auto]].
  pose proof (fallback_translate_supported self source_code (lower target_language) El) as Hf.
  destruct (fallback_mode self) eqn:Em.
  - rewrite Hf. repeat split; auto.
  - destruct (ml_translate_cases generate self source_code (lower target_language))
      as [E | [p [g [t [_ [_ [_ [E _]]]]]]]]; rewrite E.
    + rewrite Hf. repeat split; auto; try discriminate.
    + repeat split; auto; try discriminate.
Qed.

(** [translate] raises in two cases only, and then leaves the model as it
    was: the model is not initialized, or the lower-cased tag is not a
    supported language. In every other case it returns a text, the stored
    confidence is 0.6 or 0.85 afterwards, and nothing else in the model
    changes; in fallback mode the text is the rule-based translation and the
    confidence is 0.6. *)
Theorem translate_outcomes :
  forall (generate : string -> outcome string) (self : CodeGenModel)
         (source_code target_language : string),
    match translate generate self source_code target_language with
    | (Raised e, self') =>
        self' = self
        /\ ((is_initialized self = false
             /\ e = RuntimeError "Model not initialized. Call load_model() first.")
            \/ (is_initialized self = true
                /\ in_list (lower target_language) get_supported_languages = false
                /\ e = ValueError ("Unsupported target language: " ++ lower target_language)))
    | (Returned translated, self') =>
        is_initialized self = true
        /\ in_list (lower target_language) get_supported_languages = true
        /\ model_name self' = model_name self
        /\ is_initialized self' = is_initialized self
        /\ fallback_mode self' = fallback_mode self
        /\ (last_confidence self' = f0_6 \/ last_confidence self' = f0_85)
        /\ (fallback_mode self = true ->
            last_confidence self' = f0_6
            /\ translated = rule_based source_code (lower target_language))
    end.
Proof. exact translate_cases. Qed.

(** *** Replacing single characters *)

Lemma match_here_chr (nonempty : bool) (p : ascii -> bool) (prev : option ascii) (s : string) :
  match_here nonempty (Chr p) prev s
  = match s with
    | String x t => if p x then Some (1%nat, []) else None
    | EmptyString => None
    end.
Proof.
  unfold match_here. cbn [Re.run]. destruct s as [|x t]; [reflexivity|].
  destruct (p x); [|reflexivity].
  assert (Hlt : (String.length t <? String.length (String x t))%nat = true)
    by (apply Nat.ltb_lt; change (String.length (String x t)) with (S (String.length t)); lia).
  rewrite Hlt. cbn [negb]. rewrite andb_false_r.
  replace (String.length (String x t) - String.length t)%nat with 1%nat
    by (change (String.length (String x t)) with (S (String.length t)); lia).
  reflexivity.
Qed.

Lemma sub_fuel_chr (p : ascii -> bool) (v : string) (fuel : nat) :
  forall allow_empty prev s pos,
    (String.length s < fuel)%nat ->
    sub_fuel fuel (Chr p) (fun _ => v) allow_empty prev s pos = subst_chars p v s.
Proof.
  induction fuel as [|f IH]; intros allow_empty prev s pos Hf; [lia|].
  cbn [sub_fuel]. rewrite match_here_chr.
  destruct s as [|x t]; [reflexivity|].
  cbn [subst_chars]. simpl in Hf.
  destruct (p x).
  - cbn [drop take]. rewrite IH by lia. reflexivity.
  - rewrite IH by lia. reflexivity.
Qed.

Lemma sub_chr (p : ascii -> bool) (v s : string) :
  Re.sub (Chr p) (fun _ => v) s = subst_chars p v s.
Proof. unfold Re.sub. apply sub_fuel_chr. lia. Qed.

Lemma contains_char (c : ascii) (s : string) :
  all_chars (is_not c) s = true -> contains (String c EmptyString) s = false.
Proof.
  induction s as [|x t IH]; intro H; [reflexivity|].
  cbn [all_chars] in H. apply andb_prop in H. destruct H as [Hx Ht].
  change (contains (String c EmptyString) (String x t))
    with (prefix (String c EmptyString) (String x t) || contains (String c EmptyString) t).
  rewrite (IH Ht), ReFacts.prefix_single.
  destruct (ascii_dec c x) as [->|]; [|reflexivity].
  unfold is_not in Hx. now rewrite Ascii.eqb_refl in Hx.
Qed.

(** The rule-based Python translation starts with its comment line and
    contains no semicolon, whatever the source text. *)
Theorem python_fallback_has_no_semicolon :
  forall cpp_code : string,
    startswith ("# Fallback translation (limited functionality)" ++ NL)
               (_cpp_to_python_fallback cpp_code) = true
    /\ contains ";" (_cpp_to_python_fallback cpp_code) = false.
Proof.
  intro cpp_code. unfold _cpp_to_python_fallback. cbv zeta.
  match goal with
  | |- context [Re.sub (lit ";") _ ?x] => generalize x
  end.
  intro code. change (lit ";") with (Chr (Ascii.eqb ";"%char)). rewrite sub_chr.
  split.
  - unfold startswith.
    change ("# Fallback translation (limited functionality)" ++ NL
            ++ subst_chars (Ascii.eqb ";"%char) EmptyString code)
      with (("# Fallback translation (limited functionality)" ++ NL)
            ++ subst_chars (Ascii.eqb ";"%char) EmptyString code).
    generalize (subst_chars (Ascii.eqb ";"%char) EmptyString code). intro t.
    simpl. repeat (destruct (ascii_dec _ _) as [_|Hn]; [|now destruct Hn]).
    now destruct t.
  - apply contains_char.
    change ("# Fallback translation (limited functionality)" ++ NL
            ++ subst_chars (Ascii.eqb ";"%char) EmptyString code)
      with (("# Fallback translation (limited functionality)" ++ NL)
            ++ subst_chars (Ascii.eqb ";"%char) EmptyString code).
    rewrite all_chars_app, substituted_chars; reflexivity.
Qed.

(** *** What the artifact check can still find *)

Definition free_of (p ln : string) : Prop := contains p (lower ln) = false.

Lemma join_free (p : string) (l : list string) :
  no_nl p = true -> p <> EmptyString -> Forall (free_of p) l -> free_of p (join NL l).
Proof.
  intros Hp Hne H. unfold free_of. rewrite lower_join.
  apply contains_join; [exact Hp | exact Hne |].
  induction H; constructor; assumption.
Qed.

Definition artifact_line_patterns : list string :=
  ["you can also do this"; "translation:"; "here is the"; "the following";
   "generated code"; "this is the"; "class function"; "file = =tdout"].

Lemma not_artifact_line_free (p ln : string) :
  In p artifact_line_patterns -> _is_artifact_line ln = false -> free_of p ln.
Proof.
  intros Hin H. unfold _is_artifact_line in H.
  exact (existsb_false_In _ _ p H Hin).
Qed.

Lemma patterns_plain (p : string) :
  In p artifact_line_patterns \/ In p prose_phrases -> no_nl p = true /\ p <> EmptyString.
Proof.
  intros [H | H]; simpl in H;
    repeat (destruct H as [<- | H]; [split; [reflexivity | discriminate]|]);
    contradiction.
Qed.

Lemma clean_free (p code : string) :
  In p artifact_line_patterns -> free_of p (_clean_translated_code code).
Proof.
  intro Hin. destruct (patterns_plain p (or_introl Hin)) as [Hp Hne].
  unfold _clean_translated_code. cbv zeta. apply (join_free p _ Hp Hne).
  apply fold_left_Forall; [|constructor].
  intros acc ln Hacc.
  destruct (_is_artifact_line (strip ln)) eqn:Ea; [exact Hacc|].
  destruct (existsb _ language_markers); [exact Hacc|].
  destruct (truthy (strip ln) && negb (startswith "#" (strip ln))
            && negb (startswith "//" (strip ln))); [|exact Hacc].
  apply Forall_app. split; [exact Hacc|].
  constructor; [now apply not_artifact_line_free | constructor].
Qed.

Lemma code_like_free (p text : string) :
  In p prose_phrases -> free_of p (_extract_code_like_content text).
Proof.
  intro Hin. destruct (patterns_plain p (or_intror Hin)) as [Hp Hne].
  unfold _extract_code_like_content. cbv zeta. apply (join_free p _ Hp Hne).
  apply Forall_firstn.
  apply fold_left_Forall; [|constructor].
  intros acc ln Hacc.
  destruct (existsb (fun phrase => contains phrase (lower (strip ln))) prose_phrases) eqn:Ep;
    destruct (truthy (strip ln)); cbn [andb negb]; try exact Hacc.
  destruct (found re_code_char (strip ln) || existsb _ code_prefixes); [|exact Hacc].
  apply Forall_app. split; [exact Hacc|].
  constructor; [|constructor].
  exact (existsb_false_In _ _ p Ep Hin).
Qed.

(** A text free of a phrase is free of every longer phrase that starts
    with it. *)
Lemma free_of_longer (q p ln : string) :
  prefix q p = true -> free_of q ln -> free_of p ln.
Proof.
  unfold free_of. intros Hqp Hq.
  destruct (contains p (lower ln)) eqn:E; [|reflexivity].
  now rewrite (contains_weaken q p _ Hqp E) in Hq.
Qed.

Lemma cleaned_has_no_artifact (code : string) :
  _contains_obvious_artifacts (_clean_translated_code code) = false.
Proof.
  unfold _contains_obvious_artifacts, artifact_indicators. cbn [existsb].
  rewrite (clean_free "file = =tdout"), (clean_free "translation:"),
    (clean_free "you can also do this"), (clean_free "class function"),
    (clean_free "this is the"), (clean_free "here is the");
    try reflexivity; simpl; auto 10.
Qed.

Lemma first_section_cleaned (patterns : list regex) (text t : string) :
  first_section patterns text = Some t -> exists code, t = _clean_translated_code code.
Proof.
  induction patterns as [|p rest IH]; simpl; [discriminate|].
  destruct (search p text) as [m|].
  - intro H. injection H as <-. eauto.
  - exact IH.
Qed.

(** What [_clean_translated_code] returns never trips the artifact check,
    and on the text [_extract_translation] returns for a listed language the
    check can only find the indicators [file = =tdout] and [class function]:
    the four others are removed by the extraction itself. *)
Theorem artifact_check_reach :
  forall generated_text target_language translated code : string,
    _contains_obvious_artifacts (_clean_translated_code code) = false
    /\ (_extract_translation generated_text target_language = Some translated ->
        _contains_obvious_artifacts translated
        = contains "file = =tdout" (lower translated)
          || contains "class function" (lower translated)).
Proof.
  intros generated_text target_language translated code.
  split; [apply cleaned_has_no_artifact|].
  unfold _extract_translation. cbv zeta.
  destruct (language_patterns target_language) as [patterns|]; [|discriminate].
  destruct (first_section _ _) as [t|] eqn:E; intro H; injection H as <-.
  - destruct (first_section_cleaned _ _ _ E) as [c ->].
    rewrite cleaned_has_no_artifact.
    rewrite (clean_free "file = =tdout"), (clean_free "class function");
      try reflexivity; simpl; auto 10.
  - set (out := _extract_code_like_content _).
    unfold _contains_obvious_artifacts, artifact_indicators. cbn [existsb].
    assert (H1 : contains "translation:" (lower out) = false).
    { apply (free_of_longer "translation"); [reflexivity|].
      apply code_like_free. simpl. auto 10. }
    assert (H2 : contains "you can also do this" (lower out) = false).
    { apply (free_of_longer "you can"); [reflexivity|].
      apply code_like_free. simpl. auto 10. }
    assert (H3 : contains "this is the" (lower out) = false).
    { apply (free_of_longer "this is"); [reflexivity|].
      apply code_like_free. simpl. auto 10. }
    assert (H4 : contains "here is the" (lower out) = false).
    { apply (free_of_longer "here is"); [reflexivity|].
      apply code_like_free. simpl. auto 10. }
    rewrite H1, H2, H3, H4. cbn [orb]. now rewrite !orb_false_r.
Qed.

(** A decoded text without a language section that holds the second
    indicator. *)
Definition table_text : string := "class function_table = {};".

Lemma artifact_check_reach_witness :
  _extract_translation table_text "java" = Some table_text
  /\ _contains_obvious_artifacts table_text
     = contains "file = =tdout" (lower table_text)
       || contains "class function" (lower table_text).
Proof.
  split; [vm_compute; reflexivity|].
  exact (proj2 (artifact_check_reach table_text "java" table_text EmptyString)
               ltac:(vm_compute; reflexivity)).
Defined.

(** *** Cleaning and extraction, line by line *)

(** The test a stripped line has to pass to be kept by the cleaning. *)
Definition kept (ln : string) : bool :=
  negb (_is_artifact_line ln)
  && negb (existsb (fun lang => contains lang (lower ln)) language_markers)
  && (truthy ln && negb (startswith "#" ln) && negb (startswith "//" ln)).

Lemma clean_fold (lines acc : list string) :
  fold_left
    (fun clean_lines ln =>
       let ln := strip ln in
       if _is_artifact_line ln then clean_lines
       else if existsb (fun lang => contains lang (lower ln)) language_markers
            then clean_lines
            else if truthy ln && negb (startswith "#" ln) && negb (startswith "//" ln)
                 then (clean_lines ++ [ln])%list
                 else clean_lines)
    lines acc
  = (acc ++ filter kept (map strip lines))%list.
Proof.
  revert acc. induction lines as [|ln t IH]; intro acc.
  - simpl. now rewrite List.app_nil_r.
  - cbn [fold_left map filter]. cbv zeta. rewrite IH. unfold kept at 2.
    destruct (_is_artifact_line (strip ln)); [reflexivity|].
    destruct (existsb _ language_markers); [reflexivity|].
    destruct (truthy (strip ln) && negb (startswith "#" (strip ln))
              && negb (startswith "//" (strip ln))); cbn [negb andb];
      [now rewrite <- List.app_assoc | reflexivity].
Qed.

Lemma clean_as_filter (code : string) :
  _clean_translated_code code = join NL (filter kept (map strip (split_lines code))).
Proof. unfold _clean_translated_code. cbv zeta. now rewrite clean_fold. Qed.

Lemma stripped_lines_free (s : string) :
  Forall (fun piece => all_chars (is_not nl) piece = true) (map strip (split_lines s)).
Proof.
  unfold split_lines. pose proof (split_pieces_free nl s) as H.
  induction H; constructor; [now apply all_chars_strip | assumption].
Qed.

Lemma Forall_filter {A : Type} (P : A -> Prop) (f : A -> bool) (l : list A) :
  Forall P l -> Forall P (filter f l).
Proof.
  intro H. induction H as [|x t Hx Ht IH]; [constructor|].
  simpl. destruct (f x); [constructor|]; assumption.
Qed.

Lemma filter_all {A : Type} (f : A -> bool) (l : list A) :
  Forall (fun x => f x = true) l -> filter f l = l.
Proof.
  intro H. induction H as [|x t Hx Ht IH]; [reflexivity|].
  simpl. now rewrite Hx, IH.
Qed.

Lemma filter_passes {A : Type} (f : A -> bool) (l : list A) :
  Forall (fun x => f x = true) (filter f l).
Proof.
  induction l as [|x t IH]; [constructor|].
  simpl. destruct (f x) eqn:E; [constructor|]; assumption.
Qed.

Lemma map_fixed {A : Type} (g : A -> A) (l : list A) :
  Forall (fun x => g x = x) l -> map g l = l.
Proof.
  intro H. induction H as [|x t Hx Ht IH]; [reflexivity|].
  simpl. now rewrite Hx, IH.
Qed.

Lemma stripped_fixed (l : list string) : Forall (fun x => strip x = x) (map strip l).
Proof. induction l; constructor; [apply strip_idem | assumption]. Qed.

(** Cleaning is idempotent: a cleaned text is left as it is by a second
    cleaning. *)
Theorem clean_translated_code_idempotent :
  forall code : string,
    _clean_translated_code (_clean_translated_code code) = _clean_translated_code code.
Proof.
  intro code. rewrite (clean_as_filter code).
  assert (Hfree : Forall (fun piece => all_chars (is_not nl) piece = true)
                         (filter kept (map strip (split_lines code))))
    by (apply Forall_filter, stripped_lines_free).
  assert (Hfix : Forall (fun y => strip y = y) (filter kept (map strip (split_lines code))))
    by (apply Forall_filter, stripped_fixed).
  pose proof (filter_passes kept (map strip (split_lines code))) as Hpass.
  revert Hfree Hfix Hpass.
  generalize (filter kept (map strip (split_lines code))). intros L Hfree Hfix Hpass.
  destruct L as [|x t]; [reflexivity|].
  rewrite clean_as_filter. unfold split_lines, NL.
  rewrite (split_join nl (x :: t) ltac:(discriminate) Hfree).
  now rewrite (map_fixed strip _ Hfix), (filter_all kept _ Hpass).
Qed.

(** The test a stripped line has to pass to count as code. *)
Definition code_like (ln : string) : bool :=
  truthy ln && negb (existsb (fun phrase => contains phrase (lower ln)) prose_phrases)
  && (found re_code_char ln || existsb (fun p => startswith p ln) code_prefixes).

Lemma code_like_fold (lines acc : list string) :
  fold_left
    (fun code_lines ln =>
       let ln := strip ln in
       if truthy ln && negb (existsb (fun phrase => contains phrase (lower ln)) prose_phrases)
       then if found re_code_char ln || existsb (fun p => startswith p ln) code_prefixes
            then (code_lines ++ [ln])%list
            else code_lines
       else code_lines)
    lines acc
  = (acc ++ filter code_like (map strip lines))%list.
Proof.
  revert acc. induction lines as [|ln t IH]; intro acc.
  - simpl. now rewrite List.app_nil_r.
  - cbn [fold_left map filter]. cbv zeta. rewrite IH. unfold code_like at 2.
    destruct (truthy (strip ln)
              && negb (existsb (fun phrase => contains phrase (lower (strip ln)))
                               prose_phrases)); cbn [andb]; [|reflexivity].
    destruct (found re_code_char (strip ln)
              || existsb (fun p => startswith p (strip ln)) code_prefixes);
      [now rewrite <- List.app_assoc | reflexivity].
Qed.

Lemma code_like_as_filter (text : string) :
  _extract_code_like_content text
  = join NL (firstn 50 (filter code_like (map strip (split_lines text)))).
Proof. unfold _extract_code_like_content. cbv zeta. now rewrite code_like_fold. Qed.

(** The code-like extraction returns at most fifty lines, each of them a
    stripped line of the text that passes the test for code, in the order of
    the text. *)
Theorem code_like_content_is_bounded :
  forall text : string,
    (List.length (split_lines (_extract_code_like_content text)) <= 50)%nat
    /\ (_extract_code_like_content text = EmptyString
        \/ split_lines (_extract_code_like_content text)
           = firstn 50 (filter code_like (map strip (split_lines text)))).
Proof.
  intro text. rewrite code_like_as_filter.
  assert (Hlen : (List.length (firstn 50 (filter code_like (map strip (split_lines text))))
                  <= 50)%nat) by (apply firstn_le_length).
  assert (Hfree : Forall (fun piece => all_chars (is_not nl) piece = true)
                         (firstn 50 (filter code_like (map strip (split_lines text)))))
    by (apply Forall_firstn, Forall_filter, stripped_lines_free).
  revert Hlen Hfree.
  generalize (firstn 50 (filter code_like (map strip (split_lines text)))).
  intros L Hlen Hfree. destruct L as [|x t].
  - split; [simpl; lia | now left].
  - assert (Hs : split_lines (join NL (x :: t)) = x :: t)
      by (unfold split_lines, NL; now apply split_join).
    rewrite Hs. split; [exact Hlen | now right].
Qed.

End CodeGenProps.

(** ** Character classes through matching and substitution *)

Module ReChars.

Import PyStr Re TextFacts.
Local Open Scope string_scope.

Lemma all_chars_ext (p q : ascii -> bool) (s : string) :
  (forall x, p x = q x) -> all_chars p s = all_chars q s.
Proof.
  intro H. induction s as [|x t IH]; [reflexivity|].
  cbn [all_chars]. now rewrite H, IH.
Qed.

Lemma all_chars_and (p q : ascii -> bool) (s : string) :
  all_chars (fun x => p x && q x) s = all_chars p s && all_chars q s.
Proof.
  induction s as [|x t IH]; [reflexivity|].
  cbn [all_chars]. rewrite IH.
  destruct (p x), (q x), (all_chars p t), (all_chars q t); reflexivity.
Qed.

Lemma all_chars_take (p : ascii -> bool) (n : nat) (s : string) :
  all_chars p s = true -> all_chars p (take n s) = true.
Proof.
  revert s. induction n as [|n IH]; intros [|x t] H; try reflexivity.
  cbn [all_chars] in H. apply andb_prop in H. destruct H as [Hx Ht].
  cbn [take all_chars]. now rewrite Hx, IH.
Qed.

Lemma all_chars_drop (p : ascii -> bool) (n : nat) (s : string) :
  all_chars p s = true -> all_chars p (drop n s) = true.
Proof.
  revert s. induction n as [|n IH]; intros [|x t] H; try assumption; try reflexivity.
  cbn [all_chars] in H. apply andb_prop in H. destruct H as [Hx Ht].
  cbn [drop]. now apply IH.
Qed.

Lemma all_chars_join (p : ascii -> bool) (sep : string) (l : list string) :
  all_chars p sep = true ->
  Forall (fun x => all_chars p x = true) l -> all_chars p (join sep l) = true.
Proof.
  intros Hsep H. induction H as [|x t Hx Ht IH]; [reflexivity|].
  destruct t as [|y t]; [exact Hx|].
  change (join sep (x :: y :: t)) with (x ++ sep ++ join sep (y :: t)).
  now rewrite !all_chars_app, Hx, Hsep, IH.
Qed.

Lemma all_chars_split (p : ascii -> bool) (c : ascii) (s : string) :
  all_chars p s = true -> Forall (fun x => all_chars p x = true) (split_char c s).
Proof.
  induction s as [|x t IH]; intro H; [repeat constructor|].
  cbn [all_chars] in H. apply andb_prop in H. destruct H as [Hx Ht].
  specialize (IH Ht). cbn [split_char].
  pose proof (split_char_not_nil c t) as Hn.
  destruct (split_char c t) as [|h r]; [congruence|].
  destruct (Ascii.eqb x c).
  - constructor; [reflexivity | exact IH].
  - inversion IH; subst. constructor; [|assumption].
    cbn [all_chars]. now rewrite Hx.
Qed.

(** Every captured text is made of characters accepted by [p]. *)
Definition caps_ok (p : ascii -> bool) (c : caps) : Prop :=
  Forall (fun kv => all_chars p (snd kv) = true) c.

Lemma cap_get_ok (p : ascii -> bool) (c : caps) (n : nat) (v : string) :
  caps_ok p c -> cap_get n c = Some v -> all_chars p v = true.
Proof.
  intro H. induction H as [|[k u] t Hu Ht IH]; simpl; [discriminate|].
  destruct (Nat.eqb k n); [|exact IH].
  intro E. injection E as <-. exact Hu.
Qed.

Lemma group_text_ok (p : ascii -> bool) (pos : nat) (text : string) (c : caps) (n : nat) :
  all_chars p text = true -> caps_ok p c ->
  all_chars p (group_text (Match pos text c) n) = true.
Proof.
  intros Ht Hc. unfold group_text, group. cbn [m_text m_caps].
  destruct n as [|n]; [exact Ht|].
  destruct (cap_get (S n) c) as [v|] eqn:E; [|reflexivity].
  exact (cap_get_ok p c (S n) v Hc E).
Qed.

Lemma star_loop_chars (p : ascii -> bool)
      (body : option ascii -> string -> caps -> cont -> option (string * caps))
      (greedy : bool) (k : cont) :
  (forall prev s c k' res,
      all_chars p s = true -> caps_ok p c ->
      body prev s c k' = Some res ->
      exists prev' s' c',
        all_chars p s' = true /\ caps_ok p c' /\ k' prev' s' c' = Some res) ->
  forall fuel prev s c res,
    all_chars p s = true -> caps_ok p c ->
    star_loop body greedy k fuel prev s c = Some res ->
    exists prev' s' c',
      all_chars p s' = true /\ caps_ok p c' /\ k prev' s' c' = Some res.
Proof.
  intros Hbody fuel. induction fuel as [|f IHf]; intros prev s c res Hs Hc H.
  - exists prev, s, c. auto.
  - cbn [star_loop] in H. cbv zeta in H.
    assert (Hmore : forall res',
              body prev s c
                   (fun prev' s' c' =>
                      if (String.length s' <? String.length s)%nat
                      then star_loop body greedy k f prev' s' c' else None) = Some res' ->
              exists prev' s' c',
                all_chars p s' = true /\ caps_ok p c' /\ k prev' s' c' = Some res').
    { intros res' Hr. apply (Hbody _ _ _ _ _ Hs Hc) in Hr.
      destruct Hr as [p1 [s1 [c1 [Hs1 [Hc1 Hr]]]]].
      destruct (String.length s1 <? String.length s)%nat; [|discriminate].
      exact (IHf _ _ _ _ Hs1 Hc1 Hr). }
    unfold orelse in H. destruct greedy.
    + match type of H with
      | match ?x with _ => _ end = _ => destruct x eqn:Em
      end.
      * injection H as <-. now apply Hmore.
      * exists prev, s, c. auto.
    + destruct (k prev s c) eqn:Ek.
      * injection H as <-. exists prev, s, c. auto.
      * now apply Hmore.
Qed.

(** A successful run hands its continuation a text and captures made of
    characters of the text it started from. *)
Lemma run_chars (p : ascii -> bool) (r : regex) :
  forall prev s c k res,
    all_chars p s = true -> caps_ok p c ->
    run r prev s c k = Some res ->
    exists prev' s' c',
      all_chars p s' = true /\ caps_ok p c' /\ k prev' s' c' = Some res.
Proof.
  induction r as [|q|a IHa b IHb|a IHa b IHb|g r IH|n r IH|r IH| |m| |];
    intros prev s c k res Hs Hc H; cbn [run] in H.
  - exists prev, s, c. auto.
  - destruct s as [|x t]; [discriminate|].
    destruct (q x); [|discriminate].
    cbn [all_chars] in Hs. apply andb_prop in Hs. destruct Hs as [_ Ht].
    exists (Some x), t, c. auto.
  - apply (IHa _ _ _ _ _ Hs Hc) in H. destruct H as [p1 [s1 [c1 [Hs1 [Hc1 H]]]]].
    exact (IHb _ _ _ _ _ Hs1 Hc1 H).
  - unfold orelse in H.
    destruct (run a prev s c k) eqn:Ea.
    + injection H as <-. exact (IHa _ _ _ _ _ Hs Hc Ea).
    + exact (IHb _ _ _ _ _ Hs Hc H).
  - exact (star_loop_chars p (run r) g k IH _ _ _ _ _ Hs Hc H).
  - apply (IH _ _ _ _ _ Hs Hc) in H. destruct H as [p' [s' [c' [Hs' [Hc' H]]]]].
    exists p', s', ((n, take (String.length s - String.length s') s) :: c').
    split; [exact Hs'|]. split; [|exact H].
    constructor; [now apply all_chars_take | exact Hc'].
  - destruct (run r prev s c (fun _ s' c' => Some (s', c'))) as [[s0 c0]|] eqn:E;
      [|discriminate].
    apply (IH _ _ _ _ _ Hs Hc) in E. destruct E as [p' [s' [c' [_ [Hc' E]]]]].
    injection E as _ <-. exists prev, s, c'. auto.
  - destruct prev; [discriminate|]. exists None, s, c. auto.
  - destruct s as [|x t].
    + exists prev, EmptyString, c. auto.
    + destruct (Ascii.eqb x nl && (m || negb (truthy t))); [|discriminate].
      exists prev, (String x t), c. auto.
  - destruct s; [|discriminate]. exists prev, EmptyString, c. auto.
  - destruct (xorb (is_word_opt prev) (is_word_opt (head_char s))); [|discriminate].
    exists prev, s, c. auto.
Qed.

Lemma match_here_chars (p : ascii -> bool) (nonempty : bool) (r : regex)
      (prev : option ascii) (s : string) (n : nat) (c : caps) :
  all_chars p s = true -> match_here nonempty r prev s = Some (n, c) -> caps_ok p c.
Proof.
  intros Hs H. unfold match_here in H.
  destruct (run r prev s [] _) as [[sf cf]|] eqn:Er; [|discriminate].
  injection H as _ <-.
  apply (run_chars p r _ _ _ _ _ Hs (Forall_nil _)) in Er.
  destruct Er as [p' [s' [c' [_ [Hc' Hk]]]]].
  destruct (nonempty && negb (String.length s' <? String.length s)%nat); [discriminate|].
  now injection Hk as _ <-.
Qed.

(** A substitution whose replacements are made of accepted characters, given
    a match made of accepted characters, keeps a text of accepted
    characters so. *)
Lemma sub_fuel_chars (p : ascii -> bool) (r : regex) (repl : mtch -> string) :
  (forall pos text c,
      all_chars p text = true -> caps_ok p c ->
      all_chars p (repl (Match pos text c)) = true) ->
  forall fuel allow_empty prev s pos,
    all_chars p s = true ->
    all_chars p (sub_fuel fuel r repl allow_empty prev s pos) = true.
Proof.
  intros Hrepl fuel. induction fuel as [|f IH]; intros allow_empty prev s pos Hs.
  - exact Hs.
  - cbn [sub_fuel].
    destruct (match_here (negb allow_empty) r prev s) as [[n c]|] eqn:Em.
    + pose proof (match_here_chars p _ _ _ _ _ _ Hs Em) as Hc.
      destruct n as [|n'].
      * rewrite all_chars_app, (Hrepl pos EmptyString c eq_refl Hc). now apply IH.
      * rewrite all_chars_app, (Hrepl pos _ c (all_chars_take p (S n') s Hs) Hc).
        apply IH. now apply all_chars_drop.
    + destruct s as [|x t]; [reflexivity|].
      cbn [all_chars] in *. apply andb_prop in Hs. destruct Hs as [Hx Ht].
      now rewrite Hx, IH.
Qed.

Lemma sub_chars (p : ascii -> bool) (r : regex) (repl : mtch -> string) (s : string) :
  (forall pos text c,
      all_chars p text = true -> caps_ok p c ->
      all_chars p (repl (Match pos text c)) = true) ->
  all_chars p s = true -> all_chars p (Re.sub r repl s) = true.
Proof. intros Hrepl Hs. unfold Re.sub. now apply sub_fuel_chars. Qed.

End ReChars.

(** ** preprocessing/tokenizer.py: the structural check *)

Module TokenizerTools.

Import PyStr Re Tokenizer.
Local Open Scope string_scope.

(** The dict [validate_code_structure] returns. *)
Record StructureReport : Type := mkReport {
  sr_is_valid : bool;
  sr_errors : list string;
  sr_warnings : list string;
  sr_suggestions : list string
}.

Definition in_list (s : string) (l : list string) : bool := existsb (String.eqb s) l.

Section Structure.

(** The standard library's parser, and the text [str(e)] of the
    [SyntaxError] it raises (from the error's message and line). *)
Variable ast_parse : string -> Validator.parse_result.
Variable error_text : string -> option Z -> string.

Definition validate_code_structure (code language : string) : outcome StructureReport :=
  if negb (truthy code) || negb (truthy (strip code))
  then Returned (mkReport false ["Empty code provided"] [] [])
  else
    let warnings : list string := [] in
    let warnings :=
      if in_list language ["cpp"; "java"; "javascript"]
      then
        let brace_count := (count_char "{" code - count_char "}" code)%Z in
        let paren_count := (count_char "(" code - count_char ")" code)%Z in
        let warnings :=
          if negb (brace_count =? 0)%Z
          then (warnings ++ [("Unmatched braces: " ++ str_of_Z brace_count)%string])%list
          else warnings in
        if negb (paren_count =? 0)%Z
        then (warnings ++ [("Unmatched parentheses: " ++ str_of_Z paren_count)%string])%list
        else warnings
      else warnings in
    if String.eqb language "python"
    then match ast_parse code with
         | Validator.ParseOk => Returned (mkReport true [] warnings [])
         | Validator.ParseSyntaxError msg lineno =>
             Returned (mkReport false
                         [("Python syntax error: " ++ error_text msg lineno)%string]
                         warnings [])
         | Validator.ParseRaises e => Raised e
         end
    else Returned (mkReport true [] warnings []).

End Structure.

End TokenizerTools.

(** ** More facts about the normalizer *)

Module TokenizerProps.

Import PyStr Re TextFacts ReChars Tokenizer TokenizerTools.
Local Open Scope string_scope.

(** *** Line endings *)

Lemma is_not_swap (c : ascii) (s : string) :
  all_chars (is_not c) s = all_chars (fun x => negb (Ascii.eqb c x)) s.
Proof. apply all_chars_ext. intro x. unfold is_not. now rewrite Ascii.eqb_sym. Qed.

Lemma line_endings_no_cr (code : string) :
  all_chars (is_not cr) (_normalize_line_endings code) = true.
Proof.
  unfold _normalize_line_endings. rewrite replace_char.
  now apply substituted_chars.
Qed.

Lemma line_endings_fixed (code : string) :
  all_chars (is_not cr) code = true -> _normalize_line_endings code = code.
Proof.
  intro H. unfold _normalize_line_endings.
  rewrite (replace_absent cr NL NL code H), replace_char.
  apply subst_chars_absent. now rewrite <- is_not_swap.
Qed.

(** After [_normalize_line_endings] no carriage return is left, a second
    normalization changes nothing, and a text without carriage returns is
    returned as it is. *)
Theorem line_endings_normalized :
  forall code : string,
    all_chars (is_not cr) (_normalize_line_endings code) = true
    /\ _normalize_line_endings (_normalize_line_endings code) = _normalize_line_endings code
    /\ (all_chars (is_not cr) code = true -> _normalize_line_endings code = code).
Proof.
  intro code. split; [apply line_endings_no_cr|].
  split; [apply line_endings_fixed, line_endings_no_cr | apply line_endings_fixed].
Qed.

(** *** Tabs and carriage returns *)

(** A character other than the tab and the carriage return. *)
Definition plain (x : ascii) : bool := is_not tab x && is_not cr x.

Lemma whitespace_plain (code : string) :
  all_chars (is_not cr) code = true -> all_chars plain (_normalize_whitespace code) = true.
Proof.
  intro H. unfold _normalize_whitespace. cbv zeta.
  apply all_chars_strip. apply sub_chars; [reflexivity|].
  rewrite replace_char. unfold plain. rewrite all_chars_and.
  rewrite substituted_chars by reflexivity.
  now rewrite subst_chars_keeps.
Qed.

Lemma comments_plain (code language : string) :
  all_chars plain code = true -> all_chars plain (_process_comments code language) = true.
Proof.
  intro H. unfold _process_comments.
  destruct (comment_patterns language) as [comment_regex|]; [|exact H].
  apply sub_chars; [|exact H].
  intros pos text c Ht _. unfold comment_replacer. cbn [m_text].
  destruct (existsb _ comment_keywords); [exact Ht | reflexivity].
Qed.

Lemma strings_plain (code : string) :
  all_chars plain code = true -> all_chars plain (_normalize_strings code) = true.
Proof.
  intro H. unfold _normalize_strings, string_patterns. cbn [fold_left].
  apply sub_chars; [reflexivity|]. now apply sub_chars.
Qed.

Lemma marker_plain (r : regex) (before after : string) (n : nat) (code : string) :
  all_chars plain before = true -> all_chars plain after = true ->
  all_chars plain code = true ->
  all_chars plain (Re.sub r (fun m => before ++ group_text m n ++ after) code) = true.
Proof.
  intros Hb Ha H. apply sub_chars; [|exact H].
  intros pos text c Ht Hc.
  now rewrite !all_chars_app, Hb, Ha, (group_text_ok plain pos text c n Ht Hc).
Qed.

Lemma app_empty_r (a : string) : a ++ EmptyString = a.
Proof. induction a as [|x a IH]; simpl; [reflexivity | now rewrite IH]. Qed.

Lemma markers_plain (code : string) :
  all_chars plain code = true -> all_chars plain (_add_structural_markers code) = true.
Proof.
  intro H. unfold _add_structural_markers. cbv zeta.
  assert (Hpre : forall r before n s,
             all_chars plain before = true -> all_chars plain s = true ->
             all_chars plain (Re.sub r (fun m => before ++ group_text m n) s) = true).
  { intros r before n s Hb Hs. apply sub_chars; [|exact Hs].
    intros pos text c Ht Hc.
    now rewrite all_chars_app, Hb, (group_text_ok plain pos text c n Ht Hc). }
  assert (Hpost : forall r after n s,
             all_chars plain after = true -> all_chars plain s = true ->
             all_chars plain (Re.sub r (fun m => group_text m n ++ after) s) = true).
  { intros r after n s Ha Hs. apply sub_chars; [|exact Hs].
    intros pos text c Ht Hc.
    now rewrite all_chars_app, Ha, (group_text_ok plain pos text c n Ht Hc). }
  apply (Hpre re_include ("// INCLUDE" ++ NL) 0%nat); [reflexivity|].
  apply (Hpre re_struct_head (NL ++ "// STRUCT_START" ++ NL) 1%nat); [reflexivity|].
  apply (Hpre re_class_head (NL ++ "// CLASS_START" ++ NL) 1%nat); [reflexivity|].
  apply (Hpost re_closing_brace (NL ++ "// FUNCTION_END" ++ NL) 1%nat); [reflexivity|].
  apply (Hpre re_function_head (NL ++ "// FUNCTION_START" ++ NL) 1%nat); [reflexivity|].
  exact H.
Qed.

(** No token type holds a tab or a carriage return. *)
Definition plain_tokens (tokens : list Token) : Prop :=
  Forall (fun t => all_chars plain (token_type t) = true) tokens.

Lemma enhance_plain (code : string) (tokens : list Token) :
  plain_tokens tokens -> all_chars plain code = true ->
  all_chars plain (_enhance_with_tokens code tokens) = true.
Proof.
  intros Ht Hc. unfold _enhance_with_tokens. cbv zeta.
  match goal with |- context [fold_left ?f _ _] => set (step := f) end.
  apply all_chars_join; [reflexivity|].
  assert (Hstep : forall acc (il : Z * string),
             Forall (fun x => all_chars plain x = true) acc ->
             all_chars plain (snd il) = true ->
             Forall (fun x => all_chars plain x = true) (step acc il)).
  { intros acc [i ln] Hacc Hln. cbn [snd] in Hln. unfold step.
    assert (Hinfo : all_chars plain
                      (join " " (map token_type (firstn 5 (tokens_of_line tokens i)))) = true).
    { apply all_chars_join; [reflexivity|]. apply Forall_forall. intros x Hx.
      apply in_map_iff in Hx. destruct Hx as [tk [<- Htk]].
      apply TokenizerFacts.In_firstn in Htk. unfold tokens_of_line in Htk.
      apply filter_In in Htk. destruct Htk as [Htk _].
      unfold plain_tokens in Ht. rewrite Forall_forall in Ht. now apply Ht. }
    destruct (tokens_of_line tokens i) as [|tk tks].
    - apply Forall_app. split; [exact Hacc | now constructor].
    - destruct (truthy (join " " (map token_type (firstn 5 (tk :: tks))))).
      + apply Forall_app. split; [apply Forall_app; split; [exact Hacc | now constructor]|].
        constructor; [|constructor]. now rewrite all_chars_app, Hinfo.
      + apply Forall_app. split; [exact Hacc | now constructor]. }
  assert (Hlines : Forall (fun il : Z * string => all_chars plain (snd il) = true)
                          (enumerate_from 1 (split_lines code))).
  { unfold split_lines. pose proof (all_chars_split plain nl code Hc) as H.
    generalize 1%Z. induction H as [|x t Hx Hl IH]; intro i; constructor; auto. }
  revert Hlines. generalize (enumerate_from 1 (split_lines code)).
  assert (Hacc : Forall (fun x => all_chars plain x = true) (@nil string)) by constructor.
  revert Hacc. generalize (@nil string).
  intros acc Hacc l. revert acc Hacc.
  induction l as [|il t IH]; intros acc Hacc Hl; [exact Hacc|].
  inversion Hl; subst. cbn [fold_left]. apply IH; [|assumption]. now apply Hstep.
Qed.

(** The tokens handed to [preprocess] are absent or free of tabs and
    carriage returns. *)
Definition plain_input (tokens : option (list Token)) : Prop :=
  match tokens with
  | Some l => plain_tokens l
  | None => True
  end.

(** The output of [preprocess] contains no tab and no carriage return,
    provided no token type supplied with the text contains one. *)
Theorem preprocess_output_is_plain :
  forall (source_code : string) (tokens : option (list Token)) (source_language : string),
    plain_input tokens ->
    all_chars plain (preprocess source_code tokens source_language) = true.
Proof.
  intros source_code tokens source_language Ht. unfold preprocess.
  destruct (negb (truthy source_code) || negb (truthy (strip source_code)));
    [reflexivity|]. cbv zeta.
  assert (H : all_chars plain
                (_normalize_strings
                   (_process_comments
                      (_normalize_whitespace (_normalize_line_endings source_code))
                      source_language)) = true)
    by (apply strings_plain, comments_plain, whitespace_plain, line_endings_no_cr).
  assert (H' : all_chars plain
                 (_add_structural_markers
                    match tokens with
                    | Some (t :: ts) =>
                        _enhance_with_tokens
                          (_normalize_strings
                             (_process_comments
                                (_normalize_whitespace (_normalize_line_endings source_code))
                                source_language)) (t :: ts)
                    | _ =>
                        _normalize_strings
                          (_process_comments
                             (_normalize_whitespace (_normalize_line_endings source_code))
                             source_language)
                    end) = true).
  { apply markers_plain. destruct tokens as [[|t ts]|]; try exact H.
    now apply enhance_plain. }
  destruct (negb (endswith NL _)); [|exact H'].
  now rewrite all_chars_app, H'.
Qed.

(** A text with tabs and both kinds of line ending. *)
Definition windows_text : string :=
  "int main() {" ++ String cr NL ++ String tab "return 0;" ++ String cr "}".

Lemma preprocess_output_is_plain_witness :
  plain_input (Some [mkToken (Some 1%Z) (Some "KEYWORD")])
  /\ all_chars plain (preprocess windows_text (Some [mkToken (Some 1%Z) (Some "KEYWORD")])
                                 "cpp") = true.
Proof.
  split; [repeat constructor|].
  apply (preprocess_output_is_plain windows_text
           (Some [mkToken (Some 1%Z) (Some "KEYWORD")]) "cpp").
  repeat constructor.
Defined.

(** *** Token annotations *)

Lemma no_token_on_line (tokens : list Token) (j : Z) :
  (forall t, In t tokens -> token_line t <> j) -> tokens_of_line tokens j = [].
Proof.
  intro H. unfold tokens_of_line. induction tokens as [|t ts IH]; [reflexivity|].
  simpl. destruct (Z.eqb (token_line t) j) eqn:E.
  - apply Z.eqb_eq in E. exfalso. apply (H t); [now left | exact E].
  - apply IH. intros t' Ht'. apply H. now right.
Qed.

Lemma length_enumerate {A : Type} (l : list A) (i : Z) :
  List.length (enumerate_from i l) = List.length l.
Proof. revert i. induction l as [|a t IH]; intro i; simpl; [reflexivity | now rewrite IH]. Qed.

(** Tokens whose line number is not a line of the text leave the text as it
    is. *)
Theorem tokens_off_the_text_are_ignored :
  forall (code : string) (tokens : list Token),
    (forall t, In t tokens ->
               (token_line t < 1 \/ Z.of_nat (List.length (split_lines code)) < token_line t)%Z) ->
    _enhance_with_tokens code tokens = code.
Proof.
  intros code tokens H. unfold _enhance_with_tokens. cbv zeta.
  match goal with |- context [fold_left ?f _ _] => set (step := f) end.
  assert (Hfold : forall (l : list string) (i : Z) (acc : list string),
             (forall j, (i <= j < i + Z.of_nat (List.length l))%Z ->
                        tokens_of_line tokens j = []) ->
             fold_left step (enumerate_from i l) acc = (acc ++ l)%list).
  { induction l as [|ln t IH]; intros i acc Hj.
    - simpl. now rewrite List.app_nil_r.
    - cbn [enumerate_from fold_left]. rewrite IH.
      + unfold step at 1. rewrite (Hj i) by (cbn [List.length]; lia).
        now rewrite <- List.app_assoc.
      + intros j Hr. apply Hj. cbn [List.length]. lia. }
  rewrite Hfold.
  - apply (join_split_char nl code).
  - intros j Hr. apply no_token_on_line. intros t Ht E.
    destruct (H t Ht); fold (split_lines code) in *; lia.
Qed.

Lemma tokens_off_the_text_are_ignored_witness :
  (forall t, In t [mkToken (Some 7%Z) (Some "IDENT"); mkToken (Some 0%Z) None] ->
             (token_line t < 1
              \/ Z.of_nat (List.length (split_lines ("a;" ++ NL ++ "b;"))) < token_line t)%Z)
  /\ _enhance_with_tokens ("a;" ++ NL ++ "b;")
                          [mkToken (Some 7%Z) (Some "IDENT"); mkToken (Some 0%Z) None]
     = "a;" ++ NL ++ "b;".
Proof.
  assert (H : forall t, In t [mkToken (Some 7%Z) (Some "IDENT"); mkToken (Some 0%Z) None] ->
                        (token_line t < 1
                         \/ Z.of_nat (List.length (split_lines ("a;" ++ NL ++ "b;")))
                            < token_line t)%Z).
  { intros t [<- | [<- | []]]; [right | left]; reflexivity. }
  split; [exact H|].
  exact (tokens_off_the_text_are_ignored ("a;" ++ NL ++ "b;") _ H).
Defined.

(** *** The structural check and the validator *)

Lemma c_like_language (language : string) :
  TokenizerTools.in_list language ["java"; "javascript"] = true ->
  language = "java" \/ language = "javascript".
Proof.
  unfold TokenizerTools.in_list. simpl. intro H.
  destruct (String.eqb language "java") eqn:E1; [apply String.eqb_eq in E1; auto|].
  destruct (String.eqb language "javascript") eqn:E2; [apply String.eqb_eq in E2; auto|].
  discriminate.
Qed.

(** For the tags java and javascript and a text that is not blank, the
    structural check of the tokenizer and the validator count the same
    braces but judge them differently: the check reports the text valid and
    puts the unmatched-brace message among its warnings (followed by the
    parenthesis message, if any), while the validator reports the same
    message as its only error and the text invalid. *)
Theorem structure_check_warns_where_validator_fails :
  forall (ast_parse : string -> Validator.parse_result)
         (error_text : string -> option Z -> string)
         (code language : string) (source_info : option Validator.SourceInfo),
    TokenizerTools.in_list language ["java"; "javascript"] = true ->
    ValidatorFacts.blank code = false ->
    exists report r,
      validate_code_structure ast_parse error_text code language = Returned report
      /\ Validator.validate ast_parse code language source_info = Returned r
      /\ sr_is_valid report = true
      /\ sr_errors report = []
      /\ sr_warnings report
         = (map Validator.message (Validator.errors r)
            ++ (if (ValidatorProps.paren_diff code =? 0)%Z then []
                else [("Unmatched parentheses: "
                       ++ str_of_Z (ValidatorProps.paren_diff code))%string]))%list
      /\ Validator.is_valid r = (ValidatorProps.brace_diff code =? 0)%Z.
Proof.
  intros ast_parse error_text code language source_info Hl Hb.
  assert (Hv : Validator.in_list (lower language) ["java"; "javascript"] = true)
    by (destruct (c_like_language language Hl) as [-> | ->]; reflexivity).
  destruct (ValidatorProps.c_like_validate_result ast_parse code language source_info Hv Hb)
    as [r [Hr [Hvalid Herr]]].
  unfold validate_code_structure.
  change (negb (truthy code) || negb (truthy (strip code))) with (ValidatorFacts.blank code).
  assert (H3 : TokenizerTools.in_list language ["cpp"; "java"; "javascript"] = true)
    by (destruct (c_like_language language Hl) as [-> | ->]; reflexivity).
  rewrite Hb, H3. cbv zeta.
  assert (Hp : String.eqb language "python" = false)
    by (destruct (c_like_language language Hl) as [-> | ->]; reflexivity).
  rewrite Hp.
  eexists. exists r. split; [reflexivity|]. split; [exact Hr|].
  cbn [sr_is_valid sr_errors sr_warnings]. rewrite Herr, Hvalid.
  fold (ValidatorProps.brace_diff code). fold (ValidatorProps.paren_diff code).
  repeat split.
  destruct (ValidatorProps.brace_diff code =? 0)%Z;
    destruct (ValidatorProps.paren_diff code =? 0)%Z; reflexivity.
Qed.

Lemma structure_check_warns_where_validator_fails_witness :
  TokenizerTools.in_list "java" ["java"; "javascript"] = true
  /\ ValidatorFacts.blank "void f( { }}" = false
  /\ exists report r,
      validate_code_structure Validator.accepting_parser (fun msg _ => msg)
                              "void f( { }}" "java" = Returned report
      /\ Validator.validate Validator.accepting_parser "void f( { }}" "java" None = Returned r
      /\ sr_is_valid report = true
      /\ sr_errors report = []
      /\ sr_warnings report
         = (map Validator.message (Validator.errors r)
            ++ (if (ValidatorProps.paren_diff "void f( { }}" =? 0)%Z then []
                else [("Unmatched parentheses: "
                       ++ str_of_Z (ValidatorProps.paren_diff "void f( { }}"))%string]))%list
      /\ Validator.is_valid r = (ValidatorProps.brace_diff "void f( { }}" =? 0)%Z.
Proof.
  split; [reflexivity|]. split; [reflexivity|].
  exact (structure_check_warns_where_validator_fails
           Validator.accepting_parser (fun msg _ => msg) "void f( { }}" "java" None
           eq_refl eq_refl).
Defined.

End TokenizerProps.

(** ** More facts about the request handler *)

Module AppProps.

Import PyStr Float App.
Local Open Scope string_scope.

(** *** Which requests pass the validation *)

(** The request is well formed: a source text that is not blank, a tag that
    is not blank and names one of the four languages in some letter case,
    and tokens that are absent or a list. *)
Definition well_formed (data : RequestData) : Prop :=
  exists source_code tag,
    rd_source_code data = Some source_code
    /\ truthy (strip source_code) = true
    /\ rd_target_language data = Some tag
    /\ truthy (strip tag) = true
    /\ in_list (lower tag) valid_languages = true
    /\ rd_tokens data <> Some TokensOther.

Lemma accepted_is_well_formed (data : RequestData) :
  validate_translation_request data = [] -> well_formed data.
Proof.
  unfold validate_translation_request, well_formed, missing_or_blank, data_truthy.
  destruct (rd_source_code data) as [source_code|];
    destruct (rd_target_language data) as [tag|];
    destruct (rd_tokens data) as [[l|]|]; cbv zeta; cbn [negb];
    try destruct (rd_other data); cbn [negb];
    try destruct (truthy (strip source_code)) eqn:Es; cbn [negb];
    try destruct (truthy (strip tag)) eqn:Et; cbn [negb];
    try destruct (in_list (lower tag) valid_languages) eqn:El; cbn [negb app];
    try discriminate; intros _; exists source_code, tag;
    repeat split; auto; discriminate.
Qed.

Lemma well_formed_is_accepted (data : RequestData) :
  well_formed data -> validate_translation_request data = [].
Proof.
  intros [source_code [tag [Hs [Hss [Ht [Hts [Hl Htok]]]]]]].
  unfold validate_translation_request, missing_or_blank, data_truthy.
  rewrite Hs, Ht, Hss, Hts, Hl. cbv zeta. cbn [negb app].
  destruct (rd_tokens data) as [[l|]|]; try reflexivity. congruence.
Qed.

(** The validation of a request returns no error exactly when the request
    is well formed. *)
Theorem request_accepted_exactly_when_well_formed :
  forall data : RequestData,
    validate_translation_request data = [] <-> well_formed data.
Proof.
  intro data. split; [apply accepted_is_well_formed | apply well_formed_is_accepted].
Qed.

(** *** The ways a request can end *)

Definition pipeline : list component := [Normalizer; Translator; Formatter; Validator].

Definition not_ready : Response :=
  format_error_response "ML models not initialized"
    (Some "Server may still be starting up. Please try again in a moment.") 503.

(** The model after a call of [translate]: only the confidence may differ,
    and it is 0.6 or 0.85 when the call returned. *)
Definition same_model (model model' : CodeGen.CodeGenModel) : Prop :=
  CodeGen.model_name model' = CodeGen.model_name model
  /\ CodeGen.is_initialized model' = CodeGen.is_initialized model
  /\ CodeGen.fallback_mode model' = CodeGen.fallback_mode model.

Definition rated (model' : CodeGen.CodeGenModel) : Prop :=
  CodeGen.last_confidence model' = f0_6 \/ CodeGen.last_confidence model' = f0_85.

Definition with_model (app : AppState) (model' : CodeGen.CodeGenModel) : AppState :=
  mkApp (Some model') (tokenizer_ready app) (debug app).

Inductive handled (app : AppState) : Response * AppState * list component -> Prop :=
| Get_json_raised (e : exn) :
    handled app (handle_exception app e, app, [])
| Bad_json :
    handled app (format_error_response "Invalid JSON request" None 400, app, [])
| Invalid_request (e : string) (es : list string) :
    handled app (format_error_response "Validation failed" (Some (join "; " (e :: es))) 400,
                 app, [])
| Not_ready :
    handled app (not_ready, app, [])
| Translate_raised (model : CodeGen.CodeGenModel) (e : exn) :
    translator app = Some model ->
    handled app (handle_exception app e, with_model app model, [Normalizer; Translator])
| Empty_translation (model model' : CodeGen.CodeGenModel) :
    translator app = Some model -> same_model model model' -> rated model' ->
    handled app (format_error_response "Translation failed"
                   (Some "ML model returned empty result") 500,
                 with_model app model', [Normalizer; Translator])
| Format_raised (model model' : CodeGen.CodeGenModel) (e : exn) :
    translator app = Some model -> same_model model model' -> rated model' ->
    handled app (handle_exception app e, with_model app model',
                 [Normalizer; Translator; Formatter])
| Validate_raised (model model' : CodeGen.CodeGenModel) (e : exn) :
    translator app = Some model -> same_model model model' -> rated model' ->
    handled app (handle_exception app e, with_model app model', pipeline)
| Served (model model' : CodeGen.CodeGenModel) (formatted_output : string)
         (validation_result : Validator.ValidationResult) :
    translator app = Some model -> same_model model model' -> rated model' ->
    in_unit (Validator.confidence validation_result) = true ->
    handled app (mkResponse 200 true None None (Some formatted_output)
                            (Some (CodeGen.last_confidence model'))
                            (Some (CodeGen.model_name model'))
                            (Some validation_result),
                 with_model app model', pipeline).

Lemma handler_cases
      (generate : string -> outcome string)
      (ast_parse : string -> Validator.parse_result)
      (format_code : string -> string -> outcome string)
      (app : AppState) (get_json : outcome (option RequestData)) :
  handled app (translate_code generate ast_parse format_code app get_json).
Proof.
  unfold translate_code.
  destruct get_json as [[data|]|e]; [|constructor|constructor].
  destruct (data_truthy data); cbn [negb]; [|constructor].
  destruct (validate_translation_request data) as [|e es] eqn:Ev; [|constructor].
  destruct (accepted_is_well_formed data Ev) as [source_code [tag [-> [_ [-> _]]]]].
  cbv zeta.
  destruct (translator app) as [model|] eqn:Em; [|apply Not_ready].
  destruct (tokenizer_ready app) eqn:Er; cbn [negb]; [|apply Not_ready].
  match goal with
  | |- context [CodeGen.translate generate model ?src ?lang] =>
      pose proof (CodeGenProps.translate_cases generate model src lang) as Hc;
      destruct (CodeGen.translate generate model src lang) as [[translated|e] model']
  end.
  - destruct Hc as [_ [_ [Hn [Hi [Hf [Hr _]]]]]].
    assert (Hsame : same_model model model') by (repeat split; assumption).
    replace (mkApp (Some model') true (debug app)) with (with_model app model')
      by (unfold with_model; now rewrite Er).
    destruct (truthy translated); cbn [negb]; [|now apply (Empty_translation app model)].
    destruct (format_code translated (lower tag)) as [formatted_output|e];
      [|now apply (Format_raised app model)].
    pose proof (ValidatorFacts.validate_in_unit ast_parse formatted_output (lower tag) None)
      as Hv.
    destruct (Validator.validate ast_parse formatted_output (lower tag) None)
      as [validation_result|e]; [|now apply (Validate_raised app model)].
    now apply (Served app model).
  - destruct Hc as [-> _].
    replace (mkApp (Some model) true (debug app)) with (with_model app model)
      by (unfold with_model; now rewrite Er).
    now apply Translate_raised.
Qed.


(** *** The shape of every response *)


(** *** What a request changes *)

(** The requests that reach the pipeline: [get_json] returned an object,
    the validation found no error, and the translator and the tokenizer
    exist. *)
Definition admitted (app : AppState) (get_json : outcome (option RequestData)) : Prop :=
  exists data model,
    get_json = Returned (Some data)
    /\ validate_translation_request data = []
    /\ translator app = Some model
    /\ tokenizer_ready app = true.

Lemma empty_body_has_errors (data : RequestData) :
  data_truthy data = false -> validate_translation_request data <> [].
Proof.
  intro H. unfold validate_translation_request. rewrite H. discriminate.
Qed.

Lemma handler_admission
      (generate : string -> outcome string)
      (ast_parse : string -> Validator.parse_result)
      (format_code : string -> string -> outcome string)
      (app : AppState) (get_json : outcome (option RequestData)) :
  match translate_code generate ast_parse format_code app get_json with
  | (resp, app', ran) =>
      (admitted app get_json -> (2 <= List.length ran)%nat)
      /\ (~ admitted app get_json -> ran = [] /\ app' = app)
  end.
Proof.
  unfold translate_code.
  destruct get_json as [[data|]|e].
  - destruct (data_truthy data) eqn:Et; cbn [negb].
    + destruct (validate_translation_request data) as [|e es] eqn:Ev.
      * destruct (accepted_is_well_formed data Ev) as [source_code [tag [-> [_ [-> _]]]]].
        cbv zeta.
        destruct (translator app) as [model|] eqn:Em.
        -- destruct (tokenizer_ready app) eqn:Er; cbn [negb].
           ++ assert (Ha : admitted app (Returned (Some data)))
                by (exists data, model; auto).
              destruct (CodeGen.translate _ _ _ _) as [[translated|e] model'].
              ** destruct (truthy translated); cbn [negb];
                   [|split; [simpl; lia | intro Hn; contradiction]].
                 destruct (format_code translated (lower tag));
                   [|split; [simpl; lia | intro Hn; contradiction]].
                 destruct (Validator.validate _ _ _ _);
                   split; try (simpl; lia); intro Hn; contradiction.
              ** split; [simpl; lia | intro Hn; contradiction].
           ++ split; [|auto].
              intros [d [m [_ [_ [_ Hr]]]]]. congruence.
        -- split; [|auto].
           intros [d [m [_ [_ [Hm _]]]]]. congruence.
      * split; [|auto].
        intros [d [m [Hd [Hv _]]]]. injection Hd as <-. congruence.
    + split; [|auto].
      intros [d [m [Hd [Hv _]]]]. injection Hd as <-.
      exfalso. exact (empty_body_has_errors data Et Hv).
  - split; [|auto]. intros [d [m [Hd _]]]. discriminate.
  - split; [|auto]. intros [d [m [Hd _]]]. discriminate.
Qed.

(** A request changes nothing but the confidence stored in the translator:
    the flags of the application and the name and the mode of the model stay
    as they were. The components run in the order of the pipeline. The
    normalizer and the translator run exactly for the requests that
    [get_json] parses into an object, that pass the validation and that find
    the translator and the tokenizer in place; every other request reaches no
    component and leaves the state exactly as it was. *)
Theorem request_changes_only_the_confidence :
  forall (generate : string -> outcome string)
         (ast_parse : string -> Validator.parse_result)
         (format_code : string -> string -> outcome string)
         (app : AppState) (get_json : outcome (option RequestData)),
    match translate_code generate ast_parse format_code app get_json with
    | (resp, app', ran) =>
        tokenizer_ready app' = tokenizer_ready app
        /\ debug app' = debug app
        /\ match translator app, translator app' with
           | Some model, Some model' =>
               CodeGen.model_name model' = CodeGen.model_name model
               /\ CodeGen.is_initialized model' = CodeGen.is_initialized model
               /\ CodeGen.fallback_mode model' = CodeGen.fallback_mode model
           | None, None => True
           | _, _ => False
           end
        /\ (exists n, ran = firstn n pipeline)
        /\ (admitted app get_json -> (2 <= List.length ran)%nat)
        /\ (~ admitted app get_json -> ran = [] /\ app' = app)
    end.
Proof.
  intros generate ast_parse format_code app get_json.
  pose proof (handler_admission generate ast_parse format_code app get_json) as Ha.
  destruct (handler_cases generate ast_parse format_code app get_json)
    as [ e | | e es | | model e Hm | model model' Hm [Hn [Hi Hf]] Hr
       | model model' e Hm [Hn [Hi Hf]] Hr | model model' e Hm [Hn [Hi Hf]] Hr
       | model model' formatted_output validation_result Hm [Hn [Hi Hf]] Hr Hv ];
    destruct Ha as [Ha1 Ha2];
    cbn [with_model tokenizer_ready debug translator];
    try rewrite Hm;
    (split; [reflexivity|]); (split; [reflexivity|]).
  - split; [destruct (translator app); auto|]. split; [now exists 0%nat | now split].
  - split; [destruct (translator app); auto|]. split; [now exists 0%nat | now split].
  - split; [destruct (translator app); auto|]. split; [now exists 0%nat | now split].
  - split; [destruct (translator app); auto|]. split; [now exists 0%nat | now split].
  - split; [repeat split|]. split; [now exists 2%nat | now split].
  - split; [repeat split; assumption|]. split; [now exists 2%nat | now split].
  - split; [repeat split; assumption|]. split; [now exists 3%nat | now split].
  - split; [repeat split; assumption|]. split; [now exists 4%nat | now split].
  - split; [repeat split; assumption|]. split; [now exists 4%nat | now split].
Qed.

(** *** What a failure tells the client *)

Definition public_messages : list string :=
  ["Invalid JSON request"; "Validation failed"; "ML models not initialized";
   "Translation failed"; "Internal server error during translation";
   "Invalid JSON format"].

(** With the debug flag off, the error message of every response is one of
    six fixed texts, whatever [get_json], the translator, the formatter or
    the validator raised: the text of an exception is not put into it. *)
Theorem no_exception_text_without_debug :
  forall (generate : string -> outcome string)
         (ast_parse : string -> Validator.parse_result)
         (format_code : string -> string -> outcome string)
         (app : AppState) (get_json : outcome (option RequestData)),
    debug app = false ->
    match error (fst (fst (translate_code generate ast_parse format_code app get_json))) with
    | Some msg => In msg public_messages
    | None =>
        status (fst (fst (translate_code generate ast_parse format_code app get_json)))
        = 200%Z
    end.
Proof.
  intros generate ast_parse format_code app get_json Hd.
  destruct (handler_cases generate ast_parse format_code app get_json)
    as [ e | | e es | | model e Hm | model model' Hm Hs Hr
       | model model' e Hm Hs Hr | model model' e Hm Hs Hr
       | model model' formatted_output validation_result Hm Hs Hr Hv ];
    try destruct e;
    cbn [fst error status format_error_response handle_exception internal_error not_ready];
    rewrite ?Hd; simpl; auto 10.
Qed.

(** A formatter that always fails, with a text of its own. *)
Definition failing_format (code target_language : string) : outcome string :=
  Raised (OtherError "unexpected indent at column 7").

Lemma no_exception_text_without_debug_witness :
  debug AppFacts.idle_app = false
  /\ match error (fst (fst (translate_code CodeGenFacts.chatty_engine
                              Validator.accepting_parser failing_format AppFacts.idle_app
                              (Returned (Some (mkRequest (Some "int x = 5;")
                                                         (Some "python") None false))))))
     with
     | Some msg => In msg public_messages
     | None =>
         status (fst (fst (translate_code CodeGenFacts.chatty_engine
                             Validator.accepting_parser failing_format AppFacts.idle_app
                             (Returned (Some (mkRequest (Some "int x = 5;")
                                                        (Some "python") None false))))))
         = 200%Z
     end.
Proof.
  split; [reflexivity|].
  exact (no_exception_text_without_debug CodeGenFacts.chatty_engine
           Validator.accepting_parser failing_format AppFacts.idle_app
           (Returned (Some (mkRequest (Some "int x = 5;") (Some "python") None false)))
           eq_refl).
Defined.

End AppProps.

(** ** preprocessing/ast_processor.py: code smells *)

Module AstTools.

Import PyStr AstProcessor.
Local Open Scope string_scope.

(** One entry of the list [find_code_smells] returns. *)
Record Smell : Type := mkSmell {
  smell_type : string;
  location : string;
  severity : string
}.

Definition function_location (func : FunctionInfo) : string :=
  "function " ++ f_name func ++ " at line " ++ str_of_Z (f_line func).

(** [func.get('complexity', 1)]. *)
Definition complexity_of (func : FunctionInfo) : Z :=
  match f_complexity func with Some c => c | None => 1%Z end.

Definition find_code_smells (info : Info) : list Smell :=
  let smells : list Smell := [] in
  let smells :=
    fold_left
      (fun smells func =>
         if (10 <? complexity_of func)%Z
         then (smells ++ [mkSmell "high_complexity" (function_location func) "warning"])%list
         else smells)
      (functions info) smells in
  fold_left
    (fun smells func =>
       if (7 <? List.length (f_parameters func))%nat
       then (smells ++ [mkSmell "too_many_parameters" (function_location func) "info"])%list
       else smells)
    (functions info) smells.

End AstTools.

(** ** More facts about the structural extractor *)

Module AstProps.

Import PyStr Re AstProcessor AstTools.
Local Open Scope string_scope.

(** *** Invariants of the scans *)

(** The functions recorded by one step of the C++/Java scan. *)
Lemma cpp_java_line_functions (lang : string) (il : Z * string) (st : scan) :
  functions (sc_info (cpp_java_line lang il st)) = functions (sc_info st)
  \/ exists f,
      functions (sc_info (cpp_java_line lang il st)) = (functions (sc_info st) ++ [f])%list
      /\ in_list (f_name f) cpp_keywords = false
      /\ f_line f = fst il
      /\ f_complexity f = None.
Proof.
  unfold cpp_java_line. destruct il as [i raw]. cbv zeta.
  destruct (negb (truthy (strip raw)) || startswith "//" (strip raw)
            || startswith "/*" (strip raw)); [now left|].
  set (info0 := if String.eqb lang "cpp" && startswith "#include" (strip raw)
                then add_import (mkImport (strip raw) None (Some "include") (Some i) None)
                                (sc_info st)
                else sc_info st).
  assert (H0 : functions info0 = functions (sc_info st))
    by (unfold info0; destruct (String.eqb lang "cpp" && startswith "#include" (strip raw));
        reflexivity).
  set (cls := match search re_class (strip raw) with
              | Some class_match =>
                  if negb (in_class st)
                  then (add_class (mkClass (group_text class_match 2) i [] []) info0,
                        true, Some (group_text class_match 2))
                  else (info0, in_class st, current_class st)
              | None => (info0, in_class st, current_class st)
              end).
  assert (H1 : functions (fst (fst cls)) = functions (sc_info st)).
  { unfold cls. destruct (search re_class (strip raw)); [|exact H0].
    destruct (negb (in_class st)); exact H0. }
  destruct cls as [[info1 in_class1] current_class1]. cbn [fst] in H1.
  destruct (search re_func (strip raw)) as [func_match|].
  - destruct (negb (in_function st)).
    + destruct (negb (in_list (group_text func_match 2) cpp_keywords)
                || in_list (group_text func_match 2) ["operator"]) eqn:Ek.
      * right. eexists. cbn [sc_info]. split.
        -- destruct (in_class1 && _); cbn [sc_info functions add_function];
             rewrite H1; reflexivity.
        -- cbn [f_name f_line f_complexity fst]. repeat split.
           apply orb_prop in Ek. destruct Ek as [Ek | Ek].
           ++ now apply negb_true_iff in Ek.
           ++ unfold in_list in Ek. simpl in Ek. rewrite orb_false_r in Ek.
              apply String.eqb_eq in Ek. rewrite Ek. reflexivity.
      * left. destruct (in_class1 && _); exact H1.
    + left. destruct (in_class1 && _); exact H1.
  - left. destruct (in_class1 && _); exact H1.
Qed.

(** What holds of the functions a fold of the scan has recorded: [P] holds
    of the new ones when it holds of every function a step can add. *)
Lemma cpp_java_scan_functions (P : FunctionInfo -> Prop) (lang : string) :
  (forall f, in_list (f_name f) cpp_keywords = false -> f_complexity f = None -> P f) ->
  forall (l : list (Z * string)) (st : scan),
    Forall P (functions (sc_info st)) ->
    Forall P (functions (sc_info (fold_left (fun st il => cpp_java_line lang il st) l st))).
Proof.
  intros HP l. induction l as [|il t IH]; intros st H; [exact H|].
  cbn [fold_left]. apply IH.
  destruct (cpp_java_line_functions lang il st) as [-> | [f [-> [Hk [_ Hc]]]]]; [exact H|].
  apply Forall_app. split; [exact H|]. constructor; [now apply HP | constructor].
Qed.

Lemma javascript_line_functions (il : Z * string) (info : Info) :
  functions (javascript_line il info) = functions info
  \/ exists f,
      functions (javascript_line il info) = (functions info ++ [f])%list
      /\ f_parameters f = [] /\ f_complexity f = None /\ f_line f = fst il.
Proof.
  unfold javascript_line. destruct il as [i raw]. cbv zeta.
  destruct (negb (truthy (strip raw)) || startswith "//" (strip raw)
            || startswith "/*" (strip raw)); [now left|].
  set (info0 := if startswith "import " (strip raw)
                   || startswith "const " (strip raw) && contains "require" (strip raw)
                then add_import (mkImport (strip raw) None (Some "import") (Some i) None) info
                else info).
  assert (H0 : functions info0 = functions info)
    by (unfold info0; destruct (startswith "import " (strip raw) || _); reflexivity).
  destruct (first_match js_func_patterns (strip raw)) as [m|].
  - right. eexists. split.
    + destruct (search re_js_class (strip raw)); cbn [functions add_class add_function];
        rewrite H0; reflexivity.
    + repeat split.
  - left. destruct (search re_js_class (strip raw)); exact H0.
Qed.

Lemma javascript_scan_functions (P : FunctionInfo -> Prop) :
  (forall f, f_parameters f = [] -> f_complexity f = None -> P f) ->
  forall (l : list (Z * string)) (info : Info),
    Forall P (functions info) ->
    Forall P (functions (fold_left (fun info il => javascript_line il info) l info)).
Proof.
  intros HP l. induction l as [|il t IH]; intros info H; [exact H|].
  cbn [fold_left]. apply IH.
  destruct (javascript_line_functions il info) as [-> | [f [-> [Hp [Hc _]]]]]; [exact H|].
  apply Forall_app. split; [exact H|]. constructor; [now apply HP | constructor].
Qed.

(** The functions of the exact-parse branch all have the complexity 1. *)
Lemma python_functions (P : FunctionInfo -> Prop) :
  (forall f, f_complexity f = Some 1%Z -> P f) ->
  forall tree, Forall P (functions (_extract_python_ast_info tree)).
Proof.
  intros HP tree. unfold _extract_python_ast_info. cbv zeta.
  unfold with_metrics. cbn [functions].
  generalize (walk tree). intro nodes.
  assert (H : Forall P (functions (empty_info "python" None))) by constructor.
  revert H. generalize (empty_info "python" None).
  induction nodes as [|node t IH]; intros info H; [exact H|].
  cbn [fold_left]. apply IH.
  destruct node as [n l a cs | n l bases b1 body b3 | names | module names | ty l cs | cs].
  - cbn [add_function functions]. apply Forall_app. split; [exact H|].
    constructor; [now apply HP | constructor].
  - exact H.
  - revert info H. induction names as [|alias names IHn]; intros info H; [exact H|].
    cbn [fold_left]. now apply IHn.
  - cbv zeta. revert info H. induction names as [|alias names IHn]; intros info H; [exact H|].
    cbn [fold_left]. now apply IHn.
  - exact H.
  - exact H.
Qed.

(** *** The properties *)

(** For C++ and Java the heuristic scan never records a keyword (if, while,
    for, return and the like) as a function, whatever the text. *)
Theorem keywords_are_never_functions :
  forall (ast_parse : string -> py_parse) (code lang : string),
    in_list lang ["cpp"; "java"] = true ->
    exists info,
      parse_code ast_parse code lang = Returned info
      /\ Forall (fun f => in_list (f_name f) cpp_keywords = false) (functions info).
Proof.
  intros ast_parse code lang Hl.
  assert (Hp : String.eqb lang "python" = false).
  { unfold in_list in Hl. simpl in Hl.
    destruct (String.eqb lang "python") eqn:E; [|reflexivity].
    apply String.eqb_eq in E. subst lang. discriminate. }
  unfold parse_code. rewrite Hp. eexists. split; [reflexivity|].
  unfold _parse_generic. cbv zeta. rewrite Hl. unfold with_metrics. cbn [functions].
  unfold _parse_cpp_java_like, cpp_java_scan.
  apply cpp_java_scan_functions; [auto | constructor].
Qed.

Lemma keywords_are_never_functions_witness :
  in_list "cpp" ["cpp"; "java"] = true
  /\ exists info,
      parse_code (fun _ => PySyntaxError) ("if (x) {" ++ String nl "int f(int a) {") "cpp"
      = Returned info
      /\ Forall (fun f => in_list (f_name f) cpp_keywords = false) (functions info).
Proof.
  split; [reflexivity|].
  exact (keywords_are_never_functions (fun _ => PySyntaxError)
           ("if (x) {" ++ String nl "int f(int a) {") "cpp" eq_refl).
Defined.

Lemma no_smell_fold (P : Smell -> Prop) (g : FunctionInfo -> bool) (mk : FunctionInfo -> Smell)
      (l : list FunctionInfo) :
  (forall f, In f l -> g f = true -> P (mk f)) ->
  forall acc, Forall P acc ->
              Forall P (fold_left (fun smells func =>
                                     if g func then (smells ++ [mk func])%list else smells)
                                  l acc).
Proof.
  induction l as [|f t IH]; intros H acc Hacc; [exact Hacc|].
  cbn [fold_left]. apply IH; [intros f' Hin; apply H; now right|].
  destruct (g f) eqn:E; [|exact Hacc].
  apply Forall_app. split; [exact Hacc|]. constructor; [|constructor].
  apply H; [now left | exact E].
Qed.

Lemma smells_of_plain_functions (info : Info) :
  Forall (fun f => complexity_of f = 1%Z) (functions info) ->
  Forall (fun s => smell_type s = "too_many_parameters") (find_code_smells info).
Proof.
  intro H. unfold find_code_smells. cbv zeta.
  apply (no_smell_fold _ (fun func => (7 <? List.length (f_parameters func))%nat)
                       (fun func => mkSmell "too_many_parameters" (function_location func)
                                            "info")); [reflexivity|].
  apply (no_smell_fold _ (fun func => (10 <? complexity_of func)%Z)
                       (fun func => mkSmell "high_complexity" (function_location func)
                                            "warning")); [|constructor].
  intros f Hin Hg. rewrite Forall_forall in H. rewrite (H f Hin) in Hg. discriminate.
Qed.

Lemma parsed_functions_are_plain (ast_parse : string -> py_parse) (code lang : string)
      (info : Info) :
  parse_code ast_parse code lang = Returned info ->
  Forall (fun f => complexity_of f = 1%Z) (functions info).
Proof.
  unfold parse_code, _parse_python.
  assert (Hg : forall l, Forall (fun f => complexity_of f = 1%Z)
                                (functions (_parse_generic code l))).
  { intro l. unfold _parse_generic. cbv zeta. unfold with_metrics. cbn [functions].
    destruct (in_list l ["cpp"; "java"]).
    - unfold _parse_cpp_java_like, cpp_java_scan.
      apply cpp_java_scan_functions; [|constructor].
      intros f _ Hc. unfold complexity_of. now rewrite Hc.
    - destruct (String.eqb l "javascript"); [|constructor].
      unfold _parse_javascript.
      apply javascript_scan_functions; [|constructor].
      intros f _ Hc. unfold complexity_of. now rewrite Hc. }
  destruct (String.eqb lang "python").
  - destruct (ast_parse code) as [tree| |e]; intro H; try discriminate;
      injection H as <-; [|apply Hg].
    apply python_functions. intros f Hc. unfold complexity_of. now rewrite Hc.
  - intro H. injection H as <-. apply Hg.
Qed.

(** On a model returned by [parse_code] the smell check never reports a
    high complexity: every smell it finds is one of too many parameters.
    This holds for every language tag and every syntax tree the parser may
    return. *)
Theorem parsed_code_has_no_complexity_smell :
  forall (ast_parse : string -> py_parse) (code lang : string) (info : Info),
    parse_code ast_parse code lang = Returned info ->
    Forall (fun s => smell_type s = "too_many_parameters") (find_code_smells info).
Proof.
  intros ast_parse code lang info H.
  apply smells_of_plain_functions.
  exact (parsed_functions_are_plain ast_parse code lang info H).
Qed.

Definition many_parameters : string :=
  "void f(int a, int b, int c, int d, int e, int f, int g, int h) {".

Lemma parsed_code_has_no_complexity_smell_witness :
  parse_code (fun _ => PySyntaxError) many_parameters "cpp"
  = Returned (_parse_generic many_parameters "cpp")
  /\ Forall (fun s => smell_type s = "too_many_parameters")
            (find_code_smells (_parse_generic many_parameters "cpp")).
Proof.
  split; [reflexivity|].
  exact (parsed_code_has_no_complexity_smell (fun _ => PySyntaxError) many_parameters "cpp"
                                             _ eq_refl).
Defined.

(** *** Line numbers *)

(** The functions lie on increasing lines, all from [lo] up to and below [hi]. *)
Definition lines_within (lo hi : Z) (fs : list FunctionInfo) : Prop :=
  StronglySorted Z.lt (map f_line fs)
  /\ Forall (fun f => (lo <= f_line f < hi)%Z) fs.

Lemma lines_within_snoc (lo i : Z) (fs : list FunctionInfo) (f : FunctionInfo) :
  (lo <= i)%Z -> lines_within lo i fs -> f_line f = i -> lines_within lo (i + 1) (fs ++ [f]).
Proof.
  intros Hlo [Hs Hb] Hf. split.
  - rewrite map_app. cbn [map]. rewrite Hf. clear Hf.
    induction fs as [|g t IH]; cbn [map app]; [repeat constructor|].
    inversion Hs as [|? ? Hst Hall]; subst. inversion Hb as [|? ? Hg Ht]; subst.
    constructor; [now apply IH|].
    apply Forall_app. split; [exact Hall|]. constructor; [lia | constructor].
  - apply Forall_app. split.
    + eapply Forall_impl; [|exact Hb]. cbv beta. intros g Hg. lia.
    + constructor; [lia | constructor].
Qed.

Lemma lines_within_next (lo i : Z) (fs : list FunctionInfo) :
  lines_within lo i fs -> lines_within lo (i + 1) fs.
Proof.
  intros [Hs Hb]. split; [exact Hs|].
  eapply Forall_impl; [|exact Hb]. cbv beta. intros g Hg. lia.
Qed.

Lemma scan_lines :
  forall (A : Type) (get : A -> list FunctionInfo) (f : A -> Z * string -> A),
    (forall st il, get (f st il) = get st
                   \/ exists g, get (f st il) = (get st ++ [g])%list /\ f_line g = fst il) ->
    forall (l : list string) (lo i : Z) (st : A),
      (lo <= i)%Z -> lines_within lo i (get st) ->
      lines_within lo (i + Z.of_nat (List.length l))
                   (get (fold_left f (AstProcessor.enumerate_from i l) st)).
Proof.
  intros A get f Hstep l. induction l as [|ln t IH]; intros lo i st Hlo H.
  - cbn [List.length AstProcessor.enumerate_from fold_left Z.of_nat].
    now rewrite Z.add_0_r.
  - cbn [AstProcessor.enumerate_from fold_left].
    replace (i + Z.of_nat (List.length (ln :: t)))%Z
      with ((i + 1) + Z.of_nat (List.length t))%Z by (cbn [List.length]; lia).
    apply IH; [lia|].
    destruct (Hstep st (i, ln)) as [-> | [g [-> Hg]]].
    + now apply lines_within_next.
    + now apply lines_within_snoc.
Qed.

(** The functions the heuristic scans record lie on strictly increasing
    lines, numbered from 1 and not beyond the last line of the text. *)
Theorem heuristic_function_lines :
  forall (ast_parse : string -> py_parse) (code lang : string),
    String.eqb lang "python" = false ->
    exists info,
      parse_code ast_parse code lang = Returned info
      /\ StronglySorted Z.lt (map f_line (functions info))
      /\ Forall (fun f => (1 <= f_line f <= Z.of_nat (List.length (split_lines code)))%Z)
                (functions info).
Proof.
  intros ast_parse code lang Hp. unfold parse_code. rewrite Hp.
  eexists. split; [reflexivity|].
  assert (H : lines_within 1 (1 + Z.of_nat (List.length (split_lines code)))
                           (functions (_parse_generic code lang))).
  { unfold _parse_generic. cbv zeta. unfold with_metrics. cbn [functions].
    destruct (in_list lang ["cpp"; "java"]).
    - unfold _parse_cpp_java_like, cpp_java_scan.
      apply (scan_lines scan (fun st => functions (sc_info st))
                        (fun st il => cpp_java_line lang il st)); [| lia | repeat constructor].
      intros st il. destruct (cpp_java_line_functions lang il st) as [E | [g [E [_ [Hg _]]]]];
        [now left | right; now exists g].
    - destruct (String.eqb lang "javascript").
      + unfold _parse_javascript.
        apply (scan_lines Info functions
                          (fun info il => javascript_line il info));
          [| lia | repeat constructor].
        intros info il.
        destruct (javascript_line_functions il info) as [E | [g [E [_ [_ Hg]]]]];
          [now left | right; now exists g].
      + repeat constructor. }
  destruct H as [Hs Hb]. split; [exact Hs|].
  eapply Forall_impl; [|exact Hb]. cbv beta. intros g Hg. lia.
Qed.

Lemma heuristic_function_lines_witness :
  String.eqb "javascript" "python" = false
  /\ exists info,
      parse_code (fun _ => PySyntaxError)
                 ("function a() {}" ++ String nl "function b() {}") "javascript"
      = Returned info
      /\ StronglySorted Z.lt (map f_line (functions info))
      /\ Forall (fun f => (1 <= f_line f
                           <= Z.of_nat (List.length
                                          (split_lines ("function a() {}"
                                                        ++ String nl "function b() {}"))))%Z)
                (functions info).
Proof.
  split; [reflexivity|].
  exact (heuristic_function_lines (fun _ => PySyntaxError)
           ("function a() {}" ++ String nl "function b() {}") "javascript" eq_refl).
Defined.

(** *** Blank text *)

Lemma blank_line_skipped (raw : string) :
  ValidatorFacts.all_space raw = true ->
  negb (truthy (strip raw)) || startswith "//" (strip raw) || startswith "/*" (strip raw)
  = true.
Proof. intro H. apply ValidatorFacts.strip_empty in H. now rewrite H. Qed.

Lemma blank_lines_fold {A : Type} (f : A -> Z * string -> A) (l : list string) :
  (forall st i raw, ValidatorFacts.all_space raw = true -> f st (i, raw) = st) ->
  Forall (fun raw => ValidatorFacts.all_space raw = true) l ->
  forall i st, fold_left f (AstProcessor.enumerate_from i l) st = st.
Proof.
  intros Hf H. induction H as [|raw t Hraw Ht IH]; intros i st; [reflexivity|].
  cbn [AstProcessor.enumerate_from fold_left]. now rewrite Hf, IH.
Qed.

(** The metrics of a model without functions, classes and control flow. *)
Definition empty_metrics : ComplexityMetrics := mkMetrics 1 0 0 0 0 0.

(** For a text of whitespace only, the empty text included, and a tag other
    than python, the model is empty: no function, no class, no import, and
    the base complexity 1. *)
Theorem blank_text_gives_the_empty_model :
  forall (ast_parse : string -> py_parse) (code lang : string),
    ValidatorFacts.all_space code = true ->
    String.eqb lang "python" = false ->
    exists w,
      parse_code ast_parse code lang
      = Returned (mkInfo lang [] [] [] [] (Some empty_metrics) w).
Proof.
  intros ast_parse code lang Hc Hp. unfold parse_code. rewrite Hp.
  unfold _parse_generic. cbv zeta.
  pose proof (ValidatorFacts.split_char_all_space nl code Hc) as Hl.
  fold (split_lines code) in Hl.
  destruct (in_list lang ["cpp"; "java"]).
  - unfold _parse_cpp_java_like, cpp_java_scan.
    rewrite (blank_lines_fold (fun st il => cpp_java_line lang il st) (split_lines code));
      [eexists; reflexivity | | exact Hl].
    intros st i raw Hraw. unfold cpp_java_line. now rewrite (blank_line_skipped raw Hraw).
  - destruct (String.eqb lang "javascript") eqn:Ej.
    + unfold _parse_javascript.
      rewrite (blank_lines_fold (fun info il => javascript_line il info) (split_lines code));
        [apply String.eqb_eq in Ej; subst lang; eexists; reflexivity | | exact Hl].
      intros st i raw Hraw. unfold javascript_line. now rewrite (blank_line_skipped raw Hraw).
    + eexists. reflexivity.
Qed.

Lemma blank_text_gives_the_empty_model_witness :
  ValidatorFacts.all_space (String nl "  ") = true
  /\ String.eqb "java" "python" = false
  /\ exists w,
      parse_code (fun _ => PySyntaxError) (String nl "  ") "java"
      = Returned (mkInfo "java" [] [] [] [] (Some empty_metrics) w).
Proof.
  split; [reflexivity|]. split; [reflexivity|].
  exact (blank_text_gives_the_empty_model (fun _ => PySyntaxError) (String nl "  ") "java"
                                          eq_refl eq_refl).
Defined.

End AstProps.

(** ** models/codegen_model.py: loading *)

Module CodeGenLoading.

Import PyStr Float CodeGen.
Local Open Scope string_scope.

(** [load_model], given whether the transformers library could be imported
    and what loading the tokenizer and the weights does: it succeeds or it
    raises. *)
Definition load_model (transformers_available : bool) (loading : outcome unit)
           (self : CodeGenModel) : bool * CodeGenModel :=
  if negb transformers_available then (true, self)
  else match loading with
       | Returned _ =>
           (true, mkModel (model_name self) (last_confidence self) true (fallback_mode self))
       | Raised _ => (true, _init_fallback_mode self)
       end.

(** A model that was constructed and then loaded is always ready:
    [load_model] returns True whether loading succeeded or raised, the model
    is initialized afterwards, it is in fallback mode exactly when the library
    is missing or loading raised, and [translate] on it can only raise for an
    unsupported language. *)
Theorem loaded_model_is_ready :
  forall (transformers_available : bool) (loading : outcome unit) (name : string)
         (generate : string -> outcome string) (source_code target_language : string),
    let loaded := load_model transformers_available loading
                             (init transformers_available name) in
    fst loaded = true
    /\ is_initialized (snd loaded) = true
    /\ fallback_mode (snd loaded)
       = (negb transformers_available
          || match loading with Raised _ => true | Returned _ => false end)
    /\ match translate generate (snd loaded) source_code target_language with
       | (Raised e, _) =>
           in_list (lower target_language) get_supported_languages = false
           /\ e = ValueError ("Unsupported target language: " ++ lower target_language)
       | (Returned _, _) =>
           in_list (lower target_language) get_supported_languages = true
       end.
Proof.
  intros transformers_available loading name generate source_code target_language loaded.
  assert (Hi : is_initialized (snd loaded) = true)
    by (unfold loaded, load_model, init; destruct transformers_available, loading; reflexivity).
  split; [unfold loaded, load_model; destruct transformers_available, loading; reflexivity|].
  split; [exact Hi|].
  split; [unfold loaded, load_model, init; destruct transformers_available, loading;
          reflexivity|].
  pose proof (CodeGenProps.translate_cases generate (snd loaded) source_code target_language)
    as H.
  destruct (translate generate (snd loaded) source_code target_language) as [[t|e] self'].
  - tauto.
  - destruct H as [_ [[Hf _] | [_ [Hl He]]]]; [congruence | auto].
Qed.

End CodeGenLoading.

(** ** preprocessing/tokenizer.py: tokens for analysis *)

Module TokenizerAnalysis.

Import PyStr Re Tokenizer.
Local Open Scope string_scope.

(** [re.finditer]: the matches [re.sub] would replace, found the same way. *)
Fixpoint finditer_fuel (fuel : nat) (r : regex) (allow_empty : bool)
         (prev : option ascii) (s : string) (pos : nat) : list mtch :=
  match fuel with
  | O => []
  | S f =>
      match match_here (negb allow_empty) r prev s with
      | Some (O, c) => Match pos EmptyString c :: finditer_fuel f r false prev s pos
      | Some (n, c) =>
          Match pos (take n s) c
          :: finditer_fuel f r true (last_char prev (take n s)) (drop n s) (pos + n)
      | None =>
          match s with
          | EmptyString => []
          | String x t => finditer_fuel f r true (Some x) t (S pos)
          end
      end
  end.

Definition finditer (r : regex) (s : string) : list mtch :=
  finditer_fuel (2 * String.length s + 2) r true None s 0.

(** [re.findall] for a pattern without groups: the texts of the matches. *)
Definition findall (r : regex) (s : string) : list string := map m_text (finditer r s).

(** A run of word characters, or one character that is neither a word
    character nor whitespace. *)
Definition re_token : regex :=
  Alt (plus w) (Chr (fun x => negb (isword x || isspace x))).

Definition tokenize_for_analysis (code : string) : list string :=
  let clean_code := code in
  let clean_code :=
    fold_left (fun clean_code pattern => Re.sub pattern (fun _ => "<STRING>") clean_code)
              string_patterns clean_code in
  findall re_token clean_code.

End TokenizerAnalysis.

(** ** Facts about the tokens for analysis *)

Module TokenizerAnalysisProps.

Import PyStr Re TextFacts ReChars Tokenizer TokenizerAnalysis.
Local Open Scope string_scope.

(** The number of leading characters accepted by [p]. *)
Fixpoint span (p : ascii -> bool) (s : string) : nat :=
  match s with
  | EmptyString => O
  | String x t => if p x then S (span p t) else O
  end.

Lemma span_le (p : ascii -> bool) (s : string) : (span p s <= String.length s)%nat.
Proof.
  induction s as [|x t IH]; [apply Nat.le_refl|].
  cbn [span]. change (String.length (String x t)) with (S (String.length t)).
  destruct (p x); lia.
Qed.

Lemma take_span (p : ascii -> bool) (s : string) : all_chars p (take (span p s) s) = true.
Proof.
  induction s as [|x t IH]; [reflexivity|].
  cbn [span]. destruct (p x) eqn:E; [|reflexivity].
  cbn [take all_chars]. now rewrite E, IH.
Qed.

Lemma length_drop (n : nat) (s : string) :
  String.length (drop n s) = (String.length s - n)%nat.
Proof.
  revert s. induction n as [|n IH]; intros [|x t]; try reflexivity.
  cbn [drop]. rewrite IH. reflexivity.
Qed.

(** A greedy repetition of one character class runs to the end of the span,
    when the continuation accepts what is left there. *)
Lemma star_greedy (p : ascii -> bool)
      (body : option ascii -> string -> caps -> cont -> option (string * caps))
      (k : cont) (res : string * caps) (c : caps) :
  (forall prev s c' k',
      body prev s c' k'
      = match s with
        | String x t => if p x then k' (Some x) t c' else None
        | EmptyString => None
        end) ->
  forall fuel s prev,
    (String.length s < fuel)%nat ->
    (forall pv, k pv (drop (span p s) s) c = Some res) ->
    star_loop body true k fuel prev s c = Some res.
Proof.
  intros Hbody fuel. induction fuel as [|f IH]; intros s prev Hf Hk; [lia|].
  cbn [star_loop]. cbv zeta. rewrite Hbody.
  destruct s as [|x t].
  - cbn [orelse]. apply Hk.
  - cbn [span] in Hk. change (String.length (String x t)) with (S (String.length t)) in *.
    destruct (p x).
    + assert (Hlt : (String.length t <? S (String.length t))%nat = true)
        by (apply Nat.ltb_lt; lia).
      rewrite Hlt. rewrite (IH t (Some x)); [reflexivity | lia | exact Hk].
    + cbn [orelse]. apply Hk.
Qed.

Lemma word_not_space (x : ascii) : isspace x = true -> isword x = false.
Proof.
  destruct x as [[] [] [] [] [] [] [] []]; vm_compute; intro H;
    first [reflexivity | discriminate].
Qed.

(** What the token pattern matches at the front of a text. *)
Lemma token_match (nonempty : bool) (prev : option ascii) (s : string) :
  match_here nonempty re_token prev s
  = match s with
    | EmptyString => None
    | String x t =>
        if isword x then Some (S (span isword t), [])
        else if isspace x then None
             else Some (1%nat, [])
    end.
Proof.
  unfold match_here, re_token, plus, w. cbn [Re.run].
  destruct s as [|x t]; [reflexivity|].
  change (String.length (String x t)) with (S (String.length t)).
  destruct (isword x) eqn:Ew.
  - erewrite (star_greedy isword _ _ (drop (span isword t) t, []) []).
    + cbn [orelse]. rewrite length_drop.
      pose proof (span_le isword t) as Hle.
      replace (S (String.length t) - (String.length t - span isword t))%nat
        with (S (span isword t)) by lia.
      reflexivity.
    + intros. reflexivity.
    + lia.
    + intro pv. rewrite length_drop.
      assert (Hlt : (String.length t - span isword t <? S (String.length t))%nat = true)
        by (apply Nat.ltb_lt; lia).
      rewrite Hlt. cbn [negb]. now rewrite andb_false_r.
  - cbn [orelse orb]. destruct (isspace x); cbn [negb]; [reflexivity|].
    assert (Hlt : (String.length t <? S (String.length t))%nat = true)
      by (apply Nat.ltb_lt; lia).
    rewrite Hlt. cbn [negb]. rewrite andb_false_r.
    replace (S (String.length t) - String.length t)%nat with 1%nat by lia.
    reflexivity.
Qed.

(** The text without its whitespace. *)
Fixpoint squeeze (s : string) : string :=
  match s with
  | EmptyString => EmptyString
  | String x t => if isspace x then squeeze t else String x (squeeze t)
  end.

Lemma squeeze_app (a b : string) : squeeze (a ++ b) = squeeze a ++ squeeze b.
Proof.
  induction a as [|x a IH]; [reflexivity|].
  change (String x a ++ b) with (String x (a ++ b)). cbn [squeeze].
  destruct (isspace x); [exact IH | now rewrite IH].
Qed.

Lemma squeeze_words (s : string) : all_chars isword s = true -> squeeze s = s.
Proof.
  induction s as [|x t IH]; intro H; [reflexivity|].
  cbn [all_chars] in H. apply andb_prop in H. destruct H as [Hx Ht].
  cbn [squeeze]. destruct (isspace x) eqn:Es.
  - apply word_not_space in Es. congruence.
  - now rewrite IH.
Qed.

(** A token: a run of word characters, or one character that is neither a
    word character nor whitespace. *)
Definition is_token (t : string) : Prop :=
  t <> EmptyString
  /\ (all_chars isword t = true
      \/ exists x, t = String x EmptyString /\ isword x = false /\ isspace x = false).

Lemma tokens_of_fuel (fuel : nat) :
  forall allow_empty prev s pos,
    (String.length s < fuel)%nat ->
    String.concat EmptyString (map m_text (finditer_fuel fuel re_token allow_empty prev s pos))
    = squeeze s
    /\ Forall is_token (map m_text (finditer_fuel fuel re_token allow_empty prev s pos)).
Proof.
  induction fuel as [|f IH]; intros allow_empty prev s pos Hf; [lia|].
  cbn [finditer_fuel]. rewrite token_match.
  destruct s as [|x t]; [split; [reflexivity | constructor]|].
  change (String.length (String x t)) with (S (String.length t)) in Hf.
  destruct (isword x) eqn:Ew.
  - set (n := span isword t).
    assert (Hw : all_chars isword (take (S n) (String x t)) = true)
      by (cbn [take all_chars]; rewrite Ew; apply take_span).
    destruct (IH true (last_char prev (take (S n) (String x t))) (drop (S n) (String x t))
                 (pos + S n)%nat) as [Hc Ht].
    { rewrite length_drop. change (String.length (String x t)) with (S (String.length t)).
      lia. }
    cbn [map m_text]. split.
    + replace (squeeze (String x t))
        with (squeeze (take (S n) (String x t) ++ drop (S n) (String x t)))
        by (now rewrite ReFacts.take_drop).
      rewrite squeeze_app, (squeeze_words _ Hw), <- Hc.
      set (rest := map m_text _).
      destruct rest; [now rewrite ReFacts.app_nil_r | reflexivity].
    + constructor; [|exact Ht]. split; [discriminate | now left].
  - destruct (isspace x) eqn:Es.
    + destruct (IH true (Some x) t (S pos)) as [Hc Ht]; [lia|].
      cbn [squeeze]. rewrite Es. split; assumption.
    + destruct (IH true (last_char prev (take 1 (String x t))) (drop 1 (String x t))
                   (pos + 1)%nat) as [Hc Ht]; [cbn [drop]; lia|].
      cbn [map m_text take drop] in *. split.
      * cbn [squeeze]. rewrite Es, <- Hc.
        set (rest := map m_text _).
        destruct rest; reflexivity.
      * constructor; [|exact Ht]. split; [discriminate|].
        right. exists x. auto.
Qed.

(** String literals are replaced first; the tokens of what is left, put
    together, are that text without its whitespace, and every token is a run
    of word characters or a single other character: the tokenization loses
    nothing but whitespace. *)
Theorem analysis_tokens_cover_the_text :
  forall code : string,
    String.concat EmptyString (tokenize_for_analysis code) = squeeze (_normalize_strings code)
    /\ Forall is_token (tokenize_for_analysis code).
Proof.
  intro code. unfold tokenize_for_analysis, findall, finditer. cbv zeta.
  fold (_normalize_strings code).
  apply tokens_of_fuel. lia.
Qed.

End TokenizerAnalysisProps.
